(** * jwql: engineering-database wrapper and web data containers

    A shallow embedding of

      - [jwql/edb/engineering_database.py]
        ([EdbMnemonic], [get_mnemonic], [get_mnemonics]) and
      - [jwql/website/apps/jwql/data_containers.py]
        ([get_all_proposals], the mnemonic-exploration branch of
        [get_edb_components], [get_expstart],
        [get_filenames_by_instrument], [get_filenames_by_rootname],
        [log_into_mast], [thumbnails]),

    together with the properties the specification states about them.

    Conventions of the embedding.

      - A Python [str] is a [string]: a sequence of 8-bit characters,
        compared character by character.  This is exact for the ASCII
        names the file-system mirror holds.
      - A Python exception is a value of [exn]; a function that may raise
        returns in the monad [Py], whose [Raise] node ends the
        computation.
      - Calls that leave the process (the telemetry service, the MAST
        session, the credential lookup) are [Vis] nodes of [Py]; they
        are answered by a handler, and [run] records every call issued,
        in order.
      - The file-system mirror below [FILESYSTEM_DIR] is an explicit
        value that the globbing functions read. *)

From Stdlib Require Import String Ascii List ZArith Bool Arith Lia.
From Stdlib Require Import Sorted Permutation.
From Stdlib Require Import Floats.
Import ListNotations.

Open Scope string_scope.
Open Scope list_scope.

(* ================================================================= *)
(** * Python strings *)

Module Python.

(** [sub in s]: substring containment. *)
Fixpoint contains (sub s : string) : bool :=
  prefix sub s ||
  match s with
  | EmptyString => false
  | String _ s' => contains sub s'
  end.

(** [s.startswith(p)]. *)
Definition startswith (s p : string) : bool := prefix p s.

(** [s.split(sep)] for a non-empty [sep]: the text is scanned from the
    left, each occurrence of [sep] closes the current piece, and the
    search resumes after the occurrence.  [skip] counts the characters
    of a matched separator that are still to be consumed. *)
Fixpoint split_from (sep s : string) (skip : nat) : list string :=
  match s with
  | EmptyString => [EmptyString]
  | String c s' =>
      match skip with
      | S k => split_from sep s' k
      | O =>
          if prefix sep s
          then EmptyString :: split_from sep s' (String.length sep - 1)
          else match split_from sep s' 0 with
               | piece :: pieces => String c piece :: pieces
               | [] => [String c EmptyString]
               end
      end
  end.

Definition split (s sep : string) : list string := split_from sep s 0.

(** [sep.join(pieces)]. *)
Definition join (sep : string) (pieces : list string) : string :=
  String.concat sep pieces.

(** [l[-1]] on a list of strings; [split] never returns an empty list,
    so the default is never used by the callers below. *)
Definition last_item (l : list string) : string := List.last l EmptyString.

(** [l[0]]. *)
Definition first_item (l : list string) : string := List.hd EmptyString l.

(** [l[:-1]]. *)
Definition but_last (l : list string) : list string := List.removelast l.

(** [s[a:b]] and [s[a:]] for non-negative literal bounds: slices clip to
    the length of the string and never raise. *)
Fixpoint drop (n : nat) (s : string) : string :=
  match n, s with
  | O, _ => s
  | S _, EmptyString => EmptyString
  | S k, String _ s' => drop k s'
  end.

Fixpoint take (n : nat) (s : string) : string :=
  match n, s with
  | O, _ => EmptyString
  | S _, EmptyString => EmptyString
  | S k, String c s' => String c (take k s')
  end.

Definition slice (s : string) (a b : nat) : string := take (b - a) (drop a s).
Definition slice_from (s : string) (a : nat) : string := drop a s.

(** [os.path.join(a, b)] of [posixpath]. *)
Definition ends_with_sep (s : string) : bool :=
  match String.get (String.length s - 1) s with
  | Some c => Ascii.eqb c "/"
  | None => false
  end.

Definition path_join (a b : string) : string :=
  if prefix "/" b then b
  else if (String.eqb a EmptyString) || ends_with_sep a then a ++ b
  else a ++ "/" ++ b.

(** [os.path.basename(p)]: the text after the last slash. *)
Definition basename (p : string) : string := last_item (split p "/").

(** [sorted(l)] on strings.  The order on strings is total and
    antisymmetric, so the sorted list is unique; insertion sort
    computes it. *)
Fixpoint insert_sorted (x : string) (l : list string) : list string :=
  match l with
  | [] => [x]
  | y :: l' => if String.leb x y then x :: l else y :: insert_sorted x l'
  end.

Fixpoint sorted (l : list string) : list string :=
  match l with
  | [] => []
  | x :: l' => insert_sorted x (sorted l')
  end.

End Python.

(* ================================================================= *)
(** * Exceptions and external calls *)

(** The Python exceptions the modelled functions can raise. *)
Inductive exn : Type :=
| RuntimeError (msg : string)
| NameError (name : string)
| UnboundLocalError (name : string)
| KeyError (key : string)
| ValueError (msg : string)
| IndexError (index : nat)
| ReError (pattern : string).

(** [UnboundLocalError] is a subclass of [NameError]. *)
Definition is_NameError (e : exn) : bool :=
  match e with
  | NameError _ | UnboundLocalError _ => true
  | _ => false
  end.

Section Effects.

(** [call] is the type of requests a program sends outside the
    process, [answer c] the type of the reply to the request [c]. *)
Context {call : Type} {answer : call -> Type}.

Inductive Py (A : Type) : Type :=
| Ret (a : A)
| Raise (e : exn)
| Vis (c : call) (k : answer c -> Py A).

Arguments Ret {A} a.
Arguments Raise {A} e.
Arguments Vis {A} c k.

Fixpoint bind {A B : Type} (m : Py A) (f : A -> Py B) : Py B :=
  match m with
  | Ret a => f a
  | Raise e => Raise e
  | Vis c k => Vis c (fun x => bind (k x) f)
  end.

(** Issue one call and return its answer. *)
Definition perform (c : call) : Py (answer c) := Vis c (fun x => Ret x).

(** What an observer sees of a run: the value returned or the
    exception raised, the state the outside world is left in, and the
    calls issued, oldest first. *)
Record outcome (W A : Type) : Type := mkOutcome {
  result : exn + A;
  world : W;
  trace : list call
}.

Arguments mkOutcome {W A} result world trace.
Arguments result {W A} o.
Arguments world {W A} o.
Arguments trace {W A} o.

(** The outside world: it answers a call and moves to a new state. *)
Definition handler (W : Type) : Type := forall c : call, W -> answer c * W.

Fixpoint run {W A : Type} (h : handler W) (m : Py A) (w : W) : outcome W A :=
  match m with
  | Ret a => mkOutcome (inr a) w []
  | Raise e => mkOutcome (inl e) w []
  | Vis c k =>
      let '(x, w') := h c w in
      let o := run h (k x) w' in
      mkOutcome (result o) (world o) (c :: trace o)
  end.

End Effects.

Arguments Py call answer A : clear implicits.
Arguments Ret {call answer A} a.
Arguments Raise {call answer A} e.
Arguments Vis {call answer A} c k.
Arguments outcome call W A : clear implicits.
Arguments mkOutcome {call W A} result world trace.
Arguments result {call W A} o.
Arguments world {call W A} o.
Arguments trace {call W A} o.
Arguments handler call answer W : clear implicits.

Declare Scope py_scope.
Delimit Scope py_scope with py.
Notation "x <- m ;; k" := (bind m (fun x => k))
  (at level 61, m at next level, right associativity) : py_scope.
Notation "' p <- m ;; k" := (bind m (fun p => k))
  (at level 61, p pattern, m at next level, right associativity) : py_scope.

(* ================================================================= *)
(** * jwql/edb/engineering_database.py *)

Module EngineeringDatabase.

(** [astropy.time.Time] instants and the [MJD] column of a telemetry
    table, as time stamps on one integer grid. *)
Definition Time : Type := Z.

(** A telemetry table has the columns [MJD] and [euvalue] that
    [bokeh_plot] reads. *)
Record record : Type := mkRecord {
  MJD : Time;
  euvalue : Z
}.

Definition Table : Type := list record.
Definition Meta : Type := list (string * string).
Definition Info : Type := list (string * string).

(** The functions imported from [edb_interface]. *)
Inductive call : Type :=
| query_single_mnemonic (mnemonic_identifier : string)
                        (start_time end_time : Time) (token : string)
| query_mnemonic_info (mnemonic_identifier : string) (token : string).

Definition answer (c : call) : Type :=
  match c with
  | query_single_mnemonic _ _ _ _ => (Table * Meta * Info)%type
  | query_mnemonic_info _ _ => Info
  end.

Definition Edb : Type -> Type := Py call answer.

(** [class EdbMnemonic]: [__init__] stores its six arguments. *)
Record EdbMnemonic : Type := mkEdbMnemonic {
  mnemonic_identifier : string;
  start_time : Time;
  end_time : Time;
  data : Table;
  meta : Meta;
  info : Info
}.

(** The value a caller of [get_mnemonics] may pass as [mnemonics]. *)
Inductive pyobject : Type :=
| PyList (items : list string)
| PyNdarray (items : list string)
| PyTuple (items : list string)
| PyStr (s : string)
| PyNone.

(** [isinstance(mnemonics, (list, np.ndarray))]. *)
Definition isinstance_list_or_ndarray (o : pyobject) : bool :=
  match o with
  | PyList _ | PyNdarray _ => true
  | _ => false
  end.

(** The elements a [for] loop over a list or a one-dimensional array
    visits.  The loop of [get_mnemonics] is reached with a list or an
    array only; the other cases are never iterated. *)
Definition iterate (o : pyobject) : list string :=
  match o with
  | PyList items | PyNdarray items | PyTuple items => items
  | PyStr _ | PyNone => []
  end.

(** [collections.OrderedDict] with string keys: the entries in insertion
    order.  Assigning to a key that is present replaces its value and
    keeps its position; a new key goes to the end. *)
Definition OrderedDict (V : Type) : Type := list (string * V).

Fixpoint setitem {V : Type} (d : OrderedDict V) (key : string) (value : V)
  : OrderedDict V :=
  match d with
  | [] => [(key, value)]
  | (k, v) :: d' =>
      if String.eqb k key then (k, value) :: d'
      else (k, v) :: setitem d' key value
  end.

Definition keys {V : Type} (d : OrderedDict V) : list string := map fst d.

Fixpoint getitem {V : Type} (d : OrderedDict V) (key : string) : option V :=
  match d with
  | [] => None
  | (k, v) :: d' => if String.eqb k key then Some v else getitem d' key
  end.

Section WithToken.

(** [MAST_TOKEN = settings['mast_token']], read from the configuration
    file when the module is imported. *)
Variable MAST_TOKEN : string.

Definition get_mnemonic (mnemonic_identifier : string) (start_time end_time : Time)
  : Edb EdbMnemonic :=
  ('(data, meta, info) <-
     perform (query_single_mnemonic mnemonic_identifier start_time end_time MAST_TOKEN) ;;
   let mnemonic :=
     mkEdbMnemonic mnemonic_identifier start_time end_time data meta info in
   Ret mnemonic)%py.

(** The [for] loop of [get_mnemonics], started with the dictionary built
    so far. *)
Fixpoint get_mnemonics_loop (mnemonics : list string) (start_time end_time : Time)
         (mnemonic_dict : OrderedDict EdbMnemonic) : Edb (OrderedDict EdbMnemonic) :=
  match mnemonics with
  | [] => Ret mnemonic_dict
  | mnemonic_identifier :: rest =>
      (m <- get_mnemonic mnemonic_identifier start_time end_time ;;
       get_mnemonics_loop rest start_time end_time
                          (setitem mnemonic_dict mnemonic_identifier m))%py
  end.

Definition get_mnemonics (mnemonics : pyobject) (start_time end_time : Time)
  : Edb (OrderedDict EdbMnemonic) :=
  if negb (isinstance_list_or_ndarray mnemonics)
  then Raise (RuntimeError "Please provide a list/array of mnemonic_identifiers")
  else get_mnemonics_loop (iterate mnemonics) start_time end_time [].

Definition get_mnemonic_info (mnemonic_identifier : string) : Edb Info :=
  perform (query_mnemonic_info mnemonic_identifier MAST_TOKEN).

End WithToken.

(** ** The telemetry service *)

(** What the service stores for each mnemonic. *)
Record Archive : Type := mkArchive {
  records : string -> Table;
  metadata : string -> Meta;
  description : string -> Info
}.

Definition within (start_time end_time : Time) (r : record) : bool :=
  (start_time <=? MJD r)%Z && (MJD r <=? end_time)%Z.

(** Modelled from the spec: [query_single_mnemonic] of
    [jwql/edb/edb_interface.py], the source of which is missing here.
    The spec describes its result as "a telemetry-query result bundling
    a time series table, metadata, and descriptive info", whose "times
    fall within [start, end]": the table holds the stored records of the
    mnemonic whose time lies in the closed interval. *)
Definition query_single_mnemonic_spec (archive : Archive)
           (mnemonic_identifier : string) (start_time end_time : Time)
  : Table * Meta * Info :=
  (filter (within start_time end_time) (records archive mnemonic_identifier),
   metadata archive mnemonic_identifier,
   description archive mnemonic_identifier).

(** The service as a handler: queries read the archive and leave it
    unchanged. *)
Definition edb_service : handler call answer Archive :=
  fun c archive =>
    match c return answer c * Archive with
    | query_single_mnemonic mnemonic_identifier start_time end_time _ =>
        (query_single_mnemonic_spec archive mnemonic_identifier start_time end_time,
         archive)
    | query_mnemonic_info mnemonic_identifier _ =>
        (description archive mnemonic_identifier, archive)
    end.

End EngineeringDatabase.

(* ================================================================= *)
(** * Reference notions for [get_mnemonics] *)

Module GetMnemonicsSpec.

Import EngineeringDatabase.

Section Reference.

Variable MAST_TOKEN : string.
Context {W : Type}.
Variable h : handler call answer W.

(** The mnemonics that [get_mnemonic] produces when it is called once for
    each element of [mnemonics], one call after the other, starting in
    the world [w]. *)
Fixpoint get_each (mnemonics : list string) (start_time end_time : Time) (w : W)
  : list (string * EdbMnemonic) :=
  match mnemonics with
  | [] => []
  | mnemonic_identifier :: rest =>
      let o := run h (get_mnemonic MAST_TOKEN mnemonic_identifier start_time end_time) w in
      match result o with
      | inr m => (mnemonic_identifier, m) :: get_each rest start_time end_time (world o)
      | inl _ => []
      end
  end.

(** The world after those calls. *)
Fixpoint world_after (mnemonics : list string) (start_time end_time : Time) (w : W) : W :=
  match mnemonics with
  | [] => w
  | mnemonic_identifier :: rest =>
      world_after rest start_time end_time
        (world (run h (get_mnemonic MAST_TOKEN mnemonic_identifier start_time end_time) w))
  end.

End Reference.

(** The dictionary obtained by assigning the pairs in order. *)
Definition assign_all {V : Type} (d : OrderedDict V) (pairs : list (string * V))
  : OrderedDict V :=
  fold_left (fun acc kv => setitem acc (fst kv) (snd kv)) pairs d.

(** The distinct elements of a list, each at the place of its first
    occurrence. *)
Definition add_key (seen : list string) (key : string) : list string :=
  if existsb (String.eqb key) seen then seen else seen ++ [key].

Definition first_occurrences (l : list string) : list string :=
  fold_left add_key l [].

(** The specification sentence about [get_mnemonics], read literally: one
    query per element of the input, and a dictionary whose keys are the
    input list, each with the mnemonic [get_mnemonic] produced for it. *)
Definition literal_reading (MAST_TOKEN : string) {W : Type}
           (h : handler call answer W) (w : W)
           (mnemonics : list string) (start_time end_time : Time) : Prop :=
  let o := run h (get_mnemonics MAST_TOKEN (PyList mnemonics) start_time end_time) w in
  trace o = map (fun m => query_single_mnemonic m start_time end_time MAST_TOKEN) mnemonics /\
  exists d, result o = inr d /\
            keys d = mnemonics /\
            d = get_each MAST_TOKEN h mnemonics start_time end_time w.

(** A service that holds no telemetry at all. *)
Definition empty_service : handler call answer unit :=
  fun c w =>
    match c return answer c * unit with
    | query_single_mnemonic _ _ _ _ => (([], [], []), w)
    | query_mnemonic_info _ _ => ([], w)
    end.

(** A service that counts the queries it has answered and stamps each
    table with the count: two queries for one mnemonic get different
    answers. *)
Definition counting_service : handler call answer Z :=
  fun c n =>
    match c return answer c * Z with
    | query_single_mnemonic _ _ _ _ => (([mkRecord n n], [], []), (n + 1)%Z)
    | query_mnemonic_info _ _ => ([], n)
    end.

End GetMnemonicsSpec.

(* ================================================================= *)
(** * Reference notions on text *)

(** [x] is the text after the last occurrence of [sep] in [p]. *)
Definition after_last (sep p x : string) : Prop :=
  (exists pre, p = (pre ++ sep ++ x)%string) /\ Python.contains sep x = false.

(** A string without a slash: what a name in a directory is. *)
Definition slash_free (name : string) : bool := negb (Python.contains "/" name).

(** A string that [glob] takes literally and as one path component: no
    slash and none of the magic characters. *)
Definition glob_literal (s : string) : bool :=
  negb (Python.contains "/" s) &&
  negb (Python.contains "*" s) &&
  negb (Python.contains "?" s) &&
  negb (Python.contains "[" s).

(** The order of [sorted] on strings. *)
Definition string_le (a b : string) : Prop := String.leb a b = true.

(* ================================================================= *)
(** * The file-system mirror and [glob] *)

Module Glob.

(** An entry of the directory [FILESYSTEM_DIR]: a plain file, or a
    directory with the names it holds. *)
Inductive entry : Type :=
| File (name : string)
| Dir (name : string) (children : list string).

Definition filesystem : Type := list entry.

Definition entry_name (e : entry) : string :=
  match e with
  | File name => name
  | Dir name _ => name
  end.

Definition is_dir (e : entry) : bool :=
  match e with
  | File _ => false
  | Dir _ _ => true
  end.

(** [os.listdir] of a directory of the mirror; a name that is missing or
    is a plain file lists nothing. *)
Fixpoint listdir (fs : filesystem) (dirname : string) : list string :=
  match fs with
  | [] => []
  | File name :: fs' => if String.eqb name dirname then [] else listdir fs' dirname
  | Dir name children :: fs' =>
      if String.eqb name dirname then children else listdir fs' dirname
  end.

(** [glob.has_magic]: one of the characters [*], [?] or the opening
    bracket occurs. *)
Definition has_magic (s : string) : bool :=
  Python.contains "*" s || Python.contains "?" s || Python.contains "[" s.

(** [glob._ishidden]. *)
Definition ishidden (s : string) : bool := prefix "." s.

(** [fnmatch.fnmatchcase(name, pat)] for a pattern without bracket
    expressions: [*] stands for any text, [?] for any one character,
    every other character for itself. *)
Fixpoint fnmatch (pat : string) : string -> bool :=
  match pat with
  | EmptyString => fun name => String.eqb name EmptyString
  | String c pat' =>
      if Ascii.eqb c "*" then
        fix star (name : string) : bool :=
          fnmatch pat' name ||
          match name with
          | EmptyString => false
          | String _ name' => star name'
          end
      else if Ascii.eqb c "?" then
        fun name =>
          match name with
          | EmptyString => false
          | String _ name' => fnmatch pat' name'
          end
      else
        fun name =>
          match name with
          | EmptyString => false
          | String d name' => Ascii.eqb c d && fnmatch pat' name'
          end
  end.

(** [glob._glob1]: the names of a directory that match a pattern; hidden
    names are offered only to a pattern that is hidden itself. *)
Definition glob1 (names : list string) (pattern : string) : list string :=
  filter (fun name => (ishidden pattern || negb (ishidden name)) && fnmatch pattern name)
         names.

(** [glob._glob0]: a literal last component is looked up. *)
Definition glob0 (names : list string) (basename : string) : list string :=
  if existsb (String.eqb basename) names then [basename] else [].

Definition glob_in_dir (names : list string) (pattern : string) : list string :=
  if has_magic pattern then glob1 names pattern else glob0 names pattern.

(** The path components this model of [glob] covers: not empty, not [.]
    or [..], without a slash (a slash would change the number of
    components) and without a bracket expression (whose meaning depends
    on the version of [fnmatch]). *)
Definition modelled (component : string) : bool :=
  negb (String.eqb component EmptyString) &&
  negb (String.eqb component ".") &&
  negb (String.eqb component "..") &&
  negb (Python.contains "/" component) &&
  negb (Python.contains "[" component).

Section Mirror.

(** [FILESYSTEM_DIR], a literal path of the directory whose content is
    [fs]. *)
Variable FILESYSTEM_DIR : string.
Variable fs : filesystem.

(** [glob.glob(os.path.join(FILESYSTEM_DIR, pattern))] for a [modelled]
    pattern: the entries of the mirror, plain files and directories
    alike. *)
Definition glob_one_level (pattern : string) : list string :=
  map (Python.path_join FILESYSTEM_DIR) (glob_in_dir (map entry_name fs) pattern).

(** [glob.glob(os.path.join(FILESYSTEM_DIR, dirpattern, pattern))] for
    [modelled] components: when the directory component has magic
    characters it is expanded first, over the directories of the mirror
    only; the last component is then matched in each directory found. *)
Definition glob_two_levels (dirpattern pattern : string) : list string :=
  let dirnames :=
    if has_magic dirpattern
    then glob1 (map entry_name (filter is_dir fs)) dirpattern
    else [dirpattern] in
  flat_map
    (fun dirname =>
       map (Python.path_join (Python.path_join FILESYSTEM_DIR dirname))
           (glob_in_dir (listdir fs dirname) pattern))
    dirnames.

End Mirror.

End Glob.

(* ================================================================= *)
(** * Code that raises without calling out *)

(** The result of a function that may raise. *)
Definition Exc (A : Type) : Type := (exn + A)%type.

Definition exc_bind {A B : Type} (m : Exc A) (f : A -> Exc B) : Exc B :=
  match m with
  | inl e => inl e
  | inr a => f a
  end.

Declare Scope exc_scope.
Delimit Scope exc_scope with exc.
Notation "x <- m ;; k" := (exc_bind m (fun x => k))
  (at level 61, m at next level, right associativity) : exc_scope.

(* ================================================================= *)
(** * jwql/website/apps/jwql/data_containers.py *)

From Stdlib Require Import DecimalString.

Module DataContainers.

Import Glob.

(** ** Authentication and the MAST session *)

(** What the functions below read of a Django [HttpRequest]. *)
Record HttpRequest : Type := mkHttpRequest {
  method : string;
  POST : list (string * string)
}.

(** Calls to [astroquery.mast.Mast] and to
    [jwql.utils.credentials.get_mast_token]. *)
Inductive call : Type :=
| Mast_authenticated
| Mast_login (token : string)
| Mast_service_request_async (service : string) (columns : string)
| get_mast_token (request : HttpRequest).

Definition answer (c : call) : Type :=
  match c with
  | Mast_authenticated => bool
  | Mast_login _ => unit
  | Mast_service_request_async _ _ => list (list (string * string))
  | get_mast_token _ => option string
  end.

Definition Web : Type -> Type := Py call answer.

(** [str(x)] where [x] is a string or [None]. *)
Definition str (x : option string) : string :=
  match x with
  | Some s => s
  | None => "None"
  end.

Definition log_into_mast (request : HttpRequest) : Web bool :=
  (authenticated <- perform Mast_authenticated ;;
   if authenticated : bool then Ret true
   else
     token <- perform (get_mast_token request) ;;
     let access_token := str token in
     if negb (String.eqb access_token "None") then
       _ <- perform (Mast_login access_token) ;;
       perform Mast_authenticated
     else Ret false)%py.

(** [get_expstart]: the body is the single statement [return 5000.00]. *)
Definition get_expstart (rootname : string) : Web float := Ret 5000%float.

(** ** Lookups in the file-system mirror *)

Section Mirror.

(** [get_config()['jwql_dir']] and the content of the directory
    [FILESYSTEM_DIR] below it. *)
Variable jwql_dir : string.
Variable fs : filesystem.

Definition FILESYSTEM_DIR : string := Python.path_join jwql_dir "filesystem".

Definition get_all_proposals : list string :=
  let proposals := glob_one_level FILESYSTEM_DIR fs "*" in
  let proposals := map (fun proposal => Python.last_item (Python.split proposal "jw")) proposals in
  let proposals := filter (fun proposal => Nat.eqb (String.length proposal) 5) proposals in
  proposals.

Definition instrument_match : list (string * string) :=
  [("FGS", "guider"); ("MIRI", "mir"); ("NIRCam", "nrc");
   ("NIRISS", "nis"); ("NIRSpec", "nrs")].

Fixpoint dict_get (d : list (string * string)) (key : string) : Exc string :=
  match d with
  | [] => inl (KeyError key)
  | (k, v) :: d' => if String.eqb k key then inr v else dict_get d' key
  end.

(** The condition of the list comprehension looks [instrument] up once
    per path, so an unknown instrument raises only when there is a path
    to test. *)
Definition get_filenames_by_instrument (instrument : string) : Exc (list string) :=
  let candidates := glob_two_levels FILESYSTEM_DIR fs "*" "*.fits" in
  match candidates with
  | [] => inr []
  | _ :: _ =>
      (key <- dict_get instrument_match instrument ;;
       inr (filter (fun f => Python.contains key f) candidates))%exc
  end.

(** [rootname.split('_')[0].split('jw')[-1][0:5]]. *)
Definition proposal_of_rootname (rootname : string) : string :=
  Python.slice
    (Python.last_item (Python.split (Python.first_item (Python.split rootname "_")) "jw"))
    0 5.

(** [None] when a component of the pattern is outside the model of
    [glob]. *)
Definition get_filenames_by_rootname (rootname : string) : option (list string) :=
  let proposal := proposal_of_rootname rootname in
  let dirpattern := ("jw" ++ proposal)%string in
  let pattern := (rootname ++ "*")%string in
  if modelled dirpattern && modelled pattern then
    let filenames := Python.sorted (glob_two_levels FILESYSTEM_DIR fs dirpattern pattern) in
    let filenames := map Python.basename filenames in
    Some filenames
  else None.

(** ** [thumbnails] *)

(** [jwql.utils.constants.MONITORS], passed on unread. *)
Variable Monitors : Type.
Variable MONITORS : Monitors.

(** [jwql.utils.utils.filename_parser]: the dictionary of the parts of a
    file name; it raises [ValueError] for a name that does not follow
    the naming convention. *)
Variable filename_parser : string -> Exc (list (string * string)).

(** The builtin [int] on a string; it raises [ValueError] for text that
    is not an integer literal. *)
Variable int : string -> Exc Z.

(** The binding of the global name [split_files].  The module neither
    defines nor imports it, which is the case [None]; [Some f] is a
    module namespace in which the name is bound to [f]. *)
Variable split_files : option (list string -> string -> Exc (list string)).

(** The order in which a [set] built from a list is iterated: some
    enumeration without repetition of the elements of the list. *)
Variable set_iter : list string -> list string.

(** ['{:05d}'.format(n)]: zero padding to width five, the sign
    included. *)
Fixpoint zeros (n : nat) : string :=
  match n with
  | O => EmptyString
  | S k => String "0" (zeros k)
  end.

Definition digits (n : N) : string := DecimalString.NilZero.string_of_uint (N.to_uint n).

Definition format_05d (n : Z) : string :=
  let d := digits (Z.abs_N n) in
  if (n <? 0)%Z then ("-" ++ zeros (4 - String.length d) ++ d)%string
  else (zeros (5 - String.length d) ++ d)%string.

(** ['_'.join(f.split('/')[-1].split('_')[:-1])]: the file name without
    its last underscore-separated part. *)
Definition file_id_of (f : string) : string :=
  Python.join "_" (Python.but_last (Python.split (Python.last_item (Python.split f "/")) "_")).

(** The body of the [try]: both assignments, in order. *)
Definition parse_ids (file : string) : Exc (string * string) :=
  (parsed <- filename_parser file ;;
   program_id <- dict_get parsed "program_id" ;;
   parsed' <- filename_parser file ;;
   detector <- dict_get parsed' "detector" ;;
   inr (program_id, detector))%exc.

(** The locals [program_id] and [detector]; [None] is an unbound
    name. *)
Definition ids : Type := (option string * option string)%type.

(** The inner [for file in filepaths] loop.  The handler of
    [ValueError] starts by evaluating [nfile_id[2:7]]; no such name is
    bound, locally or globally. *)
Fixpoint inner_loop (file_id : string) (filepaths : list string) (vars : ids) : Exc ids :=
  match filepaths with
  | [] => inr vars
  | file :: rest =>
      if String.eqb (file_id_of file) file_id then
        match parse_ids file with
        | inr (program_id, detector) =>
            inner_loop file_id rest (Some program_id, Some detector)
        | inl (ValueError _) => inl (NameError "nfile_id")
        | inl e => inl e
        end
      else inner_loop file_id rest vars
  end.

Record locals : Type := mkLocals {
  program_id : option string;
  detector : option string;
  detectors : list string;
  proposals : list string
}.

Definition mem (x : string) (l : list string) : bool := existsb (String.eqb x) l.

(** Reading a local name. *)
Definition read_local (name : string) (value : option string) : Exc string :=
  match value with
  | Some v => inr v
  | None => inl (UnboundLocalError name)
  end.

(** The outer [for i, file_id in enumerate(full_ids)] loop. *)
Fixpoint outer_loop (full_ids filepaths : list string) (st : locals) : Exc locals :=
  match full_ids with
  | [] => inr st
  | file_id :: rest =>
      (vars <- inner_loop file_id filepaths (program_id st, detector st) ;;
       d <- read_local "detector" (snd vars) ;;
       let detectors' :=
         if negb (mem d (detectors st)) && negb (Python.startswith d "f")
         then detectors st ++ [d] else detectors st in
       p <- read_local "program_id" (fst vars) ;;
       let proposals' :=
         if negb (mem p (proposals st)) then proposals st ++ [p] else proposals st in
       outer_loop rest filepaths (mkLocals (fst vars) (snd vars) detectors' proposals'))%exc
  end.

Record dict_to_render : Type := mkDictToRender {
  inst : string;
  tools : Monitors;
  dropdown_menus : list (string * list string);
  prop : option string
}.

Definition thumbnails (inst : string) (proposal : option string) : Exc dict_to_render :=
  (filepaths <- get_filenames_by_instrument inst ;;
   let page_type :=
     match proposal with
     | Some _ => "archive"
     | None => "unlooked"
     end in
   split_files' <- match split_files with
                   | Some f => inr f
                   | None => inl (NameError "split_files")
                   end ;;
   filepaths <- split_files' filepaths page_type ;;
   let full_ids := set_iter (map file_id_of filepaths) in
   full_ids <- match proposal with
               | Some p =>
                   n <- int p ;;
                   let proposal_string := format_05d n in
                   inr (filter (fun f => String.eqb (Python.slice f 2 7) proposal_string)
                               full_ids)
               | None => inr full_ids
               end ;;
   st <- outer_loop full_ids filepaths (mkLocals None None [] []) ;;
   let dropdown_menus :=
     match proposal with
     | Some _ => [("detector", detectors st)]
     | None => [("detector", detectors st); ("proposal", proposals st)]
     end in
   inr (mkDictToRender inst MONITORS dropdown_menus proposal))%exc.

End Mirror.

End DataContainers.

(* ================================================================= *)
(** * A MAST session for examples *)

Module MastSession.

Import DataContainers.

(** The session accepts the token ["valid-token"] and no other; its
    state is whether the client is logged in.  The token of a request is
    the value posted under ["mast_token"]. *)
Fixpoint posted (key : string) (form : list (string * string)) : option string :=
  match form with
  | [] => None
  | (k, v) :: form' => if String.eqb k key then Some v else posted key form'
  end.

Definition session : handler call answer bool :=
  fun c logged_in =>
    match c return answer c * bool with
    | Mast_authenticated => (logged_in, logged_in)
    | Mast_login token => (tt, String.eqb token "valid-token")
    | Mast_service_request_async _ _ => ([], logged_in)
    | get_mast_token request => (posted "mast_token" (POST request), logged_in)
    end.

Definition request_without_token : HttpRequest := mkHttpRequest "POST" [].

Definition request_with_token (token : string) : HttpRequest :=
  mkHttpRequest "POST" [("mast_token", token)].

End MastSession.

(* ================================================================= *)
(** * [get_edb_components]: the mnemonic-exploration branch *)

Module EdbComponents.

(** An [astropy.table.Table] of text: the column names and the rows,
    each row holding one cell per column. *)
Record Table : Type := mkTable {
  colnames : list string;
  rows : list (list string)
}.

(** A bound field of [MnemonicExplorationForm]: its label, which names a
    column of the inventory, and the value submitted for it. *)
Record field : Type := mkField {
  label : string;
  value : string
}.

(** What [mnemonic_exploration_result] holds at the end of the branch:
    the filtered table, or a string. *)
Inductive exploration_result : Type :=
| ResultTable (table : Table) (n_rows : nat)
| ResultString (s : string).

Fixpoint index_of (name : string) (names : list string) : option nat :=
  match names with
  | [] => None
  | n :: names' =>
      if String.eqb n name then Some 0
      else match index_of name names' with
           | Some i => Some (S i)
           | None => None
           end
  end.

(** The cell of a row in the column at position [i]. *)
Definition cell (i : nat) (row : list string) : string := nth i row EmptyString.

(** [table[column_name]]: the cells of a column, top to bottom. *)
Definition column (t : Table) (column_name : string) : Exc (list string) :=
  match index_of column_name (colnames t) with
  | Some i => inr (map (cell i) (rows t))
  | None => inl (KeyError column_name)
  end.

(** [table[index]] for a list of row numbers. *)
Fixpoint select_rows (all : list (list string)) (index : list nat) : Exc (list (list string)) :=
  match index with
  | [] => inr []
  | i :: index' =>
      match nth_error all i with
      | Some row => (selected <- select_rows all index' ;; inr (row :: selected))%exc
      | None => inl (IndexError i)
      end
  end.

Definition take_rows (t : Table) (index : list nat) : Exc Table :=
  (selected <- select_rows (rows t) index ;; inr (mkTable (colnames t) selected))%exc.

Section Exploration.

(** [re.search(pattern, item, re.IGNORECASE)], as the truth value of its
    result; [re.error] is raised for a pattern that does not compile. *)
Variable re_search_ignorecase : string -> string -> Exc bool.

(** The list comprehension
    [[i for i, item in enumerate(column) if re.search(field_value, item, re.IGNORECASE)]];
    [i] is the number of the first item of [items]. *)
Fixpoint matching_indices (field_value : string) (items : list string) (i : nat)
  : Exc (list nat) :=
  match items with
  | [] => inr []
  | item :: items' =>
      (found <- re_search_ignorecase field_value item ;;
       index <- matching_indices field_value items' (S i) ;;
       inr (if found : bool then i :: index else index))%exc
  end.

(** The loop over the fields of the form. *)
Fixpoint filter_fields (fields : list field) (mnemonic_exploration_result : Table)
  : Exc Table :=
  match fields with
  | [] => inr mnemonic_exploration_result
  | f :: fields' =>
      let field_value := value f in
      if negb (String.eqb field_value EmptyString) then
        let column_name := label f in
        (items <- column mnemonic_exploration_result column_name ;;
         index <- matching_indices field_value items 0 ;;
         filtered <- take_rows mnemonic_exploration_result index ;;
         filter_fields fields' filtered)%exc
      else filter_fields fields' mnemonic_exploration_result
  end.

(** The branch taken for a valid exploration form, from the inventory
    that [mnemonic_inventory()] returned to the value stored under
    ['mnemonic_exploration_result'].  Writing the table to the HTML and
    CSV files does not change it and is left out. *)
Definition mnemonic_exploration (fields : list field) (inventory : Table)
  : Exc exploration_result :=
  (mnemonic_exploration_result <- filter_fields fields inventory ;;
   let n_rows := List.length (rows mnemonic_exploration_result) in
   if Nat.eqb n_rows 0 then inr (ResultString "empty")
   else inr (ResultTable mnemonic_exploration_result n_rows))%exc.

(** *** Reference notions *)

(** A field accepts a row: nothing was submitted for it, or the
    submitted value is found in the cell of the row under the column the
    field names. *)
Definition accepts (t : Table) (row : list string) (f : field) : Prop :=
  value f = EmptyString \/
  exists i, index_of (label f) (colnames t) = Some i /\
            re_search_ignorecase (value f) (cell i row) = inr true.

Definition found_in (field_value : string) (i : nat) (row : list string) : bool :=
  match re_search_ignorecase field_value (cell i row) with
  | inr b => b
  | inl _ => false
  end.

Definition acceptsb (t : Table) (row : list string) (f : field) : bool :=
  String.eqb (value f) EmptyString ||
  match index_of (label f) (colnames t) with
  | Some i => found_in (value f) i row
  | None => false
  end.

(** AND over the fields. *)
Definition keep (t : Table) (fields : list field) (row : list string) : bool :=
  forallb (acceptsb t row) fields.

(** The fields for which the branch cannot raise: the label is a column
    and the submitted pattern compiles. *)
Definition answerable (t : Table) (f : field) : Prop :=
  value f = EmptyString \/
  (In (label f) (colnames t) /\
   forall item, exists b, re_search_ignorecase (value f) item = inr b).

End Exploration.

(** A stand-in for [re.search] in examples: plain, case-sensitive
    containment, with the pattern ["("] refused as one that does not
    compile. *)
Definition substring_search (pattern item : string) : Exc bool :=
  if String.eqb pattern "(" then inl (ReError pattern)
  else inr (Python.contains pattern item).

End EdbComponents.

(* ================================================================= *)
(** * A small mirror for examples *)

Module Examples.

Import Glob DataContainers.

Definition jwql_dir : string := "/data/jwql".

(** Two proposals with compliant files, a stray plain file, and a
    directory that holds a file outside the naming convention. *)
Definition mirror : filesystem :=
  [Dir "jw86600"
       ["jw86600008001_02101_00007_guider2_uncal.fits";
        "jw86600008001_02101_00007_guider2_rate.fits";
        "jw86600008001_02101_00007_guider1_uncal.fits";
        ".hidden"];
   Dir "jw00327"
       ["jw00327001001_02101_00002_nrca1_rate.fits";
        "jw00327001001_02101_00002_nrca1_cal.fits"];
   File "README";
   Dir "jwtests" ["nrc_engineering_uncal.fits"]].

(** A mirror that holds one NIRCam file, outside the naming
    convention. *)
Definition stray_mirror : filesystem :=
  [Dir "jw99999" ["nrc_engineering_uncal.fits"]].

Definition stray_file : string :=
  "/data/jwql/filesystem/jw99999/nrc_engineering_uncal.fits".

(** A parser in the manner of [filename_parser]: it accepts the names
    that start with [jw] and rejects the others. *)
Definition convention_parser (file : string) : Exc (list (string * string)) :=
  let name := Python.basename file in
  if prefix "jw" name
  then inr [("program_id", Python.slice name 2 7);
            ("detector", Python.slice name 26 33)]
  else inl (ValueError "Provided file does not follow JWST naming conventions").

(** A [split_files] that keeps every file. *)
Definition keep_all (filepaths : list string) (page_type : string) : Exc (list string) :=
  inr filepaths.

(** An [int] for the examples; it is not called on the pages without a
    proposal. *)
Definition no_int (s : string) : Exc Z := inl (ValueError s).

(** A set iterated in list order, duplicates dropped. *)
Definition in_list_order (l : list string) : list string := nodup string_dec l.

End Examples.

(* ================================================================= *)
(** * Reference notions for the loops of [thumbnails] *)

(** What the outer loop of [thumbnails] keeps true of the two lists it
    fills: no entry twice, and no detector that starts with [f]. *)
Definition tidy_menus (st : DataContainers.locals) : Prop :=
  NoDup (DataContainers.detectors st) /\
  Forall (fun d => Python.startswith d "f" = false) (DataContainers.detectors st) /\
  NoDup (DataContainers.proposals st).

(* ================================================================= *)
(** * data_containers.py: lookups by proposal and by rootname *)

Module Lookups.

Import Glob DataContainers.

Section Trees.

(** [get_config()['jwql_dir']], and the content of the three
    directories below it that the lookups read. *)
Variable jwql_dir : string.
Variable fs : filesystem.
Variable previews : filesystem.
Variable thumbs : filesystem.

(** The builtin [int] on a string. *)
Variable int : string -> Exc Z.

Definition PREVIEW_IMAGE_FILESYSTEM : string := Python.path_join jwql_dir "preview_images".
Definition THUMBNAIL_FILESYSTEM : string := Python.path_join jwql_dir "thumbnails".

(** The directory component ["jw" ++ proposal_string] holds digits and
    at most a sign, so it is always a literal component for [glob]. *)
Definition get_filenames_by_proposal (proposal : string) : Exc (list string) :=
  (n <- int proposal ;;
   let proposal_string := format_05d n in
   let filenames :=
     Python.sorted (glob_two_levels (FILESYSTEM_DIR jwql_dir) fs
                                    ("jw" ++ proposal_string)%string "*") in
   let filenames := map Python.basename filenames in
   inr filenames)%exc.

Definition get_preview_images_by_proposal (proposal : string) : Exc (list string) :=
  (n <- int proposal ;;
   let proposal_string := format_05d n in
   let preview_images :=
     glob_two_levels PREVIEW_IMAGE_FILESYSTEM previews
                     ("jw" ++ proposal_string)%string "*" in
   let preview_images := map Python.basename preview_images in
   inr preview_images)%exc.

Definition get_thumbnails_by_proposal (proposal : string) : Exc (list string) :=
  (n <- int proposal ;;
   let proposal_string := format_05d n in
   let thumbnails :=
     glob_two_levels THUMBNAIL_FILESYSTEM thumbs
                     ("jw" ++ proposal_string)%string "*" in
   let thumbnails := map Python.basename thumbnails in
   inr thumbnails)%exc.

(** As for [get_filenames_by_rootname], [None] when a component of the
    pattern is outside the model of [glob]. *)
Definition get_preview_images_by_rootname (rootname : string) : option (list string) :=
  let proposal := proposal_of_rootname rootname in
  let dirpattern := ("jw" ++ proposal)%string in
  let pattern := (rootname ++ "*")%string in
  if modelled dirpattern && modelled pattern then
    let preview_images :=
      Python.sorted (glob_two_levels PREVIEW_IMAGE_FILESYSTEM previews dirpattern pattern) in
    let preview_images := map Python.basename preview_images in
    Some preview_images
  else None.

Definition get_thumbnails_by_rootname (rootname : string) : option (list string) :=
  let proposal := proposal_of_rootname rootname in
  let dirpattern := ("jw" ++ proposal)%string in
  let pattern := (rootname ++ "*")%string in
  if modelled dirpattern && modelled pattern then
    let thumbnails :=
      Python.sorted (glob_two_levels THUMBNAIL_FILESYSTEM thumbs dirpattern pattern) in
    let thumbnails := map Python.basename thumbnails in
    Some thumbnails
  else None.

End Trees.

End Lookups.

(** The names of a directory that [glob] offers to a pattern that does
    not start with a dot. *)
Definition visible (names : list string) : list string :=
  filter (fun name => negb (Glob.ishidden name)) names.

(* ================================================================= *)
(** * data_containers.py: [get_acknowledgements] *)

Module Acknowledgements.

(** The characters [str.strip()] removes, among the first 128: tab to
    carriage return, the four separators 28 to 31, and the space. *)
Definition is_space (c : ascii) : bool :=
  let n := nat_of_ascii c in
  (Nat.leb 9 n && Nat.leb n 13) || (Nat.leb 28 n && Nat.leb n 32).

Fixpoint lstrip (s : string) : string :=
  match s with
  | EmptyString => EmptyString
  | String c s' => if is_space c then lstrip s' else s
  end.

Fixpoint rstrip (s : string) : string :=
  match s with
  | EmptyString => EmptyString
  | String c s' =>
      let r := rstrip s' in
      if is_space c && String.eqb r EmptyString then EmptyString else String c r
  end.

(** [s.strip()]. *)
Definition strip (s : string) : string := rstrip (lstrip s).

(** [s.replace(old, new)] for a non-empty [old]: the occurrences of
    [old] found by scanning from the left are the ones [split] cuts
    at. *)
Definition replace (s old new : string) : string :=
  Python.join new (Python.split s old).

(** The loop [for i, line in enumerate(data)] that assigns [index]
    whenever a line contains the heading; [None] is the name [index]
    still unbound. *)
Fixpoint find_heading (data : list string) (i : nat) (index : option nat) : option nat :=
  match data with
  | [] => index
  | line :: data' =>
      find_heading data' (S i)
                   (if Python.contains "Acknowledgments" line then Some i else index)
  end.

(** [item.strip().replace('- ', '').split(' [@')[0].strip()]. *)
Definition clean (item : string) : string :=
  strip (Python.first_item (Python.split (replace (strip item) "- " "") " [@")).

(** [data] is what [f.readlines()] returned for the README file. *)
Definition get_acknowledgements (data : list string) : Exc (list string) :=
  match find_heading data 0 None with
  | None => inl (UnboundLocalError "index")
  | Some index =>
      let acknowledgements := skipn (index + 1) data in
      inr (map clean acknowledgements)
  end.

End Acknowledgements.

(* ================================================================= *)
(** * data_containers.py: [get_header_info] and [get_image_info] *)

Module Images.

Import DataContainers.

(** The calls of the two functions that read or change the file system:
    [glob.glob], [os.path.exists], [os.makedirs], the construction and
    [make_image] of a [PreviewImage] with its output directory, and
    [fits.getheader(...).tostring(...)]. *)
Inductive call : Type :=
| glob_glob (pathname : string)
| os_path_exists (path : string)
| os_makedirs (path : string)
| PreviewImage_make_image (file extension output_directory : string)
| fits_getheader_tostring (filepath : string) (ext : nat) (sep : string).

Definition answer (c : call) : Type :=
  match c with
  | glob_glob _ => list string
  | os_path_exists _ => bool
  | os_makedirs _ => unit
  | PreviewImage_make_image _ _ _ => unit
  | fits_getheader_tostring _ _ _ => string
  end.

Definition Io : Type -> Type := Py call answer.

(** [p.rfind(c)] for a character: the position of its last occurrence. *)
Fixpoint rfind_char (c : ascii) (p : string) : option nat :=
  match p with
  | EmptyString => None
  | String d p' =>
      match rfind_char c p' with
      | Some i => Some (S i)
      | None => if Ascii.eqb c d then Some 0 else None
      end
  end.

Fixpoint all_dots (s : string) : bool :=
  match s with
  | EmptyString => true
  | String c s' => Ascii.eqb c "." && all_dots s'
  end.

(** [os.path.splitext(p)]: the extension starts at the last dot, if that
    dot lies in the last component and is not among its leading dots. *)
Definition splitext (p : string) : string * string :=
  let filenameIndex :=
    match rfind_char "/" p with
    | Some sepIndex => S sepIndex
    | None => 0
    end in
  match rfind_char "." p with
  | Some dotIndex =>
      if Nat.leb filenameIndex dotIndex
         && negb (all_dots (Python.slice p filenameIndex dotIndex))
      then (Python.take dotIndex p, Python.drop dotIndex p)
      else (p, EmptyString)
  | None => (p, EmptyString)
  end.

(** [l[i]] on a list. *)
Definition list_index (l : list string) (i : nat) : Exc string :=
  match nth_error l i with
  | Some x => inr x
  | None => inl (IndexError i)
  end.

(** [os.path.basename(file).split('_')[4].split('.')[0]]. *)
Definition suffix_of (file : string) : Exc string :=
  (piece <- list_index (Python.split (Python.basename file) "_") 4 ;;
   inr (Python.first_item (Python.split piece ".")))%exc.

(** The line feed that separates the cards of the header text. *)
Definition newline : string := String (ascii_of_nat 10) EmptyString.

(** What the loop of [get_image_info] has collected. *)
Record collected : Type := mkCollected {
  all_jpegs : list string;
  suffixes : list string;
  num_ints : EngineeringDatabase.OrderedDict nat
}.

Record image_info : Type := mkImageInfo {
  info_all_jpegs : list string;
  info_suffixes : list string;
  info_num_ints : EngineeringDatabase.OrderedDict nat;
  info_all_files : list string
}.

Section Config.

Variable jwql_dir : string.

Definition get_header_info (file : string) : Io string :=
  let dirname := Python.slice file 0 7 in
  let fits_filepath :=
    Python.path_join (Python.path_join (FILESYSTEM_DIR jwql_dir) dirname) file in
  perform (fits_getheader_tostring fits_filepath 0 newline).

(** The path of the first preview image of a file. *)
Definition jpg_filepath_of (preview_dir dirname file : string) : string :=
  let jpg_dir := Python.path_join preview_dir dirname in
  let jpg_filename := Python.basename (fst (splitext file) ++ "_integ0.jpg")%string in
  Python.path_join jpg_dir jpg_filename.

(** One pass of the body of [for file in image_info['all_files']]. *)
Definition image_step (file_root : string) (rewrite : bool) (preview_dir dirname : string)
           (file : string) (acc : collected) : Io collected :=
  match suffix_of file with
  | inl e => Raise e
  | inr suffix =>
      let suffixes' := suffixes acc ++ [suffix] in
      let jpg_dir := Python.path_join preview_dir dirname in
      let jpg_filepath := jpg_filepath_of preview_dir dirname file in
      (jpg_exists <- perform (os_path_exists jpg_filepath) ;;
       _ <- (if (jpg_exists : bool) && negb rewrite then Ret tt
             else
               dir_exists <- perform (os_path_exists jpg_dir) ;;
               _ <- (if negb (dir_exists : bool) then perform (os_makedirs jpg_dir)
                     else Ret tt) ;;
               perform (PreviewImage_make_image file "SCI" jpg_dir)) ;;
       let search_jpgs :=
         Python.path_join (Python.path_join preview_dir dirname)
                          (file_root ++ "_" ++ suffix ++ "_integ*.jpg")%string in
       jpgs <- perform (glob_glob search_jpgs) ;;
       let num_jpgs := List.length (jpgs : list string) in
       Ret (mkCollected (all_jpegs acc ++ [jpg_filepath]) suffixes'
                        (EngineeringDatabase.setitem (num_ints acc) suffix num_jpgs)))%py
  end.

Fixpoint image_loop (file_root : string) (rewrite : bool) (preview_dir dirname : string)
         (files : list string) (acc : collected) : Io collected :=
  match files with
  | [] => Ret acc
  | file :: rest =>
      (acc' <- image_step file_root rewrite preview_dir dirname file acc ;;
       image_loop file_root rewrite preview_dir dirname rest acc')%py
  end.

Definition get_image_info (file_root : string) (rewrite : bool) : Io image_info :=
  let preview_dir := Python.path_join jwql_dir "preview_images" in
  let dirname := Python.slice file_root 0 7 in
  let search_filepath :=
    Python.path_join (Python.path_join (FILESYSTEM_DIR jwql_dir) dirname)
                     (file_root ++ "*.fits")%string in
  (all_files <- perform (glob_glob search_filepath) ;;
   acc <- image_loop file_root rewrite preview_dir dirname all_files
                     (mkCollected [] [] []) ;;
   Ret (mkImageInfo (all_jpegs acc) (suffixes acc) (num_ints acc) all_files))%py.

End Config.

(** The calls that write a preview image or create a directory. *)
Definition writes (c : call) : bool :=
  match c with
  | os_makedirs _ | PreviewImage_make_image _ _ _ => true
  | _ => false
  end.

Definition makes_image (c : call) : bool :=
  match c with
  | PreviewImage_make_image _ _ _ => true
  | _ => false
  end.

(** A file system for examples: it holds the two files of one exposure
    and reports every path as existing. *)
Definition full_disk : handler call answer unit :=
  fun c w =>
    match c return answer c * unit with
    | glob_glob pathname =>
        (if String.eqb pathname "/data/jwql/filesystem/jw86600/jw86600008001_02101_00007_guider2*.fits"
         then ["/data/jwql/filesystem/jw86600/jw86600008001_02101_00007_guider2_uncal.fits";
               "/data/jwql/filesystem/jw86600/jw86600008001_02101_00007_guider2_rate.fits"]
         else ["one.jpg"], w)
    | os_path_exists _ => (true, w)
    | os_makedirs _ => (tt, w)
    | PreviewImage_make_image _ _ _ => (tt, w)
    | fits_getheader_tostring filepath _ _ => (filepath, w)
    end.

(** A file system whose search finds one file of an exposure and,
    after it, a file whose name has too few pieces; no preview image
    exists yet. *)
Definition bare_disk : handler call answer unit :=
  fun c w =>
    match c return answer c * unit with
    | glob_glob pathname =>
        (if String.eqb pathname "/data/jwql/filesystem/jw86600/jw86600*.fits"
         then ["/data/jwql/filesystem/jw86600/jw86600008001_02101_00007_guider2_uncal.fits";
               "/data/jwql/filesystem/jw86600/jw86600.fits"]
         else [], w)
    | os_path_exists _ => (false, w)
    | os_makedirs _ => (tt, w)
    | PreviewImage_make_image _ _ _ => (tt, w)
    | fits_getheader_tostring filepath _ _ => (filepath, w)
    end.

End Images.

(* ================================================================= *)
(** * data_containers.py: [get_proposal_info] *)

Module ProposalInfo.

Import Glob DataContainers.

(** What the loop appends to [thumbnail_paths]: the empty list that
    [glob] returned, or the text made from the first path found. *)
Inductive thumbnail : Type :=
| EmptyList
| ThumbnailPath (path : string).

(** [l[-2:]]. *)
Definition last_two (l : list string) : list string := skipn (List.length l - 2) l.

Record proposal_info : Type := mkProposalInfo {
  num_proposals : nat;
  info_proposals : list string;
  thumbnail_paths : list thumbnail;
  num_files : list nat
}.

Section Trees.

(** [get_config()['jwql_dir']], the content of [FILESYSTEM_DIR] and of
    the thumbnail directory below it, and the iteration order of a
    [set]. *)
Variable jwql_dir : string.
Variable fs : filesystem.
Variable thumbs : filesystem.
Variable set_iter : list string -> list string.

(** [f.split('/')[-1][2:7]]. *)
Definition proposal_of_filepath (f : string) : string :=
  Python.slice (Python.last_item (Python.split f "/")) 2 7.

(** One pass of [for proposal in proposals]; [None] when a component
    of a pattern is outside the model of [glob]. *)
Definition proposal_step (thumbnail_dir proposal : string) : option (thumbnail * nat) :=
  let dirpattern := ("jw" ++ proposal)%string in
  let thumbnail_pattern := ("jw" ++ proposal ++ "*rate*.thumb")%string in
  let fits_pattern := ("jw" ++ proposal ++ "*.fits")%string in
  if modelled dirpattern && modelled thumbnail_pattern && modelled fits_pattern then
    let thumbnail := glob_two_levels thumbnail_dir thumbs dirpattern thumbnail_pattern in
    let thumbnail :=
      match thumbnail with
      | first :: _ => ThumbnailPath (Python.join "/" (last_two (Python.split first "/")))
      | [] => EmptyList
      end in
    let found := glob_two_levels (FILESYSTEM_DIR jwql_dir) fs dirpattern fits_pattern in
    Some (thumbnail, List.length found)
  else None.

Fixpoint proposal_loop (thumbnail_dir : string) (proposals : list string)
         (thumbnail_paths : list thumbnail) (num_files : list nat)
  : option (list thumbnail * list nat) :=
  match proposals with
  | [] => Some (thumbnail_paths, num_files)
  | proposal :: rest =>
      match proposal_step thumbnail_dir proposal with
      | Some (thumbnail, n) =>
          proposal_loop thumbnail_dir rest (thumbnail_paths ++ [thumbnail]) (num_files ++ [n])
      | None => None
      end
  end.

Definition get_proposal_info (filepaths : list string) : option proposal_info :=
  let proposals := set_iter (map proposal_of_filepath filepaths) in
  let thumbnail_dir := Python.path_join jwql_dir "thumbnails" in
  match proposal_loop thumbnail_dir proposals [] [] with
  | Some (thumbnail_paths, num_files) =>
      Some (mkProposalInfo (List.length proposals) proposals thumbnail_paths num_files)
  | None => None
  end.

End Trees.

(** A thumbnail directory for examples: two thumbnails of rate files
    for one proposal of [Examples.mirror], none for the other. *)
Definition example_thumbnails : filesystem :=
  [Dir "jw86600"
       ["jw86600008001_02101_00007_guider2_uncal_integ0.thumb";
        "jw86600008001_02101_00007_guider2_rate_integ0.thumb";
        "jw86600008001_02101_00007_guider1_rate_integ0.thumb"];
   Dir "jw00327" []].

Definition example_filepaths : list string :=
  ["/data/jwql/filesystem/jw86600/jw86600008001_02101_00007_guider2_uncal.fits";
   "/data/jwql/filesystem/jw86600/jw86600008001_02101_00007_guider2_rate.fits";
   "/data/jwql/filesystem/jw00327/jw00327001001_02101_00002_nrca1_rate.fits"].

End ProposalInfo.

(* ================================================================= *)
(** * data_containers.py: [thumbnails_ajax] *)

Module ThumbnailsAjax.

Import Glob DataContainers.

(** [data_dict['file_data'][rootname]]. *)
Record file_entry : Type := mkFileEntry {
  filename_dict : list (string * string);
  available_files : list string;
  expstart : float;
  suffixes : list string
}.

Record data_dict (Monitors : Type) : Type := mkDataDict {
  data_inst : string;
  file_data : EngineeringDatabase.OrderedDict file_entry;
  data_tools : Monitors;
  data_dropdown_menus : list (string * list string);
  data_prop : option string
}.

Arguments mkDataDict {Monitors} _ _ _ _ _.
Arguments data_inst {Monitors} _.
Arguments file_data {Monitors} _.
Arguments data_tools {Monitors} _.
Arguments data_dropdown_menus {Monitors} _.
Arguments data_prop {Monitors} _.

(** [s[i]] on a string. *)
Definition str_index (s : string) (i : nat) : Exc string :=
  match String.get i s with
  | Some c => inr (String c EmptyString)
  | None => inl (IndexError i)
  end.

(** A function that raises, as a program that calls nothing. *)
Definition lift {A : Type} (m : Exc A) : Web A :=
  match m with
  | inl e => Raise e
  | inr a => Ret a
  end.

Section Mirror.

Variable jwql_dir : string.
Variable fs : filesystem.
Variable Monitors : Type.
Variable MONITORS : Monitors.
Variable filename_parser : string -> Exc (list (string * string)).
Variable int : string -> Exc Z.
Variable set_iter : list string -> list string.

(** The dictionary literal of the [except ValueError] clause; its
    entries are evaluated in the order written, and [rootname[16]] is
    the one that indexes instead of slicing. *)
Definition workaround (rootname : string) : Exc (list (string * string)) :=
  let activity := Python.slice rootname 17 19 in
  let detector := Python.slice_from rootname 26 in
  let exposure_id := Python.slice rootname 20 25 in
  let observation := Python.slice rootname 7 10 in
  (parallel_seq_id <- str_index rootname 16 ;;
   let program_id := Python.slice rootname 2 7 in
   let visit := Python.slice rootname 10 13 in
   let visit_group := Python.slice rootname 14 16 in
   inr [("activity", activity); ("detector", detector); ("exposure_id", exposure_id);
        ("observation", observation); ("parallel_seq_id", parallel_seq_id);
        ("program_id", program_id); ("visit", visit); ("visit_group", visit_group)])%exc.

(** The [try] statement of the loop. *)
Definition parse_rootname (rootname : string) : Exc (list (string * string)) :=
  match filename_parser rootname with
  | inr filename_dict => inr filename_dict
  | inl (ValueError _) => workaround rootname
  | inl e => inl e
  end.

(** [[filename_parser(filename)['suffix'] for filename in
    available_files]]. *)
Fixpoint suffixes_of (available_files : list string) : Exc (list string) :=
  match available_files with
  | [] => inr []
  | filename :: rest =>
      (parsed <- filename_parser filename ;;
       suffix <- dict_get parsed "suffix" ;;
       others <- suffixes_of rest ;;
       inr (suffix :: others))%exc
  end.

(** The loop [for rootname in rootnames]; [None] when a pattern of
    [get_filenames_by_rootname] is outside the model of [glob]. *)
Fixpoint rootname_loop (rootnames : list string)
         (file_data : EngineeringDatabase.OrderedDict file_entry)
  : Web (option (EngineeringDatabase.OrderedDict file_entry)) :=
  match rootnames with
  | [] => Ret (Some file_data)
  | rootname :: rest =>
      (filename_dict <- lift (parse_rootname rootname) ;;
       match get_filenames_by_rootname jwql_dir fs rootname with
       | None => Ret None
       | Some available_files =>
           expstart <- get_expstart rootname ;;
           suffixes <- lift (suffixes_of available_files) ;;
           rootname_loop rest
             (EngineeringDatabase.setitem file_data rootname
                (mkFileEntry filename_dict available_files expstart suffixes))
       end)%py
  end.

(** [[data_dict['file_data'][rootname]['filename_dict'][key] for
    rootname in list(data_dict['file_data'].keys())]]. *)
Fixpoint menu (key : string) (file_data : EngineeringDatabase.OrderedDict file_entry)
  : Exc (list string) :=
  match file_data with
  | [] => inr []
  | (_, entry) :: rest =>
      (value <- dict_get (filename_dict entry) key ;;
       others <- menu key rest ;;
       inr (value :: others))%exc
  end.

Definition thumbnails_ajax (inst : string) (proposal : option string)
  : Web (option (data_dict Monitors)) :=
  (filepaths <- lift (get_filenames_by_instrument jwql_dir fs inst) ;;
   let rootnames := set_iter (map file_id_of filepaths) in
   rootnames <- match proposal with
                | Some p =>
                    n <- lift (int p) ;;
                    let proposal_string := format_05d n in
                    Ret (filter (fun rootname =>
                                   String.eqb (Python.slice rootname 2 7) proposal_string)
                                rootnames)
                | None => Ret rootnames
                end ;;
   file_data <- rootname_loop rootnames [] ;;
   match file_data with
   | None => Ret None
   | Some file_data =>
       detectors <- lift (menu "detector" file_data) ;;
       proposals <- lift (menu "program_id" file_data) ;;
       let dropdown_menus :=
         match proposal with
         | Some _ => [("detector", detectors)]
         | None => [("detector", detectors); ("proposal", proposals)]
         end in
       Ret (Some (mkDataDict inst file_data MONITORS dropdown_menus proposal))
   end)%py.

End Mirror.

(** A parser for the examples: the parts of a name that starts with
    [jw], the suffix being its last underscore-separated piece up to the
    first dot. *)
Definition example_parser (file : string) : Exc (list (string * string)) :=
  let name := Python.basename file in
  if prefix "jw" name
  then inr [("program_id", Python.slice name 2 7);
            ("detector", Python.slice name 26 33);
            ("suffix",
             Python.first_item (Python.split (Python.last_item (Python.split name "_")) "."))]
  else inl (ValueError "Provided file does not follow JWST naming conventions").

End ThumbnailsAjax.

(* ================================================================= *)
(** * data_containers.py: [get_preview_images_by_instrument] and
      [get_thumbnails_by_instrument] *)

Module ByInstrument.

Import Glob DataContainers Lookups.

(** [str.upper] and [str.lower] on ASCII text: the 26 letters change
    case, every other ASCII character stays. *)
Definition is_ascii (s : string) : bool :=
  forallb (fun c => Nat.ltb (nat_of_ascii c) 128) (list_ascii_of_string s).

Definition upper_char (c : ascii) : ascii :=
  let n := nat_of_ascii c in
  if Nat.leb 97 n && Nat.leb n 122 then ascii_of_nat (n - 32) else c.

Definition lower_char (c : ascii) : ascii :=
  let n := nat_of_ascii c in
  if Nat.leb 65 n && Nat.leb n 90 then ascii_of_nat (n + 32) else c.

Fixpoint upper (s : string) : string :=
  match s with
  | EmptyString => EmptyString
  | String c s' => String (upper_char c) (upper s')
  end.

Fixpoint lower (s : string) : string :=
  match s with
  | EmptyString => EmptyString
  | String c s' => String (lower_char c) (lower s')
  end.

(** [[result['filename'].split('.')[0] for result in results]]. *)
Fixpoint rootnames_of (results : list (list (string * string))) : Exc (list string) :=
  match results with
  | [] => inr []
  | result :: rest =>
      (filename <- dict_get result "filename" ;;
       others <- rootnames_of rest ;;
       inr (Python.first_item (Python.split filename ".") :: others))%exc
  end.

Section Trees.

Variable jwql_dir : string.
Variable previews : filesystem.
Variable thumbs : filesystem.

(** [None] for an instrument name with a character outside ASCII, which
    the model of [upper] and [lower] does not cover. *)
Definition get_preview_images_by_instrument (inst : string) : Web (option (list string)) :=
  match inst with
  | EmptyString => Raise (IndexError 0)
  | String first rest =>
      if is_ascii inst then
        let instrument := (upper (String first EmptyString) ++ lower rest)%string in
        let service := ("Mast.Jwst.Filtered." ++ instrument)%string in
        (results <- perform (Mast_service_request_async service "filename") ;;
         filenames <- ThumbnailsAjax.lift (rootnames_of results) ;;
         let preview_images :=
           glob_two_levels (PREVIEW_IMAGE_FILESYSTEM jwql_dir) previews "*" "*.jpg" in
         let preview_images :=
           map Python.basename
               (filter (fun item =>
                          mem (Python.first_item
                                 (Python.split (Python.basename item) "_integ"))
                              filenames)
                       preview_images) in
         Ret (Some preview_images))%py
      else Ret None
  end.

Definition get_thumbnails_by_instrument (inst : string) : Web (option (list string)) :=
  match inst with
  | EmptyString => Raise (IndexError 0)
  | String first rest =>
      if is_ascii inst then
        let instrument := (upper (String first EmptyString) ++ lower rest)%string in
        let service := ("Mast.Jwst.Filtered." ++ instrument)%string in
        (results <- perform (Mast_service_request_async service "filename") ;;
         filenames <- ThumbnailsAjax.lift (rootnames_of results) ;;
         let thumbnails :=
           glob_two_levels (THUMBNAIL_FILESYSTEM jwql_dir) thumbs "*" "*.thumb" in
         let thumbnails :=
           map Python.basename
               (filter (fun item =>
                          mem (Python.first_item
                                 (Python.split (Python.basename item) "_integ"))
                              filenames)
                       thumbnails) in
         Ret (Some thumbnails))%py
      else Ret None
  end.

End Trees.

(** A MAST service for examples: it knows one guider exposure, for the
    instrument it calls [Fgs]. *)
Definition archive : handler call answer unit :=
  fun c w =>
    match c return answer c * unit with
    | Mast_authenticated => (true, w)
    | Mast_login _ => (tt, w)
    | Mast_service_request_async service _ =>
        (if String.eqb service "Mast.Jwst.Filtered.Fgs"
         then [[("filename", "jw86600008001_02101_00007_guider2_uncal.fits")]]
         else [], w)
    | get_mast_token _ => (None, w)
    end.

Definition example_previews : filesystem :=
  [Dir "jw86600"
       ["jw86600008001_02101_00007_guider2_uncal_integ0.jpg";
        "jw86600008001_02101_00007_guider2_uncal_integ1.jpg";
        "jw86600008001_02101_00007_guider1_uncal_integ0.jpg";
        "jw86600008001_02101_00007_guider2_uncal_integ0.thumb"];
   File "notes.jpg"].

End ByInstrument.

(* ================================================================= *)
(** * Properties of the Python primitives *)

Example split_rootname :
  Python.split "jw86600008001_02101_00007_guider2" "_"
  = ["jw86600008001"; "02101"; "00007"; "guider2"].
Proof. reflexivity. Qed.

Example split_jw :
  Python.split "/data/jwql/filesystem/jw86600" "jw" = ["/data/"; "ql/filesystem/"; "86600"].
Proof. reflexivity. Qed.

Example split_overlap : Python.split "aaa" "aa" = [""; "a"].
Proof. reflexivity. Qed.

Example split_trailing : Python.split "a_b_" "_" = ["a"; "b"; ""].
Proof. reflexivity. Qed.

Example basename_ex : Python.basename "/fs/jw86600/jw86600_a.fits" = "jw86600_a.fits".
Proof. reflexivity. Qed.

Example path_join_ex :
  Python.path_join (Python.path_join "/data/jwql" "filesystem") "*" = "/data/jwql/filesystem/*".
Proof. reflexivity. Qed.

(* ================================================================= *)
(** * Properties of the effect monad *)

Section EffectsFacts.

Context {call : Type} {answer : call -> Type}.

(** Running two programs in sequence: the second starts in the world the
    first one leaves, and the traces are concatenated. *)
Lemma run_bind {W A B : Type} (h : handler call answer W)
      (m : Py call answer A) (f : A -> Py call answer B) (w : W) :
  run h (bind m f) w =
  match result (run h m w) with
  | inl e => mkOutcome (inl e) (world (run h m w)) (trace (run h m w))
  | inr a =>
      let o := run h (f a) (world (run h m w)) in
      mkOutcome (result o) (world o) (trace (run h m w) ++ trace o)
  end.
Proof.
  revert w; induction m as [a | e | c k IH]; intros w; simpl.
  - destruct (run h (f a) w); reflexivity.
  - reflexivity.
  - destruct (h c w) as [x w']; simpl.
    rewrite IH.
    destruct (result (run h (k x) w')); reflexivity.
Qed.

End EffectsFacts.

(* ================================================================= *)
(** * engineering_database.py: [get_mnemonic] and [get_mnemonics] *)

Module EngineeringDatabaseFacts.

Import EngineeringDatabase GetMnemonicsSpec.

Section WithService.

Variable MAST_TOKEN : string.
Context {W : Type}.
Variable h : handler call answer W.

(** One run of [get_mnemonic], spelled out. *)
Lemma run_get_mnemonic (id : string) (s e : Time) (w : W) :
  run h (get_mnemonic MAST_TOKEN id s e) w =
  let q := query_single_mnemonic id s e MAST_TOKEN in
  mkOutcome
    (inr (mkEdbMnemonic id s e
            (fst (fst (fst (h q w)))) (snd (fst (fst (h q w)))) (snd (fst (h q w)))))
    (snd (h q w)) [q].
Proof.
  unfold get_mnemonic, perform; simpl.
  destruct (h (query_single_mnemonic id s e MAST_TOKEN) w) as [[[d m] i] w'].
  reflexivity.
Qed.

Lemma get_mnemonic_returns (id : string) (s e : Time) (w : W) :
  exists m, result (run h (get_mnemonic MAST_TOKEN id s e) w) = inr m.
Proof. rewrite run_get_mnemonic; simpl; eauto. Qed.

(** The loop of [get_mnemonics]: it never raises, it issues the queries
    of its input in order, and it assigns the mnemonics of [get_each] to
    the dictionary it was started with. *)
Lemma run_get_mnemonics_loop (l : list string) (s e : Time) :
  forall (d : OrderedDict EdbMnemonic) (w : W),
    run h (get_mnemonics_loop MAST_TOKEN l s e d) w =
    mkOutcome (inr (assign_all d (get_each MAST_TOKEN h l s e w)))
              (world_after MAST_TOKEN h l s e w)
              (map (fun m => query_single_mnemonic m s e MAST_TOKEN) l).
Proof.
  induction l as [| id rest IH]; intros d w.
  - reflexivity.
  - cbn [get_mnemonics_loop get_each world_after map].
    rewrite run_bind, run_get_mnemonic.
    cbn [result world trace]. cbn zeta.
    rewrite IH. reflexivity.
Qed.

Lemma length_get_each (l : list string) (s e : Time) :
  forall w, map fst (get_each MAST_TOKEN h l s e w) = l.
Proof.
  induction l as [| id rest IH]; intros w.
  - reflexivity.
  - cbn [get_each]. rewrite run_get_mnemonic. cbn [result world]. cbn zeta.
    simpl. rewrite IH. reflexivity.
Qed.

End WithService.

(** *** Ordered dictionaries *)

Section Dict.

Context {V : Type}.

Lemma keys_setitem (d : OrderedDict V) (k : string) (v : V) :
  keys (setitem d k v) = add_key (keys d) k.
Proof.
  unfold add_key, keys.
  induction d as [| [k' v'] d IH]; simpl.
  - reflexivity.
  - rewrite (String.eqb_sym k k').
    destruct (String.eqb k' k) eqn:E; simpl.
    + reflexivity.
    + rewrite IH.
      destruct (existsb (String.eqb k) (map fst d)); reflexivity.
Qed.

Lemma keys_assign_all (pairs : list (string * V)) :
  forall d : OrderedDict V,
    keys (assign_all d pairs) = fold_left add_key (map fst pairs) (keys d).
Proof.
  induction pairs as [| [k v] pairs IH]; intros d; simpl.
  - reflexivity.
  - unfold assign_all in *. simpl. rewrite IH, keys_setitem. reflexivity.
Qed.

Lemma getitem_setitem (d : OrderedDict V) (k k' : string) (v : V) :
  getitem (setitem d k v) k' = if String.eqb k k' then Some v else getitem d k'.
Proof.
  induction d as [| [k0 v0] d IH]; simpl.
  - reflexivity.
  - destruct (String.eqb k0 k) eqn:E0; simpl.
    + apply String.eqb_eq in E0; subst k0.
      destruct (String.eqb k k'); reflexivity.
    + destruct (String.eqb k0 k') eqn:E1.
      * apply String.eqb_eq in E1; subst k0. rewrite String.eqb_sym, E0. reflexivity.
      * apply IH.
Qed.

(** Looking a key up after a series of assignments finds the last value
    assigned to it. *)
Lemma getitem_assign_all (pairs : list (string * V)) :
  forall (d : OrderedDict V) (k : string),
    getitem (assign_all d pairs) k =
    match getitem (rev pairs) k with
    | Some v => Some v
    | None => getitem d k
    end.
Proof.
  assert (Happ : forall (a b : list (string * V)) k,
             getitem (a ++ b) k =
             match getitem a k with Some v => Some v | None => getitem b k end).
  { induction a as [| [k0 v0] a IHa]; intros b k; simpl.
    - reflexivity.
    - destruct (String.eqb k0 k); [reflexivity | apply IHa]. }
  induction pairs as [| [k0 v0] pairs IH]; intros d k.
  - reflexivity.
  - unfold assign_all in *. simpl fold_left. rewrite IH.
    simpl rev. rewrite Happ.
    destruct (getitem (rev pairs) k) as [v |]; [reflexivity |].
    rewrite getitem_setitem. simpl.
    destruct (String.eqb k0 k); reflexivity.
Qed.

End Dict.

(** *** First occurrences *)

Lemma existsb_eqb_In (k : string) (l : list string) :
  existsb (String.eqb k) l = true <-> In k l.
Proof.
  rewrite existsb_exists. split.
  - intros [x [Hin Heq]]. apply String.eqb_eq in Heq. subst. exact Hin.
  - intros Hin. exists k. split; [exact Hin | apply String.eqb_refl].
Qed.

Lemma add_key_fresh (seen : list string) (k : string) :
  ~ In k seen -> add_key seen k = seen ++ [k].
Proof.
  intros Hn. unfold add_key.
  destruct (existsb (String.eqb k) seen) eqn:E; [| reflexivity].
  apply existsb_eqb_In in E. contradiction.
Qed.

Lemma fold_add_key_NoDup (l : list string) :
  forall seen, NoDup (seen ++ l) -> fold_left add_key l seen = seen ++ l.
Proof.
  induction l as [| k l IH]; intros seen Hnd; simpl.
  - symmetry. apply app_nil_r.
  - assert (Hk : ~ In k seen).
    { intros Hin. apply NoDup_remove_2 in Hnd. apply Hnd.
      apply in_or_app. left. exact Hin. }
    rewrite (add_key_fresh _ _ Hk).
    rewrite IH; rewrite <- app_assoc; simpl; [reflexivity | exact Hnd].
Qed.

Lemma fold_add_key_spec (l : list string) :
  forall seen,
    NoDup seen ->
    NoDup (fold_left add_key l seen) /\
    (forall x, In x (fold_left add_key l seen) <-> In x seen \/ In x l).
Proof.
  induction l as [| k l IH]; intros seen Hnd; simpl.
  - split; [exact Hnd | intros x; tauto].
  - assert (Hadd : NoDup (add_key seen k) /\
                   forall x, In x (add_key seen k) <-> In x seen \/ k = x).
    { unfold add_key. destruct (existsb (String.eqb k) seen) eqn:E.
      - apply existsb_eqb_In in E. split; [exact Hnd |].
        intros x; split; [tauto | intros [H | H]; [exact H | subst; exact E]].
      - assert (Hk : ~ In k seen).
        { intros Hin. apply existsb_eqb_In in Hin. congruence. }
        split.
        + apply NoDup_app; [exact Hnd | repeat constructor; intros [] |].
          intros x Hx [Hx' | []]. subst. contradiction.
        + intros x. rewrite in_app_iff. simpl. tauto. }
    destruct Hadd as [Hnd' Hin'].
    destruct (IH _ Hnd') as [H1 H2].
    split; [exact H1 |].
    intros x. rewrite H2, Hin'. tauto.
Qed.

Lemma first_occurrences_NoDup (l : list string) : NoDup (first_occurrences l).
Proof. apply (fold_add_key_spec l []). constructor. Qed.

Lemma first_occurrences_In (l : list string) (x : string) :
  In x (first_occurrences l) <-> In x l.
Proof.
  unfold first_occurrences.
  destruct (fold_add_key_spec l [] (NoDup_nil _)) as [_ H].
  rewrite H. simpl. tauto.
Qed.

Lemma first_occurrences_distinct (l : list string) :
  NoDup l -> first_occurrences l = l.
Proof. intros H. apply (fold_add_key_NoDup l []). exact H. Qed.

Lemma setitem_fresh {V : Type} (d : OrderedDict V) (k : string) (v : V) :
  ~ In k (keys d) -> setitem d k v = d ++ [(k, v)].
Proof.
  induction d as [| [k0 v0] d IH]; simpl; intros Hn.
  - reflexivity.
  - destruct (String.eqb k0 k) eqn:E.
    + apply String.eqb_eq in E. tauto.
    + rewrite IH; [reflexivity | tauto].
Qed.

Lemma assign_all_distinct {V : Type} (pairs : list (string * V)) :
  forall d : OrderedDict V,
    NoDup (keys d ++ map fst pairs) -> assign_all d pairs = d ++ pairs.
Proof.
  induction pairs as [| [k v] pairs IH]; intros d Hnd.
  - symmetry. apply app_nil_r.
  - unfold assign_all in *. simpl in *.
    assert (Hk : ~ In k (keys d)).
    { intros Hin. apply NoDup_remove_2 in Hnd. apply Hnd.
      apply in_or_app. left. exact Hin. }
    rewrite (setitem_fresh _ _ _ Hk).
    rewrite IH.
    + rewrite <- app_assoc. reflexivity.
    + unfold keys in *. rewrite map_app, <- app_assoc. exact Hnd.
Qed.

(** *** The claims about [get_mnemonic] and [get_mnemonics] *)

(** C4.  [get_mnemonic] is a pure wrapper: whatever the service answers
    and whatever state it is in, [get_mnemonic] returns (it does not
    raise), it issues the single query for its three arguments and the
    configured token, the fields [mnemonic_identifier], [start_time] and
    [end_time] of the result are the arguments, and [data], [meta] and
    [info] are the three components of the answer, unchanged. *)
Theorem get_mnemonic_pure_wrapper
        (MAST_TOKEN : string) {W : Type} (h : handler call answer W) (w : W)
        (id : string) (s e : Time) :
  let q := query_single_mnemonic id s e MAST_TOKEN in
  let o := run h (get_mnemonic MAST_TOKEN id s e) w in
  exists m : EdbMnemonic,
    result o = inr m /\
    mnemonic_identifier m = id /\
    start_time m = s /\
    end_time m = e /\
    (data m, meta m, info m) = fst (h q w) /\
    world o = snd (h q w) /\
    trace o = [q].
Proof.
  intros q o. subst o. rewrite run_get_mnemonic. fold q.
  eexists. cbn [result world trace]. split; [reflexivity |].
  cbn [mnemonic_identifier start_time end_time data meta info].
  destruct (h q w) as [[[d m] i] w']. simpl. repeat split.
Qed.

(** C3 (as amended).  For every list or array of mnemonic identifiers,
    [get_mnemonics] returns; it issues exactly one query per element of
    its input, in input order, repeated elements included; the keys of
    the dictionary it returns are the distinct identifiers of the input
    in the order of their first occurrence; each key is mapped to the
    mnemonic [get_mnemonic] produced at the last occurrence of the
    identifier.  When the identifiers are pairwise distinct, the keys
    are exactly the input list and the dictionary pairs each identifier
    with the mnemonic [get_mnemonic] produced for it. *)
Theorem get_mnemonics_ordered_dict
        (MAST_TOKEN : string) {W : Type} (h : handler call answer W) (w : W)
        (mnemonics : pyobject) (s e : Time) :
  isinstance_list_or_ndarray mnemonics = true ->
  let l := iterate mnemonics in
  let o := run h (get_mnemonics MAST_TOKEN mnemonics s e) w in
  let produced := get_each MAST_TOKEN h l s e w in
  trace o = map (fun m => query_single_mnemonic m s e MAST_TOKEN) l /\
  map fst produced = l /\
  exists d : OrderedDict EdbMnemonic,
    result o = inr d /\
    keys d = first_occurrences l /\
    NoDup (keys d) /\
    (forall id, In id (keys d) <-> In id l) /\
    (forall id, getitem d id = getitem (rev produced) id) /\
    (NoDup l -> keys d = l /\ d = produced).
Proof.
  intros Hty l o produced.
  assert (Ho : o = mkOutcome (inr (assign_all [] produced))
                             (world_after MAST_TOKEN h l s e w)
                             (map (fun m => query_single_mnemonic m s e MAST_TOKEN) l)).
  { subst o. unfold get_mnemonics. rewrite Hty. simpl negb. cbv iota.
    apply run_get_mnemonics_loop. }
  assert (Hfst : map fst produced = l) by apply length_get_each.
  rewrite Ho. cbn [result trace].
  split; [reflexivity |]. split; [exact Hfst |].
  exists (assign_all [] produced).
  assert (Hkeys : keys (assign_all [] produced) = first_occurrences l).
  { rewrite keys_assign_all, Hfst. reflexivity. }
  split; [reflexivity |]. split; [exact Hkeys |].
  rewrite Hkeys.
  split; [apply first_occurrences_NoDup |].
  split; [intros id; apply first_occurrences_In |].
  split.
  - intros id. rewrite getitem_assign_all.
    destruct (getitem (rev produced) id); reflexivity.
  - intros Hnd. split; [apply first_occurrences_distinct; exact Hnd |].
    rewrite assign_all_distinct; [reflexivity |].
    simpl. rewrite Hfst. exact Hnd.
Qed.

(** C3, witness: two distinct mnemonics against a service that numbers
    its answers. *)
Lemma get_mnemonics_ordered_dict_witness :
  let l := ["SA_ZFGOUTFOV"; "IMIR_HK_ICE_SEC_VOLT4"] in
  let o := run counting_service (get_mnemonics "token" (PyList l) 10%Z 20%Z) 0%Z in
  isinstance_list_or_ndarray (PyList l) = true /\
  NoDup l /\
  trace o = [query_single_mnemonic "SA_ZFGOUTFOV" 10%Z 20%Z "token";
             query_single_mnemonic "IMIR_HK_ICE_SEC_VOLT4" 10%Z 20%Z "token"] /\
  exists d, result o = inr d /\ keys d = l.
Proof.
  intros l o.
  assert (Hty : isinstance_list_or_ndarray (PyList l) = true) by reflexivity.
  assert (Hnd : NoDup l).
  { subst l. repeat constructor; simpl; intuition discriminate. }
  destruct (get_mnemonics_ordered_dict "token" counting_service 0%Z (PyList l) 10%Z 20%Z Hty)
    as [Htr [_ [d [Hres [_ [_ [_ [_ Hdistinct]]]]]]]].
  split; [exact Hty |]. split; [exact Hnd |]. split; [exact Htr |].
  exists d. split; [exact Hres | apply (Hdistinct Hnd)].
Defined.

(** C3, counterexample to the literal reading: when one identifier is
    listed twice it is queried twice, and the dictionary has one key for
    it, so its keys are not the input list. *)
Lemma get_mnemonics_repeated_identifier :
  ~ literal_reading "token" empty_service tt ["SA_ZFGOUTFOV"; "SA_ZFGOUTFOV"] 10%Z 20%Z.
Proof.
  unfold literal_reading. intros [_ [d [Hres [Hkeys _]]]].
  vm_compute in Hres. injection Hres as Hd. subst d.
  vm_compute in Hkeys. discriminate Hkeys.
Qed.

(** What [get_mnemonics] does on that input: two queries, one key. *)
Example repeated_identifier_run :
  let o := run counting_service
               (get_mnemonics "token" (PyList ["SA_ZFGOUTFOV"; "SA_ZFGOUTFOV"]) 10%Z 20%Z)
               0%Z in
  trace o = [query_single_mnemonic "SA_ZFGOUTFOV" 10%Z 20%Z "token";
             query_single_mnemonic "SA_ZFGOUTFOV" 10%Z 20%Z "token"] /\
  result o = inr [("SA_ZFGOUTFOV",
                   mkEdbMnemonic "SA_ZFGOUTFOV" 10%Z 20%Z [mkRecord 1%Z 1%Z] [] [])].
Proof. split; reflexivity. Qed.

(** C10.  [get_mnemonics] raises [RuntimeError] exactly when its argument
    is neither a list nor an array; on a list and on an array the type
    check lets the call through: [get_mnemonics] returns a dictionary,
    having issued the queries for the elements. *)
Theorem get_mnemonics_type_check
        (MAST_TOKEN : string) {W : Type} (h : handler call answer W) (w : W)
        (s e : Time) :
  (forall mnemonics : pyobject,
     (exists msg, result (run h (get_mnemonics MAST_TOKEN mnemonics s e) w)
                  = inl (RuntimeError msg))
     <-> isinstance_list_or_ndarray mnemonics = false) /\
  (forall items : list string,
     let o := run h (get_mnemonics MAST_TOKEN (PyList items) s e) w in
     (exists d, result o = inr d) /\
     trace o = map (fun m => query_single_mnemonic m s e MAST_TOKEN) items) /\
  (forall items : list string,
     let o := run h (get_mnemonics MAST_TOKEN (PyNdarray items) s e) w in
     (exists d, result o = inr d) /\
     trace o = map (fun m => query_single_mnemonic m s e MAST_TOKEN) items).
Proof.
  assert (Hok : forall mnemonics,
             isinstance_list_or_ndarray mnemonics = true ->
             (exists d, result (run h (get_mnemonics MAST_TOKEN mnemonics s e) w) = inr d) /\
             trace (run h (get_mnemonics MAST_TOKEN mnemonics s e) w)
             = map (fun m => query_single_mnemonic m s e MAST_TOKEN) (iterate mnemonics)).
  { intros mnemonics Hty. unfold get_mnemonics. rewrite Hty. simpl negb. cbv iota.
    rewrite run_get_mnemonics_loop. cbn [result trace]. eauto. }
  split; [| split].
  - intros mnemonics. split.
    + intros [msg Hr].
      destruct (isinstance_list_or_ndarray mnemonics) eqn:Hty; [| reflexivity].
      destruct (Hok _ Hty) as [[d Hd] _]. congruence.
    + intros Hty. unfold get_mnemonics. rewrite Hty. simpl. eauto.
  - intros items. apply (Hok (PyList items)). reflexivity.
  - intros items. apply (Hok (PyNdarray items)). reflexivity.
Qed.

(** C1.  Against the telemetry service as the specification describes
    it, [get_mnemonic] returns, and every time of the table it returns
    lies in the closed interval from [start_time] to [end_time]. *)
Theorem get_mnemonic_times_within
        (MAST_TOKEN : string) (archive : Archive) (id : string) (s e : Time) :
  exists m : EdbMnemonic,
    result (run edb_service (get_mnemonic MAST_TOKEN id s e) archive) = inr m /\
    Forall (fun r => (start_time m <= MJD r <= end_time m)%Z) (data m) /\
    start_time m = s /\ end_time m = e.
Proof.
  rewrite run_get_mnemonic. cbn [result]. eexists. split; [reflexivity |].
  cbn [start_time end_time data]. split; [| split; reflexivity].
  simpl. apply Forall_forall. intros r Hr.
  apply filter_In in Hr. destruct Hr as [_ Hr].
  unfold within in Hr. apply andb_true_iff in Hr. lia.
Qed.

(** A run of [get_mnemonic] against an archive that also holds records
    outside the interval asked for. *)
Example times_within_run :
  let archive :=
    mkArchive (fun _ => [mkRecord 5 1; mkRecord 10 2; mkRecord 15 3;
                         mkRecord 20 4; mkRecord 25 5]%Z)
              (fun _ => []) (fun _ => [("unit", "V")]) in
  result (run edb_service (get_mnemonic "token" "SA_ZFGOUTFOV" 10%Z 20%Z) archive)
  = inr (mkEdbMnemonic "SA_ZFGOUTFOV" 10%Z 20%Z
                       [mkRecord 10 2; mkRecord 15 3; mkRecord 20 4]%Z
                       [] [("unit", "V")]).
Proof. reflexivity. Qed.

End EngineeringDatabaseFacts.

(* ================================================================= *)
(** * Strings: append, containment, [split] *)

Module StringFacts.

Import Python.

Local Open Scope string_scope.

Lemma append_nil_r (s : string) : s ++ "" = s.
Proof. induction s as [| c s IH]; simpl; congruence. Qed.

Lemma append_assoc (a b c : string) : (a ++ b) ++ c = a ++ (b ++ c).
Proof. induction a as [| x a IH]; simpl; congruence. Qed.

Lemma length_append (a b : string) :
  String.length (a ++ b) = String.length a + String.length b.
Proof. induction a as [| x a IH]; simpl; congruence. Qed.

Lemma prefix_cons (a b : ascii) (p s : string) :
  prefix (String a p) (String b s) = Ascii.eqb a b && prefix p s.
Proof.
  simpl. destruct (Ascii.ascii_dec a b) as [-> | Hne].
  - rewrite Ascii.eqb_refl. reflexivity.
  - apply Ascii.eqb_neq in Hne. rewrite Hne. reflexivity.
Qed.

Lemma prefix_nil (s : string) : prefix "" s = true.
Proof. destruct s; reflexivity. Qed.

Lemma prefix_append (p s : string) : prefix p (p ++ s) = true.
Proof.
  induction p as [| c p IH]; simpl append.
  - apply prefix_nil.
  - rewrite prefix_cons, Ascii.eqb_refl. exact IH.
Qed.

Lemma prefix_split (p s : string) : prefix p s = true -> exists r, s = p ++ r.
Proof.
  revert s. induction p as [| c p IH]; intros s H.
  - exists s. reflexivity.
  - destruct s as [| d s]; [discriminate |].
    rewrite prefix_cons in H. apply andb_true_iff in H. destruct H as [Hc Hp].
    apply Ascii.eqb_eq in Hc. subst d.
    destruct (IH s Hp) as [r ->]. exists r. reflexivity.
Qed.

(** *** Containment *)

Lemma contains_cons (sub : string) (c : ascii) (s : string) :
  contains sub (String c s) = prefix sub (String c s) || contains sub s.
Proof. reflexivity. Qed.

Lemma contains_append_r (sub a b : string) :
  contains sub b = true -> contains sub (a ++ b) = true.
Proof.
  intros H. induction a as [| c a IH]; simpl append; [exact H |].
  rewrite contains_cons, IH. apply orb_true_r.
Qed.

Lemma contains_suffix_false (sub a b : string) :
  contains sub (a ++ b) = false -> contains sub b = false.
Proof.
  intros H. destruct (contains sub b) eqn:E; [| reflexivity].
  rewrite (contains_append_r sub a b E) in H. discriminate.
Qed.

Lemma contains_prefix (sub s : string) : prefix sub s = true -> contains sub s = true.
Proof. intros H. destruct s; cbn [contains]; rewrite H; reflexivity. Qed.

Lemma contains_occurrence (sub pre x : string) : contains sub (pre ++ sub ++ x) = true.
Proof. apply contains_append_r, contains_prefix, prefix_append. Qed.

(** Where a text occurs, it has a last occurrence. *)
Lemma contains_last_occurrence (sub s : string) :
  sub <> "" ->
  contains sub s = true ->
  exists pre x, s = pre ++ sub ++ x /\ contains sub x = false.
Proof.
  intros Hsub. induction s as [| c s IH]; intros H.
  - simpl in H. destruct sub; [contradiction | discriminate].
  - rewrite contains_cons in H.
    destruct (contains sub s) eqn:Es.
    + destruct (IH eq_refl) as [pre [x [-> Hx]]].
      exists (String c pre), x. split; [reflexivity | exact Hx].
    + rewrite orb_false_r in H.
      destruct (prefix_split _ _ H) as [x Hx].
      exists "", x. split; [exact Hx |].
      destruct sub as [| d sub]; [contradiction |].
      simpl in Hx. injection Hx as _ Hs. subst s.
      apply (contains_suffix_false _ _ _ Es).
Qed.

(** Containment of a one-character text. *)
Lemma contains_char_cons (a c : ascii) (s : string) :
  contains (String a "") (String c s) = Ascii.eqb a c || contains (String a "") s.
Proof. rewrite contains_cons, prefix_cons, prefix_nil, andb_true_r. reflexivity. Qed.

Lemma contains_char_nil (a : ascii) : contains (String a "") "" = false.
Proof. reflexivity. Qed.

Lemma contains_char_append (a : ascii) (s t : string) :
  contains (String a "") (s ++ t) = contains (String a "") s || contains (String a "") t.
Proof.
  induction s as [| c s IH]; simpl append.
  - reflexivity.
  - rewrite !contains_char_cons, IH. apply orb_assoc.
Qed.

Lemma contains_char_take (a : ascii) (n : nat) (s : string) :
  contains (String a "") s = false -> contains (String a "") (take n s) = false.
Proof.
  revert s. induction n as [| n IH]; intros s H.
  - destruct s; reflexivity.
  - destruct s as [| c s]; [reflexivity |].
    simpl take. rewrite contains_char_cons in *.
    apply orb_false_iff in H. destruct H as [-> H]. simpl. apply IH. exact H.
Qed.

Lemma contains_char_drop (a : ascii) (n : nat) (s : string) :
  contains (String a "") s = false -> contains (String a "") (drop n s) = false.
Proof.
  revert s. induction n as [| n IH]; intros s H.
  - destruct s; exact H.
  - destruct s as [| c s]; [reflexivity |].
    simpl drop. rewrite contains_char_cons in H.
    apply orb_false_iff in H. destruct H as [_ H]. apply IH. exact H.
Qed.

(** *** [split] *)

Lemma split_from_nonempty (sep s : string) (k : nat) : split_from sep s k <> [].
Proof.
  revert k. induction s as [| c s IH]; intros k; cbn [split_from].
  - discriminate.
  - destruct k as [| k]; [| apply IH].
    destruct (prefix sep (String c s)); [discriminate |].
    destruct (split_from sep s 0); discriminate.
Qed.

(** A text without the separator is its own single piece. *)
Lemma split_no_occurrence (sep s : string) :
  contains sep s = false -> split s sep = [s].
Proof.
  unfold split. induction s as [| c s IH]; intros H.
  - reflexivity.
  - rewrite contains_cons in H. apply orb_false_iff in H. destruct H as [Hp Hc].
    cbn [split_from]. rewrite Hp, (IH Hc). reflexivity.
Qed.

(** The pieces are made of characters of the text. *)
Lemma split_from_char_free (a : ascii) (sep s : string) :
  contains (String a "") s = false ->
  forall k, Forall (fun piece => contains (String a "") piece = false) (split_from sep s k).
Proof.
  induction s as [| c s IH]; intros H k; cbn [split_from].
  - repeat constructor.
  - rewrite contains_char_cons in H. apply orb_false_iff in H. destruct H as [Hc Hs].
    destruct k as [| k]; [| apply IH; exact Hs].
    destruct (prefix sep (String c s)).
    + constructor; [reflexivity | apply IH; exact Hs].
    + specialize (IH Hs 0).
      destruct (split_from sep s 0) as [| piece pieces]; [repeat constructor |].
      * rewrite contains_char_cons, Hc. reflexivity.
      * inversion IH; subst. constructor; [| assumption].
        rewrite contains_char_cons, Hc. simpl. assumption.
Qed.

Lemma last_item_char_free (a : ascii) (l : list string) :
  Forall (fun piece => contains (String a "") piece = false) l ->
  contains (String a "") (last_item l) = false.
Proof.
  unfold last_item. induction l as [| x l IH]; intros H; [reflexivity |].
  inversion H; subst. destruct l as [| y l]; [assumption |].
  apply IH. assumption.
Qed.

Lemma first_item_char_free (a : ascii) (l : list string) :
  Forall (fun piece => contains (String a "") piece = false) l ->
  contains (String a "") (first_item l) = false.
Proof. intros H. destruct H; [reflexivity | assumption]. Qed.

Lemma last_item_snoc (init : list string) (x : string) : last_item ((init ++ [x])%list) = x.
Proof. unfold last_item. apply last_last. Qed.

(** Splitting at a one-character separator: the last piece is the text
    after the last separator, the first piece the text before the first
    one. *)
Lemma split_char_last (a : ascii) (pre x : string) :
  contains (String a "") x = false ->
  exists init, split (pre ++ String a "" ++ x) (String a "") = (init ++ [x])%list /\ init <> [].
Proof.
  intros Hx. unfold split. induction pre as [| c pre IH]; simpl append.
  - exists [""]. split; [| discriminate].
    simpl split_from. destruct (Ascii.ascii_dec a a) as [_ | Hne]; [| contradiction].
    rewrite prefix_nil.
    change (split_from (String a "") x 0) with (split x (String a "")).
    rewrite (split_no_occurrence _ _ Hx). reflexivity.
  - destruct IH as [init [IH Hinit]]. simpl append in IH.
    cbn [split_from]. cbn [String.length Nat.sub].
    rewrite IH.
    destruct (prefix (String a "") (String c (pre ++ String a x))).
    + exists ("" :: init). split; [reflexivity | discriminate].
    + destruct init as [| h t]; [contradiction |].
      exists (String c h :: t). split; [reflexivity | discriminate].
Qed.

Lemma split_char_first (a : ascii) (pre x : string) :
  contains (String a "") pre = false ->
  first_item (split (pre ++ String a "" ++ x) (String a "")) = pre.
Proof.
  unfold split. induction pre as [| c pre IH]; intros H; simpl append.
  - simpl split_from. destruct (Ascii.ascii_dec a a) as [_ | Hne]; [| contradiction].
    rewrite prefix_nil. reflexivity.
  - rewrite contains_char_cons in H. apply orb_false_iff in H. destruct H as [Hc Hpre].
    specialize (IH Hpre).
    cbn [split_from]. rewrite prefix_cons, Hc. cbn [andb].
    pose proof (split_from_nonempty (String a "") (pre ++ String a x) 0) as Hne.
    simpl append in IH.
    destruct (split_from (String a "") (pre ++ String a x) 0) as [| h t];
      [contradiction |].
    simpl in IH. subst h. reflexivity.
Qed.

(** Splitting at ["jw"]: the last piece is the text after the last
    occurrence. *)
Lemma split_jw_last_bounded (n : nat) :
  forall s pre x,
    String.length s <= n ->
    s = pre ++ "jw" ++ x ->
    contains "jw" x = false ->
    exists init, split s "jw" = (init ++ [x])%list /\ init <> [].
Proof.
  unfold split.
  induction n as [n IH] using lt_wf_ind. intros s pre x Hlen Hs Hx.
  destruct pre as [| c pre]; simpl append in Hs; subst s.
  - exists [""]. split; [| discriminate].
    simpl.
    change (split_from "jw" x 0) with (split x "jw").
    rewrite (split_no_occurrence _ _ Hx), prefix_nil. reflexivity.
  - cbn [split_from].
    match goal with
    | |- context [prefix ?p ?t] => destruct (prefix p t) eqn:Ep
    end.
    + destruct (prefix_split _ _ Ep) as [r Hr].
      simpl append in Hr. injection Hr as -> Hr.
      destruct pre as [| d pre]; simpl append in Hr; [discriminate |].
      injection Hr as -> Hr. subst r.
      simpl append in Hlen |- *. cbn [split_from String.length Nat.sub] in Hlen |- *.
      destruct (IH (String.length (pre ++ "jw" ++ x)) ltac:(simpl append; lia)
                   (pre ++ "jw" ++ x) pre x (le_n _) eq_refl Hx) as [init [Hi Hne]].
      simpl append in Hi. rewrite Hi.
      exists ("" :: init). split; [reflexivity | discriminate].
    + cbn [String.length] in Hlen.
      destruct (IH (String.length (pre ++ "jw" ++ x)) ltac:(simpl append; lia)
                   (pre ++ "jw" ++ x) pre x (le_n _) eq_refl Hx) as [init [Hi Hne]].
      simpl append in Hi. rewrite Hi.
      destruct init as [| h t]; [contradiction |].
      exists (String c h :: t). split; [reflexivity | discriminate].
Qed.

Lemma split_jw_last (pre x : string) :
  contains "jw" x = false ->
  last_item (split (pre ++ "jw" ++ x) "jw") = x.
Proof.
  intros Hx.
  destruct (split_jw_last_bounded _ _ pre x (le_n _) eq_refl Hx) as [init [-> _]].
  apply last_item_snoc.
Qed.

(** What [p.split('jw')[-1]] is: the text after the last ["jw"], or all
    of [p] when ["jw"] does not occur. *)
Lemma split_jw_last_spec (p x : string) :
  last_item (split p "jw") = x <->
  after_last "jw" p x \/ (contains "jw" p = false /\ x = p).
Proof.
  split.
  - intros H. destruct (contains "jw" p) eqn:Ec.
    + left. destruct (contains_last_occurrence "jw" p ltac:(discriminate) Ec)
        as [pre [y [Hp Hy]]].
      subst p. rewrite (split_jw_last pre y Hy) in H. subst y.
      split; [exists pre; reflexivity | exact Hy].
    + right. rewrite (split_no_occurrence _ _ Ec) in H. split; [reflexivity | auto].
  - intros [[[pre Hp] Hx] | [Hc Hx]].
    + subst p. apply split_jw_last. exact Hx.
    + subst x. rewrite (split_no_occurrence _ _ Hc). reflexivity.
Qed.

End StringFacts.

(* ================================================================= *)
(** * data_containers.py: [get_expstart] and [log_into_mast] *)

Module WebFacts.

Import DataContainers MastSession.

(** C5.  [get_expstart] is constant: for every rootname, whatever the
    state of the outside world, it returns 5000.0, issues no call and
    leaves the world as it was. *)
Theorem get_expstart_constant
        {W : Type} (h : handler call answer W) (w : W) (rootname : string) :
  run h (get_expstart rootname) w = mkOutcome (inr 5000%float) w [].
Proof. reflexivity. Qed.

(** C9.  The three cases of [log_into_mast].  When the session is
    already authenticated, it returns [True] after the single call that
    told it so.  When the session is not authenticated and the token of
    the request prints as ['None'], it returns [False] and has not
    called [login].  Otherwise it calls [login] with the token, asks the
    session again and returns that answer. *)
Theorem log_into_mast_cases
        {W : Type} (h : handler call answer W) (w : W) (request : HttpRequest) :
  let o := run h (log_into_mast request) w in
  let a1 := h Mast_authenticated w in
  let a2 := h (get_mast_token request) (snd a1) in
  let access_token := str (fst a2) in
  let a3 := h (Mast_login access_token) (snd a2) in
  let a4 := h Mast_authenticated (snd a3) in
  (fst a1 = true ->
   result o = inr true /\ trace o = [Mast_authenticated]) /\
  (fst a1 = false -> access_token = "None" ->
   result o = inr false /\
   trace o = [Mast_authenticated; get_mast_token request]) /\
  (fst a1 = false -> access_token <> "None" ->
   result o = inr (fst a4) /\
   trace o = [Mast_authenticated; get_mast_token request;
              Mast_login access_token; Mast_authenticated]).
Proof.
  intros o a1 a2 access_token a3 a4.
  subst o. unfold log_into_mast, perform. simpl.
  fold a1. destruct a1 as [b1 w1] eqn:E1. simpl in *.
  destruct b1.
  - repeat split; try reflexivity; intros; discriminate.
  - simpl. fold a2. destruct a2 as [t2 w2] eqn:E2. simpl in *.
    fold access_token.
    destruct (String.eqb access_token "None") eqn:Etok; simpl.
    + apply String.eqb_eq in Etok.
      repeat split; try reflexivity; intros; try discriminate; contradiction.
    + apply String.eqb_neq in Etok.
      fold a3. destruct a3 as [[] w3] eqn:E3. simpl in *.
      fold a4. destruct a4 as [b4 w4] eqn:E4. simpl.
      repeat split; try reflexivity; intros; try discriminate; contradiction.
Qed.

(** C9, witness: the three cases against a session that accepts one
    token. *)
Lemma log_into_mast_cases_witness :
  (result (run session (log_into_mast request_without_token) true) = inr true /\
   trace (run session (log_into_mast request_without_token) true) = [Mast_authenticated]) /\
  (result (run session (log_into_mast request_without_token) false) = inr false /\
   trace (run session (log_into_mast request_without_token) false)
   = [Mast_authenticated; get_mast_token request_without_token]) /\
  (result (run session (log_into_mast (request_with_token "valid-token")) false) = inr true /\
   trace (run session (log_into_mast (request_with_token "valid-token")) false)
   = [Mast_authenticated; get_mast_token (request_with_token "valid-token");
      Mast_login "valid-token"; Mast_authenticated]).
Proof.
  split; [| split].
  - apply (log_into_mast_cases session true request_without_token). reflexivity.
  - apply (log_into_mast_cases session false request_without_token); reflexivity.
  - apply (log_into_mast_cases session false (request_with_token "valid-token")).
    + reflexivity.
    + simpl. discriminate.
Defined.

(** A token the session rejects: [login] is attempted and the answer is
    the state after it. *)
Example log_into_mast_rejected_token :
  run session (log_into_mast (request_with_token "stale")) false =
  mkOutcome (inr false) false
            [Mast_authenticated; get_mast_token (request_with_token "stale");
             Mast_login "stale"; Mast_authenticated].
Proof. reflexivity. Qed.

End WebFacts.

(* ================================================================= *)
(** * data_containers.py: the mnemonic-exploration filter *)

Module EdbComponentsFacts.

Import EdbComponents.

Section WithSearch.

Variable re_search : string -> string -> Exc bool.

Local Abbreviation matching_indices := (matching_indices re_search).
Local Abbreviation filter_fields := (filter_fields re_search).
Local Abbreviation found_in := (found_in re_search).
Local Abbreviation keep := (keep re_search).
Local Abbreviation accepts := (accepts re_search).
Local Abbreviation acceptsb := (acceptsb re_search).
Local Abbreviation answerable := (answerable re_search).

(** Selecting the rows whose numbers the comprehension collected is
    filtering the rows; [before] are the rows already passed. *)
Lemma select_matching_indices (v : string) (i : nat) (rs : list (list string)) :
  forall (before : list (list string)) (index : list nat),
    matching_indices v (map (cell i) rs) (List.length before) = inr index ->
    select_rows (before ++ rs) index = inr (filter (found_in v i) rs).
Proof.
  induction rs as [| r rs IH]; intros before index H; simpl in H.
  - injection H as <-. reflexivity.
  - unfold exc_bind in H.
    destruct (re_search v (cell i r)) as [e | b] eqn:Eb; [discriminate |].
    destruct (matching_indices v (map (cell i) rs) (S (List.length before)))
      as [e | index'] eqn:Ei; [discriminate |].
    injection H as <-.
    specialize (IH (before ++ [r]) index').
    rewrite length_app, Nat.add_1_r, <- app_assoc in IH. simpl in IH.
    specialize (IH Ei).
    simpl filter. unfold found_in at 1. rewrite Eb.
    destruct b.
    + simpl select_rows.
      rewrite nth_error_app2 by lia. rewrite Nat.sub_diag. simpl.
      rewrite IH. reflexivity.
    + exact IH.
Qed.

Lemma matching_indices_total (v : string) (items : list string) :
  (forall item, exists b, re_search v item = inr b) ->
  forall k, exists index, matching_indices v items k = inr index.
Proof.
  intros Hv. induction items as [| item items IH]; intros k; simpl.
  - eauto.
  - destruct (Hv item) as [b ->]. destruct (IH (S k)) as [index ->]. simpl. eauto.
Qed.

Lemma index_of_In (name : string) (names : list string) :
  In name names -> exists i, index_of name names = Some i.
Proof.
  induction names as [| n names IH]; simpl; [tauto |].
  intros [-> | Hin].
  - rewrite String.eqb_refl. eauto.
  - destruct (String.eqb n name); [eauto |].
    destruct (IH Hin) as [i ->]. eauto.
Qed.

Lemma keep_same_columns (t t' : Table) (fields : list field) (row : list string) :
  colnames t' = colnames t -> keep t' fields row = keep t fields row.
Proof.
  intros Hc. unfold EdbComponents.keep.
  induction fields as [| f fields IH]; simpl; [reflexivity |].
  rewrite IH. unfold EdbComponents.acceptsb. rewrite Hc. reflexivity.
Qed.

Lemma filter_filter {A : Type} (p q : A -> bool) (l : list A) :
  filter q (filter p l) = filter (fun x => p x && q x) l.
Proof.
  induction l as [| x l IH]; simpl; [reflexivity |].
  destruct (p x); simpl; [destruct (q x) |]; rewrite IH; reflexivity.
Qed.

(** The loop over the fields keeps the columns and filters the rows with
    the conjunction of the fields. *)
Lemma filter_fields_is_filter (fields : list field) :
  forall t t' : Table,
    filter_fields fields t = inr t' ->
    colnames t' = colnames t /\ rows t' = filter (keep t fields) (rows t).
Proof.
  induction fields as [| f fields IH]; intros t t' H; simpl in H.
  - injection H as <-. split; [reflexivity |].
    simpl. induction (rows t) as [| r rs IHr]; simpl; congruence.
  - destruct (String.eqb (value f) EmptyString) eqn:Ev; simpl in H.
    + destruct (IH _ _ H) as [Hc Hr]. split; [exact Hc |].
      rewrite Hr. apply filter_ext. intros row.
      unfold EdbComponents.keep. simpl. unfold EdbComponents.acceptsb at 2.
      rewrite Ev. reflexivity.
    + unfold column in H.
      destruct (index_of (label f) (colnames t)) as [i |] eqn:Ei; [| discriminate].
      simpl in H.
      destruct (matching_indices (value f) (map (cell i) (rows t)) 0)
        as [e | index] eqn:Em; [discriminate |].
      simpl in H.
      pose proof (select_matching_indices (value f) i (rows t) [] index Em) as Hsel.
      simpl in Hsel. unfold take_rows in H. rewrite Hsel in H. simpl in H.
      destruct (IH _ _ H) as [Hc Hr]. simpl in Hc, Hr.
      split; [exact Hc |].
      rewrite Hr, filter_filter. apply filter_ext. intros row.
      rewrite (keep_same_columns t) by reflexivity.
      unfold EdbComponents.keep. simpl. unfold EdbComponents.acceptsb at 2.
      rewrite Ev, Ei. reflexivity.
Qed.

Lemma filter_fields_total (fields : list field) :
  forall t : Table,
    Forall (answerable t) fields -> exists t', filter_fields fields t = inr t'.
Proof.
  induction fields as [| f fields IH]; intros t Hall; simpl.
  - eauto.
  - inversion Hall as [| f' fields' Hf Hrest]; subst.
    destruct (String.eqb (value f) EmptyString) eqn:Ev; simpl.
    + apply IH. exact Hrest.
    + destruct Hf as [Hempty | [Hcol Hre]].
      * apply String.eqb_neq in Ev. contradiction.
      * unfold column. destruct (index_of_In _ _ Hcol) as [i ->]. simpl.
        destruct (matching_indices_total (value f) (map (cell i) (rows t)) Hre 0)
          as [index Em].
        rewrite Em. simpl.
        pose proof (select_matching_indices (value f) i (rows t) [] index Em) as Hsel.
        simpl in Hsel. unfold take_rows. rewrite Hsel. simpl.
        apply IH.
        apply Forall_forall. intros g Hg.
        rewrite Forall_forall in Hrest. exact (Hrest g Hg).
Qed.

Lemma acceptsb_accepts (t : Table) (row : list string) (f : field) :
  acceptsb t row f = true <-> accepts t row f.
Proof.
  unfold EdbComponents.acceptsb, EdbComponents.accepts, EdbComponents.found_in.
  rewrite orb_true_iff, String.eqb_eq.
  split; intros [H | H]; auto; right.
  - destruct (index_of (label f) (colnames t)) as [i |]; [| discriminate].
    exists i. split; [reflexivity |].
    destruct (re_search (value f) (cell i row)) as [e | b]; [discriminate |].
    subst b. reflexivity.
  - destruct H as [i [-> Hre]]. rewrite Hre. reflexivity.
Qed.

Lemma keep_Forall (t : Table) (fields : list field) (row : list string) :
  keep t fields row = true <-> Forall (accepts t row) fields.
Proof.
  unfold EdbComponents.keep. rewrite forallb_forall, Forall_forall.
  split; intros H f Hf; apply acceptsb_accepts; auto.
Qed.

End WithSearch.



(** No row survives: the result is the string. *)
Example mnemonic_exploration_empty :
  mnemonic_exploration substring_search
    [mkField "tlmMnemonic" "NIRCAM"]
    (mkTable ["tlmMnemonic"] [["SA_ZFGOUTFOV"]; ["IMIR_HK_ICE_SEC_VOLT4"]])
  = inr (ResultString "empty").
Proof. reflexivity. Qed.

(** A pattern that does not compile raises as soon as it is tried on a
    cell, and is never tried once an earlier field has removed every
    row. *)
Example mnemonic_exploration_bad_pattern :
  mnemonic_exploration substring_search
    [mkField "tlmMnemonic" "("]
    (mkTable ["tlmMnemonic"] [["SA_ZFGOUTFOV"]])
  = inl (ReError "(")
  /\
  mnemonic_exploration substring_search
    [mkField "tlmMnemonic" "NIRCAM"; mkField "tlmMnemonic" "("]
    (mkTable ["tlmMnemonic"] [["SA_ZFGOUTFOV"]])
  = inr (ResultString "empty").
Proof. split; reflexivity. Qed.

End EdbComponentsFacts.

(* ================================================================= *)
(** * data_containers.py: [thumbnails] *)

Module ThumbnailsFacts.

Import Glob DataContainers.

Section WithParser.

Variable filename_parser : string -> Exc (list (string * string)).

(** The [try] body fails with the parser's exception. *)
Lemma parse_ids_raises (file : string) (e : exn) :
  filename_parser file = inl e -> parse_ids filename_parser file = inl e.
Proof. intros H. unfold parse_ids. rewrite H. reflexivity. Qed.

(** A file of the wanted id that fails parsing sends the inner loop into
    the handler, which raises. *)
Lemma inner_loop_handler (file : string) (msg : string) (rest : list string) (vars : ids) :
  filename_parser file = inl (ValueError msg) ->
  inner_loop filename_parser (file_id_of file) (file :: rest) vars
  = inl (NameError "nfile_id").
Proof.
  intros H. simpl. rewrite String.eqb_refl.
  rewrite (parse_ids_raises _ _ H). reflexivity.
Qed.

(** When no file has the wanted id, the inner loop assigns nothing. *)
Lemma inner_loop_no_match (file_id : string) (filepaths : list string) (vars : ids) :
  (forall f, In f filepaths -> file_id_of f <> file_id) ->
  inner_loop filename_parser file_id filepaths vars = inr vars.
Proof.
  induction filepaths as [| file rest IH]; intros H; simpl.
  - reflexivity.
  - destruct (String.eqb (file_id_of file) file_id) eqn:E.
    + apply String.eqb_eq in E. exfalso. apply (H file); [left; reflexivity | exact E].
    + apply IH. intros f Hf. apply H. right. exact Hf.
Qed.

(** In a later iteration the names are bound, and an iteration without a
    matching file reuses the values of the iteration before it. *)
Lemma outer_loop_stale (file_id : string) (filepaths : list string)
      (p d : string) (ds ps : list string) :
  (forall f, In f filepaths -> file_id_of f <> file_id) ->
  mem d ds = true -> mem p ps = true ->
  outer_loop filename_parser [file_id] filepaths (mkLocals (Some p) (Some d) ds ps)
  = inr (mkLocals (Some p) (Some d) ds ps).
Proof.
  intros H Hd Hp. simpl.
  rewrite (inner_loop_no_match _ _ _ H). simpl.
  rewrite Hd, Hp. reflexivity.
Qed.

End WithParser.

(** The ids [thumbnails] loops over are ids of its files, whatever the
    order in which the set is iterated: an iteration of the outer loop
    without a matching file does not arise from [thumbnails] itself. *)
Remark full_ids_have_files (set_iter : list string -> list string)
       (filepaths : list string) (file_id : string) :
  (forall l x, In x (set_iter l) -> In x l) ->
  In file_id (set_iter (map file_id_of filepaths)) ->
  exists f, In f filepaths /\ file_id_of f = file_id.
Proof.
  intros Hset Hin. apply Hset in Hin. apply in_map_iff in Hin.
  destruct Hin as [f [Hf Hin]]. exists f. split; assumption.
Qed.

(** C6.  Let the files of the instrument be a single file that the
    parser rejects with [ValueError], on the page without a proposal.
    Then [thumbnails] raises an unhandled [NameError]: for the name
    [split_files] in the module as it stands, where that name is not
    bound, and for the name [nfile_id], from the handler of
    [ValueError], in any namespace that binds [split_files] to a
    function that keeps the file.  The handler raises that [NameError]
    whenever it is entered.  Moreover, when the inner loop matches no
    file while [program_id] and [detector] are still unbound, both are
    unbound when they are read after the loop, and the first read raises
    [UnboundLocalError], a [NameError]. *)
Theorem thumbnails_NameError
        (jwql_dir : string) (fs : filesystem)
        (Monitors : Type) (MONITORS : Monitors)
        (filename_parser : string -> Exc (list (string * string)))
        (int : string -> Exc Z)
        (split_files : option (list string -> string -> Exc (list string)))
        (set_iter : list string -> list string)
        (inst file msg : string) :
  get_filenames_by_instrument jwql_dir fs inst = inr [file] ->
  filename_parser file = inl (ValueError msg) ->
  (forall f, split_files = Some f -> f [file] "unlooked" = inr [file]) ->
  set_iter [file_id_of file] = [file_id_of file] ->
  (exists e,
      thumbnails jwql_dir fs Monitors MONITORS filename_parser int split_files set_iter
                 inst None = inl e /\
      is_NameError e = true /\
      e = match split_files with
          | None => NameError "split_files"
          | Some _ => NameError "nfile_id"
          end) /\
  (forall rest vars,
      inner_loop filename_parser (file_id_of file) (file :: rest) vars
      = inl (NameError "nfile_id")) /\
  (forall file_id full_ids filepaths,
      (forall f, In f filepaths -> file_id_of f <> file_id) ->
      inner_loop filename_parser file_id filepaths (None, None) = inr (None, None) /\
      outer_loop filename_parser (file_id :: full_ids) filepaths (mkLocals None None [] [])
      = inl (UnboundLocalError "detector") /\
      is_NameError (UnboundLocalError "detector") = true).
Proof.
  intros Hfiles Hparse Hsplit Hset.
  split; [| split].
  - unfold thumbnails. rewrite Hfiles. simpl.
    destruct split_files as [f |]; simpl.
    + rewrite (Hsplit f eq_refl). simpl. rewrite Hset. simpl.
      rewrite String.eqb_refl.
      rewrite (parse_ids_raises _ _ _ Hparse). simpl.
      eexists. repeat split.
    + eexists. repeat split.
  - intros rest vars. apply (inner_loop_handler _ _ msg). exact Hparse.
  - intros file_id full_ids filepaths Hnone.
    split; [apply inner_loop_no_match; exact Hnone |].
    split; [| reflexivity].
    simpl. rewrite (inner_loop_no_match _ _ _ _ Hnone). reflexivity.
Qed.

(** C6, witness: a mirror whose only NIRCam file is outside the naming
    convention, in the module as it stands and in a namespace where
    [split_files] keeps every file. *)
Lemma thumbnails_NameError_witness :
  let run_with split_files :=
    thumbnails Examples.jwql_dir Examples.stray_mirror unit tt
               Examples.convention_parser Examples.no_int split_files
               Examples.in_list_order "NIRCam" None in
  get_filenames_by_instrument Examples.jwql_dir Examples.stray_mirror "NIRCam"
  = inr [Examples.stray_file] /\
  (exists msg, Examples.convention_parser Examples.stray_file = inl (ValueError msg)) /\
  run_with None = inl (NameError "split_files") /\
  run_with (Some Examples.keep_all) = inl (NameError "nfile_id").
Proof.
  intros run_with.
  assert (Hfiles : get_filenames_by_instrument Examples.jwql_dir Examples.stray_mirror "NIRCam"
                   = inr [Examples.stray_file]) by reflexivity.
  assert (Hparse : Examples.convention_parser Examples.stray_file
                   = inl (ValueError "Provided file does not follow JWST naming conventions"))
    by reflexivity.
  assert (Hset : Examples.in_list_order [file_id_of Examples.stray_file]
                 = [file_id_of Examples.stray_file]) by reflexivity.
  split; [exact Hfiles |]. split; [eexists; exact Hparse |].
  split.
  - destruct (thumbnails_NameError
                Examples.jwql_dir Examples.stray_mirror unit tt
                Examples.convention_parser Examples.no_int None
                Examples.in_list_order "NIRCam" Examples.stray_file _
                Hfiles Hparse) as [[e [Hrun [_ He]]] _].
    + intros f Hf. discriminate Hf.
    + exact Hset.
    + subst run_with. cbv beta. rewrite Hrun, He. reflexivity.
  - destruct (thumbnails_NameError
                Examples.jwql_dir Examples.stray_mirror unit tt
                Examples.convention_parser Examples.no_int (Some Examples.keep_all)
                Examples.in_list_order "NIRCam" Examples.stray_file _
                Hfiles Hparse) as [[e [Hrun [_ He]]] _].
    + intros f Hf. injection Hf as <-. reflexivity.
    + exact Hset.
    + subst run_with. cbv beta. rewrite Hrun, He. reflexivity.
Defined.

(** The module as it stands stops at [split_files] for every page:
    whenever the files of the instrument can be listed, [thumbnails]
    raises [NameError] before it looks at a file. *)
Remark thumbnails_as_is
       (jwql_dir : string) (fs : filesystem)
       (Monitors : Type) (MONITORS : Monitors)
       (filename_parser : string -> Exc (list (string * string)))
       (int : string -> Exc Z) (set_iter : list string -> list string)
       (inst : string) (proposal : option string) (filepaths : list string) :
  get_filenames_by_instrument jwql_dir fs inst = inr filepaths ->
  thumbnails jwql_dir fs Monitors MONITORS filename_parser int None set_iter inst proposal
  = inl (NameError "split_files").
Proof. intros H. unfold thumbnails. rewrite H. reflexivity. Qed.

(** With [split_files] bound and compliant files only, the page is
    built. *)
Example thumbnails_compliant :
  thumbnails Examples.jwql_dir Examples.mirror unit tt
             Examples.convention_parser Examples.no_int (Some Examples.keep_all)
             Examples.in_list_order "FGS" None
  = inr (mkDictToRender unit "FGS" tt
           [("detector", ["guider2"; "guider1"]); ("proposal", ["86600"])] None).
Proof. vm_compute. reflexivity. Qed.

End ThumbnailsFacts.

(* ================================================================= *)
(** * data_containers.py: paths of the mirror and [get_all_proposals] *)

Module MirrorFacts.

Import Python Glob DataContainers StringFacts.

Local Open Scope string_scope.

(** *** Paths *)

Lemma ends_with_sep_cons (c : ascii) (t : string) :
  ends_with_sep (String c t) =
  match t with
  | EmptyString => Ascii.eqb c "/"
  | String _ _ => ends_with_sep t
  end.
Proof.
  destruct t as [| d t]; [reflexivity |].
  unfold ends_with_sep. cbn [String.length Nat.sub String.get].
  rewrite Nat.sub_0_r. reflexivity.
Qed.

Lemma ends_with_sep_append (s t : string) :
  t <> "" -> ends_with_sep (s ++ t) = ends_with_sep t.
Proof.
  intros Ht. induction s as [| c s IH]; simpl append; [reflexivity |].
  rewrite ends_with_sep_cons.
  destruct (s ++ t) eqn:E; [| exact IH].
  destruct s; simpl in E; [contradiction | discriminate].
Qed.

Lemma ends_with_sep_slash_free (t : string) :
  contains "/" t = false -> ends_with_sep t = false.
Proof.
  induction t as [| c t IH]; intros H; [reflexivity |].
  rewrite contains_char_cons in H. apply orb_false_iff in H. destruct H as [Hc Ht].
  rewrite ends_with_sep_cons. destruct t as [| d t].
  - rewrite Ascii.eqb_sym. exact Hc.
  - apply IH. exact Ht.
Qed.

Lemma slash_free_no_prefix (name : string) :
  contains "/" name = false -> prefix "/" name = false.
Proof.
  intros H. destruct (prefix "/" name) eqn:E; [| reflexivity].
  rewrite (contains_prefix _ _ E) in H. discriminate.
Qed.

(** Joining a name to a directory path that is not empty and does not
    end with a slash. *)
Lemma path_join_name (dir name : string) :
  dir <> "" -> ends_with_sep dir = false -> contains "/" name = false ->
  path_join dir name = dir ++ "/" ++ name.
Proof.
  intros Hd He Hn. unfold path_join.
  rewrite (slash_free_no_prefix _ Hn), He.
  apply String.eqb_neq in Hd. rewrite Hd. reflexivity.
Qed.

Section WithConfig.

Variable jwql_dir : string.

Lemma FILESYSTEM_DIR_shape : exists pre, FILESYSTEM_DIR jwql_dir = pre ++ "filesystem".
Proof.
  unfold FILESYSTEM_DIR, path_join. simpl prefix. cbv iota.
  destruct (String.eqb jwql_dir "" || ends_with_sep jwql_dir).
  - exists jwql_dir. reflexivity.
  - exists (jwql_dir ++ "/"). rewrite append_assoc. reflexivity.
Qed.

Lemma FILESYSTEM_DIR_nonempty : FILESYSTEM_DIR jwql_dir <> "".
Proof.
  destruct FILESYSTEM_DIR_shape as [pre ->]. destruct pre; discriminate.
Qed.

Lemma FILESYSTEM_DIR_no_sep : ends_with_sep (FILESYSTEM_DIR jwql_dir) = false.
Proof.
  destruct FILESYSTEM_DIR_shape as [pre ->].
  rewrite ends_with_sep_append by discriminate. reflexivity.
Qed.

Lemma FILESYSTEM_DIR_length : 10 <= String.length (FILESYSTEM_DIR jwql_dir).
Proof.
  destruct FILESYSTEM_DIR_shape as [pre ->].
  rewrite length_append. simpl. lia.
Qed.

(** The path [glob] builds for a name in the mirror. *)
Lemma path_in_mirror (name : string) :
  contains "/" name = false ->
  path_join (FILESYSTEM_DIR jwql_dir) name = FILESYSTEM_DIR jwql_dir ++ "/" ++ name.
Proof.
  apply path_join_name; [apply FILESYSTEM_DIR_nonempty | apply FILESYSTEM_DIR_no_sep].
Qed.

(** The path of a name in a directory of the mirror. *)
Lemma path_in_directory (dirname name : string) :
  dirname <> "" ->
  contains "/" dirname = false ->
  contains "/" name = false ->
  path_join (path_join (FILESYSTEM_DIR jwql_dir) dirname) name
  = (FILESYSTEM_DIR jwql_dir ++ "/" ++ dirname) ++ "/" ++ name.
Proof.
  intros Hne Hd Hn. rewrite (path_in_mirror dirname Hd).
  apply path_join_name.
  - destruct (FILESYSTEM_DIR jwql_dir); discriminate.
  - rewrite ends_with_sep_append by discriminate.
    rewrite ends_with_sep_append by exact Hne.
    apply ends_with_sep_slash_free. exact Hd.
  - exact Hn.
Qed.

End WithConfig.

(** *** Patterns *)

Lemma fnmatch_star (name : string) : fnmatch "*" name = true.
Proof. induction name as [| c name IH]; [reflexivity |]. simpl in *. exact IH. Qed.

Lemma glob1_star (names : list string) :
  glob1 names "*" = filter (fun name => negb (ishidden name)) names.
Proof.
  unfold glob1. apply filter_ext. intros name.
  rewrite fnmatch_star, andb_true_r. reflexivity.
Qed.

(** *** [get_all_proposals] *)



(** The list for the example mirror: the plain file [README] yields a
    longer text and is dropped; the directory [jwtests] yields five
    characters and is kept. *)
Example get_all_proposals_run :
  get_all_proposals Examples.jwql_dir Examples.mirror = ["86600"; "00327"; "tests"].
Proof. reflexivity. Qed.

End MirrorFacts.

(* ================================================================= *)
(** * data_containers.py: [get_filenames_by_rootname] *)

Module RootnameFacts.

Import Python Glob DataContainers StringFacts MirrorFacts.

Local Open Scope string_scope.

(** *** Sorting *)

Lemma ascii_compare_refl (c : ascii) : Ascii.compare c c = Eq.
Proof.
  pose proof (Ascii.compare_antisym c c) as H.
  destruct (Ascii.compare c c); simpl in H; congruence.
Qed.

Lemma leb_append_l (d a b : string) : String.leb (d ++ a) (d ++ b) = String.leb a b.
Proof.
  unfold String.leb. induction d as [| c d IH]; simpl; [reflexivity |].
  rewrite ascii_compare_refl. exact IH.
Qed.

Lemma insert_sorted_append (d x : string) (l : list string) :
  insert_sorted (d ++ x) (map (append d) l) = map (append d) (insert_sorted x l).
Proof.
  induction l as [| y l IH]; simpl; [reflexivity |].
  rewrite leb_append_l. destruct (String.leb x y); simpl; [reflexivity |].
  rewrite IH. reflexivity.
Qed.

(** Sorting paths of one directory sorts the names. *)
Lemma sorted_append (d : string) (l : list string) :
  sorted (map (append d) l) = map (append d) (sorted l).
Proof.
  induction l as [| x l IH]; simpl; [reflexivity |].
  rewrite IH. apply insert_sorted_append.
Qed.

Lemma insert_sorted_In (x y : string) (l : list string) :
  In y (insert_sorted x l) <-> y = x \/ In y l.
Proof.
  induction l as [| z l IH]; simpl.
  - intuition.
  - destruct (String.leb x z); simpl; [intuition |].
    rewrite IH. intuition.
Qed.

Lemma sorted_In (y : string) (l : list string) : In y (sorted l) <-> In y l.
Proof.
  induction l as [| x l IH]; simpl; [tauto |].
  rewrite insert_sorted_In, IH. intuition.
Qed.

Lemma insert_sorted_Sorted (x : string) (l : list string) :
  Sorted string_le l -> Sorted string_le (insert_sorted x l).
Proof.
  induction l as [| y l IH]; intros Hs; simpl.
  - repeat constructor.
  - destruct (String.leb x y) eqn:E.
    + constructor; [exact Hs |]. constructor. exact E.
    + inversion Hs as [| y' l' Hl Hhd]; subst.
      constructor; [apply IH; exact Hl |].
      assert (Hyx : string_le y x).
      { destruct (String.leb_total x y) as [H | H]; [congruence | exact H]. }
      destruct l as [| z l]; simpl.
      * constructor. exact Hyx.
      * destruct (String.leb x z); constructor; [exact Hyx |].
        inversion Hhd; subst. assumption.
Qed.

Lemma sorted_Sorted (l : list string) : Sorted string_le (sorted l).
Proof.
  induction l as [| x l IH]; simpl; [constructor |].
  apply insert_sorted_Sorted. exact IH.
Qed.

(** *** Names and patterns *)

Lemma basename_in_directory (dir name : string) :
  contains "/" name = false -> basename (dir ++ "/" ++ name) = name.
Proof.
  intros H. unfold basename.
  destruct (split_char_last "/" dir name H) as [init [-> _]].
  apply last_item_snoc.
Qed.

(** A pattern made of literal characters and a final star matches the
    names that start with the literal text. *)
Lemma fnmatch_literal_star (lit : string) :
  contains "*" lit = false -> contains "?" lit = false ->
  forall name, fnmatch (lit ++ "*") name = prefix lit name.
Proof.
  induction lit as [| c lit IH]; intros Hstar Hany name.
  - rewrite prefix_nil. apply fnmatch_star.
  - rewrite contains_char_cons in Hstar, Hany.
    apply orb_false_iff in Hstar. destruct Hstar as [Hc1 Hstar].
    apply orb_false_iff in Hany. destruct Hany as [Hc2 Hany].
    simpl append. cbn [fnmatch].
    rewrite (Ascii.eqb_sym c "*"), Hc1, (Ascii.eqb_sym c "?"), Hc2.
    destruct name as [| d name]; [reflexivity |].
    rewrite prefix_cons, (IH Hstar Hany). reflexivity.
Qed.

Lemma ishidden_pattern (rootname : string) :
  ishidden (rootname ++ "*") = ishidden rootname.
Proof.
  unfold ishidden. destruct rootname as [| c r]; [reflexivity |].
  simpl append. rewrite !prefix_cons, !prefix_nil. reflexivity.
Qed.

Lemma glob_literal_parts (s : string) :
  glob_literal s = true ->
  contains "/" s = false /\ contains "*" s = false /\
  contains "?" s = false /\ contains "[" s = false.
Proof.
  unfold glob_literal. rewrite !andb_true_iff, !negb_true_iff. tauto.
Qed.

(** The proposal part of a rootname is made of characters of the
    rootname. *)
Lemma proposal_char_free (a : ascii) (rootname : string) :
  contains (String a "") rootname = false ->
  contains (String a "") (proposal_of_rootname rootname) = false.
Proof.
  intros H. unfold proposal_of_rootname, slice.
  apply contains_char_take. apply contains_char_drop.
  apply last_item_char_free. apply split_from_char_free.
  apply first_item_char_free. apply split_from_char_free. exact H.
Qed.

Lemma star_differs (r other : string) :
  contains "*" other = false -> String.eqb (r ++ "*") other = false.
Proof.
  intros H. apply String.eqb_neq. intros E.
  rewrite <- E, contains_char_append in H.
  rewrite orb_true_r in H. discriminate.
Qed.

Lemma modelled_pattern (rootname : string) :
  contains "/" rootname = false -> contains "[" rootname = false ->
  modelled (rootname ++ "*") = true.
Proof.
  intros H1 H2. unfold modelled.
  rewrite !star_differs by reflexivity.
  rewrite !contains_char_append, H1, H2. reflexivity.
Qed.

Lemma modelled_directory (proposal : string) :
  contains "/" proposal = false -> contains "[" proposal = false ->
  modelled ("jw" ++ proposal) = true.
Proof.
  intros H1 H2. unfold modelled.
  rewrite !contains_char_append, H1, H2. reflexivity.
Qed.

Lemma literal_directory (proposal : string) :
  contains "*" proposal = false -> contains "?" proposal = false ->
  contains "[" proposal = false ->
  has_magic ("jw" ++ proposal) = false.
Proof.
  intros H1 H2 H3. unfold has_magic.
  rewrite !contains_char_append, H1, H2, H3. reflexivity.
Qed.

Lemma magic_pattern (rootname : string) : has_magic (rootname ++ "*") = true.
Proof.
  unfold has_magic. rewrite contains_char_append. simpl.
  rewrite orb_true_r. reflexivity.
Qed.

(** *** The result, in closed form *)

(** For a rootname that [glob] takes literally, the result is the
    sorted list of the names of the proposal directory that start with
    the rootname (hidden names only for a hidden rootname). *)
Lemma get_filenames_by_rootname_closed_form
      (jwql_dir : string) (fs : filesystem) (rootname : string) :
  glob_literal rootname = true ->
  Forall (fun name => slash_free name = true)
         (listdir fs ("jw" ++ proposal_of_rootname rootname)) ->
  get_filenames_by_rootname jwql_dir fs rootname =
  Some (sorted (filter (fun name => (ishidden rootname || negb (ishidden name))
                                    && prefix rootname name)
                       (listdir fs ("jw" ++ proposal_of_rootname rootname)))).
Proof.
  intros Hlit Hwf. rewrite Forall_forall in Hwf.
  destruct (glob_literal_parts _ Hlit) as [Hslash [Hstar [Hany Hbracket]]].
  set (proposal := proposal_of_rootname rootname) in *.
  assert (Hp1 : contains "/" proposal = false) by (apply proposal_char_free; assumption).
  assert (Hp2 : contains "*" proposal = false) by (apply proposal_char_free; assumption).
  assert (Hp3 : contains "?" proposal = false) by (apply proposal_char_free; assumption).
  assert (Hp4 : contains "[" proposal = false) by (apply proposal_char_free; assumption).
  unfold get_filenames_by_rootname. fold proposal.
  rewrite (modelled_directory _ Hp1 Hp4), (modelled_pattern _ Hslash Hbracket).
  cbn [andb]. f_equal.
  unfold glob_two_levels, glob_in_dir.
  rewrite (literal_directory _ Hp2 Hp3 Hp4), magic_pattern.
  cbn [flat_map]. rewrite app_nil_r.
  set (dir := FILESYSTEM_DIR jwql_dir ++ "/" ++ "jw" ++ proposal).
  set (names := glob1 (listdir fs ("jw" ++ proposal)) (rootname ++ "*")).
  assert (Hnames : forall name, In name names -> contains "/" name = false).
  { intros name Hin. unfold names, glob1 in Hin. apply filter_In in Hin.
    destruct Hin as [Hin _]. specialize (Hwf name Hin).
    unfold slash_free in Hwf. apply negb_true_iff. exact Hwf. }
  assert (Hpaths :
            map (path_join (path_join (FILESYSTEM_DIR jwql_dir) ("jw" ++ proposal))) names
            = map (append (dir ++ "/")) names).
  { apply map_ext_in. intros name Hin.
    rewrite path_in_directory.
    - unfold dir. rewrite !append_assoc. reflexivity.
    - discriminate.
    - rewrite contains_char_append, Hp1. reflexivity.
    - apply Hnames. exact Hin. }
  rewrite Hpaths, sorted_append, map_map.
  assert (Hbase : map (fun name => basename ((dir ++ "/") ++ name)) (sorted names)
                  = map (fun name => name) (sorted names)).
  { apply map_ext_in. intros name Hin. apply (proj1 (sorted_In _ _)) in Hin.
    rewrite append_assoc. apply basename_in_directory. apply Hnames. exact Hin. }
  rewrite Hbase, map_id. f_equal.
  unfold names, glob1. apply filter_ext. intros name.
  rewrite ishidden_pattern, (fnmatch_literal_star _ Hstar Hany). reflexivity.
Qed.

(** The proposal of a rootname that starts with ["jw"]: the first five
    characters that follow, within the part before the first
    underscore. *)
Lemma proposal_of_rootname_jw (q rest : string) :
  contains "_" q = false -> contains "jw" q = false ->
  rest = "" \/ prefix "_" rest = true ->
  proposal_of_rootname ("jw" ++ q ++ rest) = take 5 q.
Proof.
  intros Hu Hjw Hrest. unfold proposal_of_rootname.
  assert (Hfirst : first_item (split ("jw" ++ q ++ rest) "_") = "jw" ++ q).
  { assert (Hpre : contains "_" ("jw" ++ q) = false).
    { rewrite contains_char_append, Hu. reflexivity. }
    destruct Hrest as [-> | Hrest].
    - rewrite append_nil_r, (split_no_occurrence _ _ Hpre). reflexivity.
    - destruct (prefix_split _ _ Hrest) as [rest' ->].
      replace ("jw" ++ q ++ "_" ++ rest') with (("jw" ++ q) ++ "_" ++ rest')
        by (rewrite !append_assoc; reflexivity).
      apply split_char_first. exact Hpre. }
  rewrite Hfirst.
  change ("jw" ++ q) with ("" ++ "jw" ++ q).
  rewrite (split_jw_last "" q Hjw). reflexivity.
Qed.




(** What is returned for that rootname. *)
Example star_rootname_run :
  get_filenames_by_rootname Examples.jwql_dir Examples.mirror "jw86600*"
  = Some ["jw86600008001_02101_00007_guider1_uncal.fits";
          "jw86600008001_02101_00007_guider2_rate.fits";
          "jw86600008001_02101_00007_guider2_uncal.fits"].
Proof. vm_compute. reflexivity. Qed.

(** A question mark in the proposal part turns the directory into a
    pattern as well: files of several directories are returned, and
    their names need not be in order. *)
Example get_filenames_by_rootname_question_mark :
  get_filenames_by_rootname
    "/data/jwql"
    [Dir "jw00001" ["jw0000z.fits"]; Dir "jw00002" ["jw0000a.fits"]]
    "jw0000?"
  = Some ["jw0000z.fits"; "jw0000a.fits"].
Proof. vm_compute. reflexivity. Qed.

End RootnameFacts.

(* ================================================================= *)
(** * engineering_database.py: the entries of the dictionary *)

Module DictionaryFacts.

Import EngineeringDatabase GetMnemonicsSpec EngineeringDatabaseFacts.

Section Entries.

Context {V : Type}.
Variable P : string * V -> Prop.

Lemma setitem_Forall (d : OrderedDict V) (k : string) (v : V) :
  Forall P d -> P (k, v) -> Forall P (setitem d k v).
Proof.
  intros Hd Hkv. induction d as [| [k0 v0] d IH]; simpl.
  - constructor; [exact Hkv | constructor].
  - inversion Hd as [| x l Hx Hl]; subst.
    destruct (String.eqb k0 k) eqn:E.
    + apply String.eqb_eq in E. subst k0. constructor; assumption.
    + constructor; [exact Hx | apply IH; exact Hl].
Qed.

Lemma assign_all_Forall (pairs : list (string * V)) :
  forall d : OrderedDict V,
    Forall P d -> Forall P pairs -> Forall P (assign_all d pairs).
Proof.
  unfold assign_all.
  induction pairs as [| [k v] pairs IH]; intros d Hd Hp; simpl.
  - exact Hd.
  - inversion Hp as [| x l Hx Hl]; subst.
    apply IH; [apply setitem_Forall; assumption | exact Hl].
Qed.

End Entries.

Lemma length_setitem {V : Type} (d : OrderedDict V) (k : string) (v : V) :
  List.length (setitem d k v) <= S (List.length d).
Proof.
  induction d as [| [k0 v0] d IH]; simpl; [lia |].
  destruct (String.eqb k0 k); simpl; lia.
Qed.

Lemma length_assign_all {V : Type} (pairs : list (string * V)) :
  forall d : OrderedDict V,
    List.length (assign_all d pairs) <= List.length d + List.length pairs.
Proof.
  unfold assign_all.
  induction pairs as [| [k v] pairs IH]; intros d; simpl; [lia |].
  specialize (IH (setitem d k v)).
  pose proof (length_setitem d k v). lia.
Qed.

Lemma getitem_key {V : Type} (d : OrderedDict V) (k : string) :
  In k (keys d) -> exists v, getitem d k = Some v /\ In (k, v) d.
Proof.
  unfold keys. induction d as [| [k0 v0] d IH]; simpl; [tauto |].
  intros Hin. destruct (String.eqb k0 k) eqn:E.
  - apply String.eqb_eq in E. subst k0. exists v0. split; [reflexivity | left; reflexivity].
  - destruct Hin as [Heq | Hin].
    + subst k0. rewrite String.eqb_refl in E. discriminate.
    + destruct (IH Hin) as [v [Hv Hm]]. exists v. split; [exact Hv | right; exact Hm].
Qed.

(** What [get_mnemonic] produces carries its own arguments. *)
Lemma get_each_entries (MAST_TOKEN : string) {W : Type} (h : handler call answer W)
      (l : list string) (s e : Time) :
  forall w,
    Forall (fun km => mnemonic_identifier (snd km) = fst km /\
                      start_time (snd km) = s /\ end_time (snd km) = e)
           (get_each MAST_TOKEN h l s e w).
Proof.
  induction l as [| id rest IH]; intros w.
  - constructor.
  - cbn [get_each]. rewrite run_get_mnemonic. cbn [result world]. cbn zeta.
    constructor; [simpl; auto | apply IH].
Qed.

(** X1.  Every entry of the dictionary [get_mnemonics] returns is stored under
    the identifier of its own mnemonic and carries the start and end
    time of the call; every identifier of the input can be looked up;
    and the dictionary has at most as many entries as queries were
    issued. *)
Theorem get_mnemonics_entries
        (MAST_TOKEN : string) {W : Type} (h : handler call answer W) (w : W)
        (mnemonics : pyobject) (s e : Time) (d : OrderedDict EdbMnemonic) :
  result (run h (get_mnemonics MAST_TOKEN mnemonics s e) w) = inr d ->
  Forall (fun km => mnemonic_identifier (snd km) = fst km /\
                    start_time (snd km) = s /\ end_time (snd km) = e) d /\
  (forall id, In id (iterate mnemonics) ->
              exists m, getitem d id = Some m /\ mnemonic_identifier m = id) /\
  List.length d <= List.length (trace (run h (get_mnemonics MAST_TOKEN mnemonics s e) w)).
Proof.
  unfold get_mnemonics.
  destruct (isinstance_list_or_ndarray mnemonics); simpl negb; cbv iota;
    [| simpl; discriminate].
  rewrite run_get_mnemonics_loop. cbn [result trace]. intros Hd.
  injection Hd as <-.
  set (produced := get_each MAST_TOKEN h (iterate mnemonics) s e w).
  assert (Hentries : Forall (fun km => mnemonic_identifier (snd km) = fst km /\
                                       start_time (snd km) = s /\ end_time (snd km) = e)
                            (assign_all [] produced)).
  { apply assign_all_Forall; [constructor | apply get_each_entries]. }
  split; [exact Hentries |]. split.
  - intros id Hid.
    assert (Hkey : In id (keys (assign_all [] produced))).
    { rewrite keys_assign_all. unfold produced. rewrite length_get_each.
      apply (first_occurrences_In (iterate mnemonics) id). exact Hid. }
    destruct (getitem_key _ _ Hkey) as [m [Hm Hin]].
    exists m. split; [exact Hm |].
    rewrite Forall_forall in Hentries. apply (Hentries (id, m) Hin).
  - pose proof (length_assign_all produced []) as Hlen. simpl in Hlen.
    rewrite length_map.
    assert (Hp : List.length produced = List.length (iterate mnemonics)).
    { unfold produced.
      rewrite <- (length_get_each MAST_TOKEN h (iterate mnemonics) s e w) at 2.
      rewrite length_map. reflexivity. }
    lia.
Qed.

(** The entries for a list with a repeated identifier, against a service
    that numbers its answers. *)
Lemma get_mnemonics_entries_witness :
  exists d,
    result (run counting_service
                (get_mnemonics "token"
                               (PyList ["SA_ZFGOUTFOV"; "IMIR_HK_ICE_SEC_VOLT4"; "SA_ZFGOUTFOV"])
                               10%Z 20%Z) 0%Z) = inr d /\
    List.length d = 2 /\
    Forall (fun km => mnemonic_identifier (snd km) = fst km) d.
Proof.
  eexists. split; [reflexivity |]. split; [reflexivity |].
  pose proof (get_mnemonics_entries
                "token" counting_service 0%Z
                (PyList ["SA_ZFGOUTFOV"; "IMIR_HK_ICE_SEC_VOLT4"; "SA_ZFGOUTFOV"])
                10%Z 20%Z _ eq_refl) as [H _].
  apply Forall_forall. intros km Hkm.
  rewrite Forall_forall in H. apply (H km Hkm).
Defined.

End DictionaryFacts.

(* ================================================================= *)
(** * data_containers.py: [get_filenames_by_instrument] and the menus of
      [thumbnails] *)

Module InstrumentFacts.

Import Python Glob DataContainers StringFacts MirrorFacts.

Local Open Scope string_scope.

(** *** Containment, on the left *)

Lemma prefix_extend (p s t : string) : prefix p s = true -> prefix p (s ++ t) = true.
Proof.
  intros H. destruct (prefix_split _ _ H) as [r ->].
  rewrite append_assoc. apply prefix_append.
Qed.

Lemma contains_append_l (sub a b : string) :
  contains sub a = true -> contains sub (a ++ b) = true.
Proof.
  induction a as [| c a IH]; intros H.
  - cbn [contains] in H. rewrite orb_false_r in H.
    apply contains_prefix. apply (prefix_extend sub "" b H).
  - rewrite contains_cons in H. simpl append. rewrite contains_cons.
    apply orb_true_iff in H. destruct H as [H | H].
    + pose proof (prefix_extend sub (String c a) b H) as Hp.
      simpl append in Hp. rewrite Hp. reflexivity.
    + rewrite (IH H). apply orb_true_r.
Qed.

(** A relative name is joined after the directory. *)
Lemma path_join_extends (a b : string) :
  prefix "/" b = false -> exists x, path_join a b = a ++ x.
Proof.
  intros H. unfold path_join. rewrite H.
  destruct (String.eqb a "" || ends_with_sep a); eauto.
Qed.

(** *** [get_filenames_by_instrument] *)



(** Every path [glob] builds for the two-level pattern starts with
    [FILESYSTEM_DIR], provided no name of the mirror starts with a
    slash. *)
Lemma two_levels_below (base : string) (fs : filesystem) (dirpattern pattern : string) :
  Forall (fun e => slash_free (entry_name e) = true) fs ->
  (forall dirname, Forall (fun name => slash_free name = true) (listdir fs dirname)) ->
  has_magic dirpattern = true -> has_magic pattern = true ->
  forall f, In f (glob_two_levels base fs dirpattern pattern) -> exists x, f = base ++ x.
Proof.
  intros Hdirs Hnames Hd Hp f Hf.
  unfold glob_two_levels, glob_in_dir in Hf. rewrite Hd, Hp in Hf.
  apply in_flat_map in Hf. destruct Hf as [dirname [Hdir Hf]].
  apply in_map_iff in Hf. destruct Hf as [name [<- Hname]].
  assert (Hdf : prefix "/" dirname = false).
  { unfold glob1 in Hdir. apply filter_In in Hdir. destruct Hdir as [Hdir _].
    apply in_map_iff in Hdir. destruct Hdir as [e [<- He]].
    apply filter_In in He. destruct He as [He _].
    rewrite Forall_forall in Hdirs. specialize (Hdirs e He).
    unfold slash_free in Hdirs. apply negb_true_iff in Hdirs.
    apply slash_free_no_prefix. exact Hdirs. }
  assert (Hnf : prefix "/" name = false).
  { unfold glob1 in Hname. apply filter_In in Hname. destruct Hname as [Hname _].
    specialize (Hnames dirname). rewrite Forall_forall in Hnames.
    specialize (Hnames name Hname).
    unfold slash_free in Hnames. apply negb_true_iff in Hnames.
    apply slash_free_no_prefix. exact Hnames. }
  destruct (path_join_extends base dirname Hdf) as [x ->].
  destruct (path_join_extends (base ++ x) name Hnf) as [y ->].
  exists (x ++ y). apply append_assoc.
Qed.



End InstrumentFacts.

(* ================================================================= *)
(** * data_containers.py: the menus [thumbnails] builds *)

Module MenuFacts.

Import Python Glob DataContainers.

Lemma mem_In (x : string) (l : list string) : mem x l = true <-> In x l.
Proof.
  unfold mem. rewrite existsb_exists. split.
  - intros [y [Hy E]]. apply String.eqb_eq in E. subst. exact Hy.
  - intros H. exists x. split; [exact H | apply String.eqb_refl].
Qed.

Lemma NoDup_snoc (l : list string) (x : string) :
  NoDup l -> ~ In x l -> NoDup (l ++ [x]).
Proof.
  intros Hl Hx. apply NoDup_app; [exact Hl | repeat constructor; intros [] |].
  intros y Hy [<- | []]. contradiction.
Qed.

Lemma outer_loop_tidy
      (filename_parser : string -> Exc (list (string * string)))
      (full_ids filepaths : list string) :
  forall st st',
    outer_loop filename_parser full_ids filepaths st = inr st' ->
    tidy_menus st -> tidy_menus st'.
Proof.
  induction full_ids as [| file_id rest IH]; intros st st' H Hst.
  - simpl in H. injection H as <-. exact Hst.
  - cbn [outer_loop] in H. unfold exc_bind in H.
    destruct (inner_loop filename_parser file_id filepaths (program_id st, detector st))
      as [e | [p d]]; [discriminate |].
    cbn [fst snd] in H.
    destruct d as [d |]; [| discriminate]. cbn [read_local] in H.
    destruct p as [p |]; [| discriminate]. cbn [read_local] in H.
    apply IH in H; [exact H |].
    destruct Hst as [Hd [Hf Hp]]. unfold tidy_menus. cbn [detectors proposals].
    split; [| split].
    + destruct (mem d (detectors st)) eqn:Em; simpl; [exact Hd |].
      destruct (startswith d "f"); simpl; [exact Hd |].
      apply NoDup_snoc; [exact Hd |].
      intros Hin. apply mem_In in Hin. congruence.
    + destruct (mem d (detectors st)); simpl; [exact Hf |].
      destruct (startswith d "f") eqn:Es; simpl; [exact Hf |].
      apply Forall_app. split; [exact Hf | repeat constructor; exact Es].
    + destruct (mem p (proposals st)) eqn:Em; simpl; [exact Hp |].
      apply NoDup_snoc; [exact Hp |].
      intros Hin. apply mem_In in Hin. congruence.
Qed.



End MenuFacts.

(* ================================================================= *)
(** * data_containers.py: more on the mnemonic-exploration filter *)

Module ExplorationFacts.

Import EdbComponents EdbComponentsFacts.

Lemma index_of_missing (name : string) (names : list string) :
  ~ In name names -> index_of name names = None.
Proof.
  induction names as [| n names IH]; simpl; intros H; [reflexivity |].
  destruct (String.eqb n name) eqn:E.
  - apply String.eqb_eq in E. tauto.
  - rewrite IH; [reflexivity | tauto].
Qed.

Section WithSearch.

Variable re_search : string -> string -> Exc bool.

Lemma forallb_Permutation {A : Type} (p : A -> bool) (l l' : list A) :
  Permutation l l' -> forallb p l = forallb p l'.
Proof.
  induction 1 as [| x l l' _ IH | x y l | l l' l'' _ IH1 _ IH2]; simpl.
  - reflexivity.
  - rewrite IH. reflexivity.
  - destruct (p x), (p y); reflexivity.
  - congruence.
Qed.

Lemma filter_fields_app (fields1 fields2 : list field) :
  forall t : Table,
    filter_fields re_search (fields1 ++ fields2) t =
    exc_bind (filter_fields re_search fields1 t) (filter_fields re_search fields2).
Proof.
  induction fields1 as [| f fields1 IH]; intros t; simpl.
  - reflexivity.
  - destruct (String.eqb (value f) EmptyString); simpl; [apply IH |].
    destruct (column t (label f)) as [e | items]; simpl; [reflexivity |].
    destruct (matching_indices re_search (value f) items 0) as [e | index]; simpl;
      [reflexivity |].
    destruct (take_rows t index) as [e | filtered]; simpl; [reflexivity | apply IH].
Qed.

(** On a table without rows no pattern is tried. *)
Lemma filter_fields_no_rows (fields : list field) (cols : list string) :
  Forall (fun f => value f = EmptyString \/ In (label f) cols) fields ->
  filter_fields re_search fields (mkTable cols []) = inr (mkTable cols []).
Proof.
  induction fields as [| f fields IH]; intros H; simpl; [reflexivity |].
  inversion H as [| f' fields' Hf Hrest]; subst.
  destruct (String.eqb (value f) EmptyString) eqn:Ev; simpl; [apply IH; exact Hrest |].
  destruct Hf as [Hempty | Hcol].
  - apply String.eqb_neq in Ev. contradiction.
  - unfold column. simpl.
    assert (Hi : exists i, index_of (label f) cols = Some i).
    { clear - Hcol. induction cols as [| n names IHn]; simpl in *; [tauto |].
      destruct (String.eqb n (label f)) eqn:E; [eauto |].
      destruct Hcol as [-> | Hin]; [rewrite String.eqb_refl in E; discriminate |].
      destruct (IHn Hin) as [i ->]. eauto. }
    destruct Hi as [i ->]. simpl.
    apply IH. exact Hrest.
Qed.

Lemma filter_fields_blank (fields : list field) (t : Table) :
  Forall (fun f => value f = EmptyString) fields ->
  filter_fields re_search fields t = inr t.
Proof.
  induction fields as [| f fields IH]; intros H; simpl; [reflexivity |].
  inversion H as [| f' fields' Hf Hrest]; subst.
  rewrite Hf. simpl. apply IH. exact Hrest.
Qed.

End WithSearch.

(** X5.  The order of the fields of the form does not matter to the result:
    two forms with the same fields in a different order, when the
    branch returns for both, give the same table or both give
    ['empty']. *)
Theorem mnemonic_exploration_field_order
        (re_search : string -> string -> Exc bool)
        (fields fields' : list field) (inventory : Table)
        (r r' : exploration_result) :
  Permutation fields fields' ->
  mnemonic_exploration re_search fields inventory = inr r ->
  mnemonic_exploration re_search fields' inventory = inr r' ->
  r = r'.
Proof.
  intros Hperm H H'. unfold mnemonic_exploration, exc_bind in H, H'.
  destruct (filter_fields re_search fields inventory) as [e | t] eqn:E; [discriminate |].
  destruct (filter_fields re_search fields' inventory) as [e | t'] eqn:E'; [discriminate |].
  destruct (filter_fields_is_filter _ _ _ _ E) as [Hc Hr].
  destruct (filter_fields_is_filter _ _ _ _ E') as [Hc' Hr'].
  assert (Heq : t = t').
  { destruct t as [cols rs], t' as [cols' rs']. simpl in *. subst.
    f_equal. apply filter_ext. intros row. unfold keep.
    apply forallb_Permutation. exact Hperm. }
  subst t'. congruence.
Qed.

(** A form submitted with its two filled fields in either order. *)
Lemma mnemonic_exploration_field_order_witness :
  let inventory :=
    mkTable ["tlmMnemonic"; "subsystem"]
            [["SA_ZFGOUTFOV"; "FGS"]; ["IMIR_HK_ICE_SEC_VOLT4"; "MIRI"];
             ["IMIR_HK_ICE_SEC_VOLT1"; "MIRI"]] in
  let by_name := mkField "tlmMnemonic" "VOLT4" in
  let by_subsystem := mkField "subsystem" "MIRI" in
  mnemonic_exploration substring_search [by_name; by_subsystem] inventory
  = mnemonic_exploration substring_search [by_subsystem; by_name] inventory.
Proof.
  intros inventory by_name by_subsystem.
  destruct (mnemonic_exploration substring_search [by_name; by_subsystem] inventory)
    as [e | r] eqn:E; [discriminate E |].
  destruct (mnemonic_exploration substring_search [by_subsystem; by_name] inventory)
    as [e | r'] eqn:E'; [discriminate E' |].
  f_equal.
  apply (mnemonic_exploration_field_order
           substring_search [by_name; by_subsystem] [by_subsystem; by_name] inventory);
    [apply perm_swap | exact E | exact E'].
Defined.





End ExplorationFacts.

(* ================================================================= *)
(** * data_containers.py: lookups by proposal and by rootname *)

Module LookupFacts.

Import Python Glob DataContainers Lookups StringFacts MirrorFacts RootnameFacts.

Local Open Scope string_scope.

(** *** The text of ['{:05d}'] *)

Lemma string_of_uint_char_free (a : ascii) (d : Decimal.uint) :
  existsb (Ascii.eqb a) ["0"; "1"; "2"; "3"; "4"; "5"; "6"; "7"; "8"; "9"]%char = false ->
  contains (String a "") (NilEmpty.string_of_uint d) = false.
Proof.
  intros H. cbn [existsb] in H.
  repeat (apply orb_false_iff in H; destruct H as [? H]).
  induction d; cbn [NilEmpty.string_of_uint];
    [reflexivity | rewrite contains_char_cons, IHd, orb_false_r; assumption ..].
Qed.

Lemma digits_char_free (a : ascii) (n : N) :
  existsb (Ascii.eqb a) ["0"; "1"; "2"; "3"; "4"; "5"; "6"; "7"; "8"; "9"]%char = false ->
  contains (String a "") (digits n) = false.
Proof.
  intros H. unfold digits, NilZero.string_of_uint.
  pose proof (string_of_uint_char_free a (N.to_uint n) H) as Hd.
  destruct (N.to_uint n); try exact Hd.
  cbn [existsb] in H. apply orb_false_iff in H. destruct H as [H _].
  rewrite contains_char_cons, H. reflexivity.
Qed.

Lemma zeros_char_free (a : ascii) (k : nat) :
  Ascii.eqb a "0" = false -> contains (String a "") (zeros k) = false.
Proof.
  intros H. induction k as [| k IH]; [reflexivity |].
  cbn [zeros]. rewrite contains_char_cons, H, IH. reflexivity.
Qed.

(** The text holds digits and at most a sign. *)
Lemma format_05d_char_free (a : ascii) (n : Z) :
  existsb (Ascii.eqb a) ["-"; "0"; "1"; "2"; "3"; "4"; "5"; "6"; "7"; "8"; "9"]%char = false ->
  contains (String a "") (format_05d n) = false.
Proof.
  intros H. cbn [existsb] in H. apply orb_false_iff in H. destruct H as [Hsign H].
  assert (H0 : Ascii.eqb a "0" = false).
  { apply orb_false_iff in H. tauto. }
  unfold format_05d.
  destruct (n <? 0)%Z;
    rewrite ?contains_char_append, ?contains_char_cons, ?contains_char_nil,
            (zeros_char_free a _ H0), (digits_char_free a _ H), ?Hsign; reflexivity.
Qed.

Lemma proposal_directory_modelled (n : Z) : modelled ("jw" ++ format_05d n) = true.
Proof. apply modelled_directory; apply format_05d_char_free; reflexivity. Qed.

Lemma proposal_directory_literal (n : Z) : has_magic ("jw" ++ format_05d n) = false.
Proof. apply literal_directory; apply format_05d_char_free; reflexivity. Qed.

Lemma proposal_directory_slash_free (n : Z) : contains "/" ("jw" ++ format_05d n) = false.
Proof.
  rewrite contains_char_append, (format_05d_char_free "/" n eq_refl). reflexivity.
Qed.

(** *** Paths below the root of a tree *)

Lemma tree_root (jwql_dir leaf : string) :
  leaf <> "" -> contains "/" leaf = false ->
  path_join jwql_dir leaf <> "" /\ ends_with_sep (path_join jwql_dir leaf) = false.
Proof.
  intros Hne Hleaf. unfold path_join.
  rewrite (slash_free_no_prefix _ Hleaf).
  destruct (String.eqb jwql_dir "" || ends_with_sep jwql_dir).
  - split.
    + destruct jwql_dir; simpl; [exact Hne | discriminate].
    + rewrite ends_with_sep_append by exact Hne.
      apply ends_with_sep_slash_free. exact Hleaf.
  - split.
    + destruct jwql_dir; discriminate.
    + rewrite ends_with_sep_append by discriminate.
      rewrite ends_with_sep_append by exact Hne.
      apply ends_with_sep_slash_free. exact Hleaf.
Qed.

Section Tree.

Variable base : string.
Hypothesis base_nonempty : base <> "".
Hypothesis base_no_sep : ends_with_sep base = false.

Lemma path_in_tree (dirname name : string) :
  dirname <> "" -> contains "/" dirname = false -> contains "/" name = false ->
  path_join (path_join base dirname) name = ((base ++ "/" ++ dirname) ++ "/") ++ name.
Proof.
  intros Hne Hd Hn.
  rewrite (path_join_name base dirname base_nonempty base_no_sep Hd).
  rewrite path_join_name.
  - rewrite !append_assoc. reflexivity.
  - destruct base; discriminate.
  - rewrite ends_with_sep_append by discriminate.
    rewrite ends_with_sep_append by exact Hne.
    apply ends_with_sep_slash_free. exact Hd.
  - exact Hn.
Qed.

Lemma paths_in_tree (dirname : string) (names : list string) :
  dirname <> "" -> contains "/" dirname = false ->
  Forall (fun name => slash_free name = true) names ->
  map (path_join (path_join base dirname)) names
  = map (append ((base ++ "/" ++ dirname) ++ "/")) names.
Proof.
  intros Hne Hd Hnames. rewrite Forall_forall in Hnames.
  apply map_ext_in. intros name Hin. apply path_in_tree; try assumption.
  specialize (Hnames name Hin). unfold slash_free in Hnames.
  apply negb_true_iff. exact Hnames.
Qed.

Lemma basenames_of_paths (dir : string) (names : list string) :
  Forall (fun name => slash_free name = true) names ->
  map basename (map (append (dir ++ "/")) names) = names.
Proof.
  intros Hnames. rewrite Forall_forall in Hnames.
  rewrite map_map. rewrite <- (map_id names) at 2.
  apply map_ext_in. intros name Hin.
  rewrite append_assoc. apply basename_in_directory.
  specialize (Hnames name Hin). unfold slash_free in Hnames.
  apply negb_true_iff. exact Hnames.
Qed.

(** The names of the paths [glob] builds in a directory, in the order of
    [glob] and sorted. *)
Lemma basenames_in_tree (dirname : string) (names : list string) :
  dirname <> "" -> contains "/" dirname = false ->
  Forall (fun name => slash_free name = true) names ->
  map basename (map (path_join (path_join base dirname)) names) = names.
Proof.
  intros Hne Hd Hnames.
  rewrite (paths_in_tree dirname names Hne Hd Hnames).
  apply basenames_of_paths. exact Hnames.
Qed.

Lemma sorted_basenames_in_tree (dirname : string) (names : list string) :
  dirname <> "" -> contains "/" dirname = false ->
  Forall (fun name => slash_free name = true) names ->
  map basename (sorted (map (path_join (path_join base dirname)) names)) = sorted names.
Proof.
  intros Hne Hd Hnames.
  rewrite (paths_in_tree dirname names Hne Hd Hnames), sorted_append.
  apply basenames_of_paths.
  apply Forall_forall. intros name Hin. apply (proj1 (sorted_In _ _)) in Hin.
  rewrite Forall_forall in Hnames. apply Hnames. exact Hin.
Qed.

End Tree.

Lemma glob_in_literal_directory (base : string) (tree : filesystem)
      (dirname pattern : string) :
  has_magic dirname = false ->
  glob_two_levels base tree dirname pattern
  = map (path_join (path_join base dirname)) (glob_in_dir (listdir tree dirname) pattern).
Proof.
  intros H. unfold glob_two_levels. rewrite H. cbn [flat_map]. apply app_nil_r.
Qed.

Lemma Forall_filter {A : Type} (P : A -> Prop) (p : A -> bool) (l : list A) :
  Forall P l -> Forall P (filter p l).
Proof.
  intros H. apply Forall_forall. intros x Hx. apply filter_In in Hx.
  rewrite Forall_forall in H. apply H. tauto.
Qed.

(** The visible names of a proposal directory, as [glob] and [basename]
    deliver them. *)
Lemma proposal_directory_names (base : string) (tree : filesystem) (n : Z) :
  base <> "" -> ends_with_sep base = false ->
  Forall (fun name => slash_free name = true) (listdir tree ("jw" ++ format_05d n)) ->
  map basename (glob_two_levels base tree ("jw" ++ format_05d n) "*")
  = visible (listdir tree ("jw" ++ format_05d n)) /\
  map basename (sorted (glob_two_levels base tree ("jw" ++ format_05d n) "*"))
  = sorted (visible (listdir tree ("jw" ++ format_05d n))).
Proof.
  intros Hb1 Hb2 Hwf.
  rewrite (glob_in_literal_directory _ _ _ _ (proposal_directory_literal n)).
  unfold glob_in_dir. simpl has_magic. cbv iota. rewrite glob1_star.
  fold (visible (listdir tree ("jw" ++ format_05d n))).
  assert (Hvis : Forall (fun name => slash_free name = true)
                        (visible (listdir tree ("jw" ++ format_05d n)))).
  { apply Forall_filter. exact Hwf. }
  split.
  - apply basenames_in_tree; try assumption; [discriminate |].
    apply proposal_directory_slash_free.
  - apply sorted_basenames_in_tree; try assumption; [discriminate |].
    apply proposal_directory_slash_free.
Qed.

(** *** Lookups by proposal *)





(** *** Lookups by rootname in the other trees *)

Lemma by_rootname_in_tree (base : string) (tree : filesystem) (rootname : string) :
  base <> "" -> ends_with_sep base = false ->
  glob_literal rootname = true ->
  Forall (fun name => slash_free name = true)
         (listdir tree ("jw" ++ proposal_of_rootname rootname)) ->
  modelled ("jw" ++ proposal_of_rootname rootname) && modelled (rootname ++ "*") = true /\
  map basename
      (sorted (glob_two_levels base tree ("jw" ++ proposal_of_rootname rootname)
                               (rootname ++ "*")))
  = sorted (filter (fun name => (ishidden rootname || negb (ishidden name))
                                && prefix rootname name)
                   (listdir tree ("jw" ++ proposal_of_rootname rootname))).
Proof.
  intros Hb1 Hb2 Hlit Hwf.
  destruct (glob_literal_parts _ Hlit) as [Hslash [Hstar [Hany Hbracket]]].
  set (proposal := proposal_of_rootname rootname) in *.
  assert (Hp1 : contains "/" proposal = false) by (apply proposal_char_free; assumption).
  assert (Hp2 : contains "*" proposal = false) by (apply proposal_char_free; assumption).
  assert (Hp3 : contains "?" proposal = false) by (apply proposal_char_free; assumption).
  assert (Hp4 : contains "[" proposal = false) by (apply proposal_char_free; assumption).
  split.
  - rewrite (modelled_directory _ Hp1 Hp4), (modelled_pattern _ Hslash Hbracket).
    reflexivity.
  - rewrite (glob_in_literal_directory _ _ _ _ (literal_directory _ Hp2 Hp3 Hp4)).
    unfold glob_in_dir. rewrite magic_pattern.
    assert (Hd1 : "jw" ++ proposal <> "") by discriminate.
    assert (Hd2 : contains "/" ("jw" ++ proposal) = false).
    { rewrite contains_char_append, Hp1. reflexivity. }
    assert (Hn : Forall (fun name => slash_free name = true)
                        (glob1 (listdir tree ("jw" ++ proposal)) (rootname ++ "*"))).
    { unfold glob1. apply Forall_filter. exact Hwf. }
    rewrite (sorted_basenames_in_tree base Hb1 Hb2 _ _ Hd1 Hd2 Hn).
    f_equal. unfold glob1. apply filter_ext. intros name.
    rewrite ishidden_pattern, (fnmatch_literal_star _ Hstar Hany). reflexivity.
Qed.



End LookupFacts.

(* ================================================================= *)
(** * data_containers.py: [get_acknowledgements] *)

Module AcknowledgementFacts.

Import Python Acknowledgements StringFacts InstrumentFacts.

Local Open Scope string_scope.

Example clean_line :
  clean "- Lauren Chambers (STScI) [@laurenmarietta](https://github.com/laurenmarietta)
" = "Lauren Chambers (STScI)".
Proof. reflexivity. Qed.

(** *** Stripping *)

Lemma rstrip_idempotent (s : string) : rstrip (rstrip s) = rstrip s.
Proof.
  induction s as [| c s IH]; [reflexivity |].
  cbn [rstrip].
  destruct (is_space c && String.eqb (rstrip s) "") eqn:E; [reflexivity |].
  cbn [rstrip]. rewrite IH, E. reflexivity.
Qed.

Lemma lstrip_head (s : string) :
  lstrip s = "" \/ exists c t, lstrip s = String c t /\ is_space c = false.
Proof.
  induction s as [| c s IH]; [left; reflexivity |].
  cbn [lstrip]. destruct (is_space c) eqn:E; [exact IH |].
  right. exists c, s. split; [reflexivity | exact E].
Qed.

Lemma lstrip_rstrip_lstrip (s : string) : lstrip (rstrip (lstrip s)) = rstrip (lstrip s).
Proof.
  destruct (lstrip_head s) as [-> | [c [t [-> Hc]]]]; [reflexivity |].
  cbn [rstrip]. rewrite Hc. cbn [andb lstrip]. rewrite Hc. reflexivity.
Qed.

Lemma strip_idempotent (s : string) : strip (strip s) = strip s.
Proof. unfold strip. rewrite lstrip_rstrip_lstrip. apply rstrip_idempotent. Qed.

Lemma lstrip_suffix (s : string) : exists pre, s = pre ++ lstrip s.
Proof.
  induction s as [| c s [pre IH]]; [exists ""; reflexivity |].
  cbn [lstrip]. destruct (is_space c).
  - exists (String c pre). simpl. rewrite <- IH. reflexivity.
  - exists "". reflexivity.
Qed.

Lemma rstrip_prefix (s : string) : exists post, s = rstrip s ++ post.
Proof.
  induction s as [| c s [post IH]]; [exists ""; reflexivity |].
  cbn [rstrip]. destruct (is_space c && String.eqb (rstrip s) "").
  - exists (String c s). reflexivity.
  - exists post. simpl. rewrite <- IH. reflexivity.
Qed.

(** Stripping does not create an occurrence of a text. *)
Lemma strip_contains (sub s : string) :
  contains sub s = false -> contains sub (strip s) = false.
Proof.
  intros H. unfold strip.
  destruct (contains sub (rstrip (lstrip s))) eqn:E; [| reflexivity].
  destruct (rstrip_prefix (lstrip s)) as [post Hpost].
  destruct (lstrip_suffix s) as [pre Hpre].
  rewrite Hpre in H.
  apply contains_suffix_false in H.
  rewrite Hpost, (contains_append_l _ _ post E) in H. discriminate.
Qed.

(** *** The first piece of a split *)

Lemma first_piece (sep s : string) :
  sep <> "" ->
  (exists rest, s = first_item (split s sep) ++ rest) /\
  contains sep (first_item (split s sep)) = false.
Proof.
  intros Hsep. unfold split.
  induction s as [| c s [[rest IHr] IHc]].
  - split; [exists ""; reflexivity |].
    cbn. destruct sep; [contradiction | reflexivity].
  - cbn [split_from].
    destruct (prefix sep (String c s)) eqn:Ep.
    + split; [exists (String c s); reflexivity |].
      cbn. destruct sep; [contradiction | reflexivity].
    + pose proof (split_from_nonempty sep s 0) as Hne.
      destruct (split_from sep s 0) as [| h t]; [contradiction |].
      cbn [first_item hd] in *.
      split; [exists rest; simpl; rewrite <- IHr; reflexivity |].
      rewrite contains_cons, IHc, orb_false_r.
      destruct (prefix sep (String c h)) eqn:Eh; [| reflexivity].
      pose proof (prefix_extend sep (String c h) rest Eh) as Hx.
      simpl append in Hx. rewrite <- IHr, Ep in Hx. discriminate.
Qed.

(** *** The heading *)

Lemma find_heading_absent (data : list string) :
  Forall (fun line => contains "Acknowledgments" line = false) data ->
  forall i index, find_heading data i index = index.
Proof.
  induction 1 as [| line data Hline _ IH]; intros i index; [reflexivity |].
  cbn [find_heading]. rewrite Hline. apply IH.
Qed.

Lemma find_heading_app (before after : list string) :
  forall i index,
    find_heading (before ++ after) i index
    = find_heading after (i + List.length before) (find_heading before i index).
Proof.
  induction before as [| line before IH]; intros i index.
  - simpl. rewrite Nat.add_0_r. reflexivity.
  - cbn [app find_heading List.length]. rewrite IH. f_equal. lia.
Qed.

Lemma find_heading_unbound (data : list string) :
  forall i index,
    find_heading data i index = None ->
    index = None /\ Forall (fun line => contains "Acknowledgments" line = false) data.
Proof.
  induction data as [| line data IH]; intros i index H.
  - split; [exact H | constructor].
  - cbn [find_heading] in H. apply IH in H. destruct H as [H Hrest].
    destruct (contains "Acknowledgments" line) eqn:E; [discriminate |].
    split; [exact H | constructor; assumption].
Qed.





End AcknowledgementFacts.

(* ================================================================= *)
(** * data_containers.py: [get_header_info] and [get_image_info] *)

Module ImageFacts.

Import EngineeringDatabase GetMnemonicsSpec EngineeringDatabaseFacts.
Import Python DataContainers Images StringFacts MirrorFacts.

Local Open Scope string_scope.

(** *** The suffix of a file name *)

(** Indexing the pieces of the base name is the only step of
    [suffix_of] that can fail. *)
Lemma suffix_of_error (file : string) (e : exn) :
  suffix_of file = inl e ->
  e = IndexError 4 /\ List.length (split (basename file) "_") < 5.
Proof.
  unfold suffix_of, list_index. cbn [exc_bind].
  destruct (nth_error (split (basename file) "_") 4) eqn:E; cbn; [discriminate |].
  intros H. injection H as <-. split; [reflexivity |].
  apply nth_error_None in E. lia.
Qed.

Lemma suffix_of_short (file : string) :
  List.length (split (basename file) "_") < 5 -> suffix_of file = inl (IndexError 4).
Proof.
  intros H. unfold suffix_of, list_index.
  assert (E : nth_error (split (basename file) "_") 4 = None)
    by (apply nth_error_None; lia).
  rewrite E. reflexivity.
Qed.

Lemma suffix_of_cases (file : string) :
  suffix_of file = inl (IndexError 4) \/ exists suffix, suffix_of file = inr suffix.
Proof.
  destruct (suffix_of file) as [e | suffix] eqn:E.
  - left. destruct (suffix_of_error _ _ E) as [-> _]. reflexivity.
  - right. exists suffix. reflexivity.
Qed.

(** *** One pass of the loop *)

Section WithDisk.

Context {W : Type}.
Variable h : handler call answer W.
Variables (file_root : string) (rewrite : bool) (preview_dir dirname : string).

Local Abbreviation step := (image_step file_root rewrite preview_dir dirname).
Local Abbreviation loop := (image_loop file_root rewrite preview_dir dirname).
Local Abbreviation make file :=
  (PreviewImage_make_image file "SCI" (path_join preview_dir dirname)).

Lemma run_image_step_bad (file : string) (acc : collected) (w : W) (e : exn) :
  suffix_of file = inl e ->
  run h (step file acc) w = mkOutcome (inl e) w [].
Proof. intros H. unfold image_step. rewrite H. reflexivity. Qed.

Lemma run_image_step_good (file : string) (acc : collected) (w : W) (suffix : string) :
  suffix_of file = inr suffix ->
  (exists n,
      result (run h (step file acc) w)
      = inr (mkCollected (all_jpegs acc ++ [jpg_filepath_of preview_dir dirname file])
                         (suffixes acc ++ [suffix])
                         (setitem (num_ints acc) suffix n))) /\
  (rewrite = true -> filter makes_image (trace (run h (step file acc) w)) = [make file]) /\
  (rewrite = false ->
   (forall path w', fst (h (os_path_exists path) w') = true) ->
   filter writes (trace (run h (step file acc) w)) = []).
Proof.
  intros Hs. unfold image_step. rewrite Hs.
  cbn [bind perform run].
  destruct (h (os_path_exists (jpg_filepath_of preview_dir dirname file)) w)
    as [jpg_exists w1] eqn:E1.
  destruct (jpg_exists && negb rewrite) eqn:Eskip; cbn [bind perform run].
  - destruct (h (glob_glob _) w1) as [jpgs w2].
    cbn [result trace filter makes_image writes].
    split; [eexists; reflexivity |].
    split; [| reflexivity].
    intros ->. rewrite andb_false_r in Eskip. discriminate.
  - destruct (h (os_path_exists (path_join preview_dir dirname)) w1)
      as [dir_exists w2] eqn:E2.
    destruct dir_exists; cbn [negb bind perform run].
    + destruct (h (PreviewImage_make_image _ _ _) w2) as [u w3].
      destruct (h (glob_glob _) w3) as [jpgs w4].
      cbn [result trace filter makes_image writes].
      split; [eexists; reflexivity |].
      split; [reflexivity |].
      intros -> Hall. specialize (Hall (jpg_filepath_of preview_dir dirname file) w).
      rewrite E1 in Hall. cbn [fst] in Hall. subst jpg_exists. discriminate.
    + destruct (h (os_makedirs _) w2) as [u0 w3].
      destruct (h (PreviewImage_make_image _ _ _) w3) as [u w4].
      destruct (h (glob_glob _) w4) as [jpgs w5].
      cbn [result trace filter makes_image writes].
      split; [eexists; reflexivity |].
      split; [reflexivity |].
      intros -> Hall. specialize (Hall (jpg_filepath_of preview_dir dirname file) w).
      rewrite E1 in Hall. cbn [fst] in Hall. subst jpg_exists. discriminate.
Qed.

(** *** The loop *)

Lemma image_loop_returns (files : list string) :
  forall (acc acc' : collected) (w : W),
    result (run h (loop files acc) w) = inr acc' ->
    all_jpegs acc' = (all_jpegs acc ++ map (jpg_filepath_of preview_dir dirname) files)%list /\
    exists found,
      Forall2 (fun file suffix => suffix_of file = inr suffix) files found /\
      suffixes acc' = (suffixes acc ++ found)%list /\
      keys (num_ints acc') = fold_left add_key found (keys (num_ints acc)).
Proof.
  induction files as [| file files IH]; intros acc acc' w H.
  - cbn in H. injection H as <-. rewrite !app_nil_r.
    split; [reflexivity |]. exists []. rewrite app_nil_r.
    split; [constructor | split; reflexivity].
  - cbn [image_loop] in H. rewrite run_bind in H.
    destruct (suffix_of file) as [e | suffix] eqn:Es.
    + rewrite (run_image_step_bad _ _ _ _ Es) in H. cbn in H. discriminate.
    + destruct (run_image_step_good file acc w suffix Es) as [[n Hn] _].
      rewrite Hn in H. cbn [result] in H.
      apply IH in H. cbn [all_jpegs suffixes num_ints] in H.
      destruct H as [Hj [found [Hf [Hsu Hk]]]].
      split; [rewrite Hj, <- app_assoc; reflexivity |].
      exists (suffix :: found).
      split; [constructor; assumption |].
      split; [rewrite Hsu, <- app_assoc; reflexivity |].
      rewrite Hk, keys_setitem. reflexivity.
Qed.

Lemma image_loop_raises (files : list string) :
  forall (acc : collected) (w : W) (e : exn),
    result (run h (loop files acc) w) = inl e ->
    e = IndexError 4 /\
    Exists (fun file => List.length (split (basename file) "_") < 5) files.
Proof.
  induction files as [| file files IH]; intros acc w e H.
  - cbn in H. discriminate.
  - cbn [image_loop] in H. rewrite run_bind in H.
    destruct (suffix_of file) as [e0 | suffix] eqn:Es.
    + rewrite (run_image_step_bad _ _ _ _ Es) in H. cbn in H.
      injection H as <-. destruct (suffix_of_error _ _ Es) as [-> Hlen].
      split; [reflexivity | apply Exists_cons_hd; exact Hlen].
    + destruct (run_image_step_good file acc w suffix Es) as [[n Hn] _].
      rewrite Hn in H. cbn [result] in H.
      apply IH in H. destruct H as [-> Hex].
      split; [reflexivity | apply Exists_cons_tl; exact Hex].
Qed.

Lemma image_loop_makes (done : list string) :
  forall (rest : list string) (acc : collected) (w : W),
    rewrite = true ->
    Forall (fun file => 5 <= List.length (split (basename file) "_")) done ->
    (rest = [] \/ List.length (split (basename (hd "" rest)) "_") < 5) ->
    filter makes_image (trace (run h (loop (done ++ rest) acc) w)) = map (fun file => make file) done.
Proof.
  induction done as [| file done IH]; intros rest acc w Hrw Hdone Hrest.
  - cbn [app map]. destruct Hrest as [-> | Hbad]; [reflexivity |].
    destruct rest as [| file rest]; [reflexivity |].
    cbn [hd] in Hbad. cbn [image_loop]. rewrite run_bind.
    rewrite (run_image_step_bad _ _ _ _ (suffix_of_short _ Hbad)). reflexivity.
  - apply Forall_cons_iff in Hdone. destruct Hdone as [Hfile Hdone].
    cbn [app image_loop map]. rewrite run_bind.
    destruct (suffix_of_cases file) as [Es | [suffix Es]].
    + apply suffix_of_error in Es. lia.
    + destruct (run_image_step_good file acc w suffix Es) as [[n Hn] [Hmake _]].
      rewrite Hn. cbn [trace]. rewrite filter_app, (Hmake Hrw).
      cbn [app]. f_equal. apply IH; assumption.
Qed.

Lemma image_loop_reads (files : list string) :
  forall (acc : collected) (w : W),
    rewrite = false ->
    (forall path w', fst (h (os_path_exists path) w') = true) ->
    filter writes (trace (run h (loop files acc) w)) = [].
Proof.
  induction files as [| file files IH]; intros acc w Hrw Hall.
  - reflexivity.
  - cbn [image_loop]. rewrite run_bind.
    destruct (suffix_of_cases file) as [Es | [suffix Es]].
    + rewrite (run_image_step_bad _ _ _ _ Es). reflexivity.
    + destruct (run_image_step_good file acc w suffix Es) as [[n Hn] [_ Hread]].
      rewrite Hn. cbn [trace]. rewrite filter_app, (Hread Hrw Hall).
      cbn [app]. apply IH; assumption.
Qed.

End WithDisk.

(** *** [get_image_info] *)

Section WithConfig.

Variable jwql_dir : string.
Context {W : Type}.
Variable h : handler call answer W.

(** The pattern [get_image_info] searches the mirror with and the
    directory it keeps the preview images of a root name in. *)
Local Abbreviation search_filepath file_root :=
  (path_join (path_join (FILESYSTEM_DIR jwql_dir) (slice file_root 0 7))
             (file_root ++ "*.fits")).
Local Abbreviation jpg_dir file_root :=
  (path_join (path_join jwql_dir "preview_images") (slice file_root 0 7)).

Lemma run_get_image_info (file_root : string) (rewrite : bool) (w : W) :
  let all_files := fst (h (glob_glob (search_filepath file_root)) w) in
  let w1 := snd (h (glob_glob (search_filepath file_root)) w) in
  let o := run h (image_loop file_root rewrite (path_join jwql_dir "preview_images")
                             (slice file_root 0 7) all_files (mkCollected [] [] [])) w1 in
  trace (run h (get_image_info jwql_dir file_root rewrite) w)
  = glob_glob (search_filepath file_root) :: trace o /\
  result (run h (get_image_info jwql_dir file_root rewrite) w)
  = match result o with
    | inl e => inl e
    | inr acc => inr (mkImageInfo (all_jpegs acc) (suffixes acc) (num_ints acc) all_files)
    end.
Proof.
  cbv zeta. unfold get_image_info. cbn [bind perform run].
  destruct (h (glob_glob (search_filepath file_root)) w) as [all_files w1].
  cbn [fst snd]. rewrite run_bind.
  destruct (result (run h (image_loop _ _ _ _ all_files _) w1)) as [e | acc];
    cbn; split; try reflexivity.
  rewrite app_nil_r. reflexivity.
Qed.

(** X13.  When [get_image_info] returns, [all_files] is the answer to its
    search of the mirror; [all_jpegs] holds, file by file, the path of
    the first preview image in the directory of the root name;
    [suffixes] holds, file by file, the fifth underscore-separated
    piece of the base name up to its first dot; and the keys of
    [num_ints] are the distinct suffixes in the order in which they
    first occur. *)
Theorem get_image_info_lists (file_root : string) (rewrite : bool) (w : W)
        (image_info : image_info) :
  result (run h (get_image_info jwql_dir file_root rewrite) w) = inr image_info ->
  info_all_files image_info = fst (h (glob_glob (search_filepath file_root)) w) /\
  info_all_jpegs image_info
  = map (jpg_filepath_of (path_join jwql_dir "preview_images") (slice file_root 0 7))
        (info_all_files image_info) /\
  Forall2 (fun file suffix => suffix_of file = inr suffix)
          (info_all_files image_info) (info_suffixes image_info) /\
  keys (info_num_ints image_info) = first_occurrences (info_suffixes image_info).
Proof.
  intros H.
  destruct (run_get_image_info file_root rewrite w) as [_ Hr]. cbv zeta in Hr.
  rewrite Hr in H. clear Hr.
  destruct (result (run h (image_loop _ _ _ _ _ _) _)) as [e | acc] eqn:E; [discriminate |].
  injection H as <-. cbn [info_all_files info_all_jpegs info_suffixes info_num_ints].
  apply image_loop_returns in E. cbn [all_jpegs suffixes num_ints app keys map] in E.
  destruct E as [Hj [found [Hf [Hs Hk]]]].
  split; [reflexivity |].
  split; [exact Hj |].
  rewrite Hs. split; [exact Hf | exact Hk].
Qed.

(** X14.  Given that its calls to the file system and to [PreviewImage]
    return, [get_image_info] raises exactly when the base name of one
    of the files found has fewer than five underscore-separated pieces,
    and what it raises is then the [IndexError] of the index 4. *)
Theorem get_image_info_IndexError (file_root : string) (rewrite : bool) (w : W) :
  let all_files := fst (h (glob_glob (search_filepath file_root)) w) in
  let o := run h (get_image_info jwql_dir file_root rewrite) w in
  (forall e, result o = inl e -> e = IndexError 4) /\
  (result o = inl (IndexError 4) <->
   Exists (fun file => List.length (split (basename file) "_") < 5) all_files).
Proof.
  cbv zeta.
  destruct (run_get_image_info file_root rewrite w) as [_ Hr]. cbv zeta in Hr.
  rewrite Hr. clear Hr.
  destruct (result (run h (image_loop _ _ _ _ _ _) _)) as [e | acc] eqn:E.
  - apply image_loop_raises in E. destruct E as [-> Hex].
    split; [intros e H; injection H as <-; reflexivity |].
    split; [intros _; exact Hex | reflexivity].
  - split; [discriminate |].
    split; [discriminate |].
    intros Hex. exfalso.
    apply image_loop_returns in E. destruct E as [_ [found [Hf _]]].
    revert Hf Hex. generalize (fst (h (glob_glob (search_filepath file_root)) w)) as all_files.
    intros all_files Hf Hex. clear - Hf Hex.
    induction Hf as [| file suffix files found Hfile _ IH].
    + inversion Hex.
    + inversion Hex as [x l Hbad | x l Hbad]; subst.
      * rewrite (suffix_of_short _ Hbad) in Hfile. discriminate.
      * apply IH. exact Hbad.
Qed.

(** X15.  With [rewrite] set, a preview image is made for every file found
    that precedes the first one whose base name is too short, once
    each and in the order found, from the extension [SCI] into the
    directory of the root name; no image is made for a later file. *)
Theorem get_image_info_rewrite (file_root : string) (w : W) (done rest : list string) :
  fst (h (glob_glob (search_filepath file_root)) w) = (done ++ rest)%list ->
  Forall (fun file => 5 <= List.length (split (basename file) "_")) done ->
  (rest = [] \/ List.length (split (basename (hd "" rest)) "_") < 5) ->
  filter makes_image (trace (run h (get_image_info jwql_dir file_root true) w))
  = map (fun file => PreviewImage_make_image file "SCI" (jpg_dir file_root)) done.
Proof.
  intros Hfiles Hdone Hrest.
  destruct (run_get_image_info file_root true w) as [Ht _]. cbv zeta in Ht.
  rewrite Ht, Hfiles. cbn [filter makes_image].
  apply image_loop_makes; [reflexivity | exact Hdone | exact Hrest].
Qed.

(** X16.  Without [rewrite], on a disk where every path asked about exists,
    [get_image_info] makes no image and creates no directory, whether
    it returns or raises. *)
Theorem get_image_info_reads_only (file_root : string) (w : W) :
  (forall path w', fst (h (os_path_exists path) w') = true) ->
  filter writes (trace (run h (get_image_info jwql_dir file_root false) w)) = [].
Proof.
  intros Hall.
  destruct (run_get_image_info file_root false w) as [Ht _]. cbv zeta in Ht.
  rewrite Ht. cbn [filter writes].
  apply image_loop_reads; [reflexivity | exact Hall].
Qed.

(** *** [get_header_info] *)

(** X17.  [get_header_info] asks for the primary header of exactly one file
    and returns the text delivered.  For a name that is not empty and
    holds no slash,
    the file is the one of that name in the directory of the mirror
    named by the first seven characters of the name; for a name that
    starts with a slash it is the named file itself, wherever it
    lies. *)
Theorem get_header_info_path (file : string) (w : W) :
  let o := run h (get_header_info jwql_dir file) w in
  (exists fits_filepath,
      trace o = [fits_getheader_tostring fits_filepath 0 newline] /\
      result o = inr (fst (h (fits_getheader_tostring fits_filepath 0 newline) w)) /\
      (file <> "" -> contains "/" file = false ->
       fits_filepath = (FILESYSTEM_DIR jwql_dir ++ "/" ++ take 7 file) ++ "/" ++ file) /\
      (prefix "/" file = true -> fits_filepath = file)).
Proof.
  cbv zeta. unfold get_header_info. cbn [perform run].
  exists (path_join (path_join (FILESYSTEM_DIR jwql_dir) (slice file 0 7)) file).
  destruct (h (fits_getheader_tostring _ _ _) w) as [header w1].
  cbn [trace result fst].
  split; [reflexivity |]. split; [reflexivity |]. split.
  - intros Hne Hfree. unfold slice. cbn [Nat.sub drop].
    replace (drop 0 file) with file by (destruct file; reflexivity).
    apply path_in_directory.
    + destruct file; [contradiction | discriminate].
    + apply contains_char_take. exact Hfree.
    + exact Hfree.
  - intros Habs. unfold path_join at 1. rewrite Habs. reflexivity.
Qed.

End WithConfig.

(** The loop stops at the short name, after the image of the first
    file has been made. *)
Example short_name_run :
  let o := run bare_disk (get_image_info "/data/jwql" "jw86600" true) tt in
  result o = inl (IndexError 4) /\
  filter writes (trace o)
  = [os_makedirs "/data/jwql/preview_images/jw86600";
     PreviewImage_make_image
       "/data/jwql/filesystem/jw86600/jw86600008001_02101_00007_guider2_uncal.fits"
       "SCI" "/data/jwql/preview_images/jw86600"].
Proof. split; reflexivity. Qed.

Lemma get_image_info_lists_witness :
  let image_info :=
    mkImageInfo
      ["/data/jwql/preview_images/jw86600/jw86600008001_02101_00007_guider2_uncal_integ0.jpg";
       "/data/jwql/preview_images/jw86600/jw86600008001_02101_00007_guider2_rate_integ0.jpg"]
      ["uncal"; "rate"]
      [("uncal", 1); ("rate", 1)]
      ["/data/jwql/filesystem/jw86600/jw86600008001_02101_00007_guider2_uncal.fits";
       "/data/jwql/filesystem/jw86600/jw86600008001_02101_00007_guider2_rate.fits"] in
  result (run full_disk
              (get_image_info "/data/jwql" "jw86600008001_02101_00007_guider2" false) tt)
  = inr image_info /\
  keys (info_num_ints image_info) = first_occurrences (info_suffixes image_info).
Proof.
  cbv zeta. split; [reflexivity |].
  apply (get_image_info_lists "/data/jwql" full_disk
                              "jw86600008001_02101_00007_guider2" false tt).
  reflexivity.
Defined.

Lemma get_image_info_rewrite_witness :
  filter makes_image
         (trace (run full_disk
                     (get_image_info "/data/jwql" "jw86600008001_02101_00007_guider2" true) tt))
  = [PreviewImage_make_image
       "/data/jwql/filesystem/jw86600/jw86600008001_02101_00007_guider2_uncal.fits"
       "SCI" "/data/jwql/preview_images/jw86600";
     PreviewImage_make_image
       "/data/jwql/filesystem/jw86600/jw86600008001_02101_00007_guider2_rate.fits"
       "SCI" "/data/jwql/preview_images/jw86600"].
Proof.
  apply (get_image_info_rewrite
           "/data/jwql" full_disk "jw86600008001_02101_00007_guider2" tt
           ["/data/jwql/filesystem/jw86600/jw86600008001_02101_00007_guider2_uncal.fits";
            "/data/jwql/filesystem/jw86600/jw86600008001_02101_00007_guider2_rate.fits"]
           []).
  - reflexivity.
  - repeat apply Forall_cons; [vm_compute; lia | vm_compute; lia | apply Forall_nil].
  - left. reflexivity.
Defined.

Lemma get_image_info_IndexError_witness :
  result (run bare_disk (get_image_info "/data/jwql" "jw86600" false) tt)
  = inl (IndexError 4).
Proof.
  apply (proj2 (get_image_info_IndexError "/data/jwql" bare_disk "jw86600" false tt)).
  apply Exists_cons_tl, Exists_cons_hd. vm_compute. lia.
Defined.

Lemma get_header_info_path_witness :
  exists fits_filepath,
    trace (run full_disk
               (get_header_info "/data/jwql" "jw86600008001_02101_00007_guider2_uncal.fits")
               tt)
    = [fits_getheader_tostring fits_filepath 0 newline] /\
    fits_filepath
    = "/data/jwql/filesystem/jw86600/jw86600008001_02101_00007_guider2_uncal.fits".
Proof.
  destruct (get_header_info_path "/data/jwql" full_disk
                                 "jw86600008001_02101_00007_guider2_uncal.fits" tt)
    as [fits_filepath [Htrace [_ [Hplain _]]]].
  exists fits_filepath. split; [exact Htrace |].
  rewrite Hplain; [reflexivity | discriminate | reflexivity].
Defined.

Lemma get_image_info_reads_only_witness :
  filter writes
         (trace (run full_disk
                     (get_image_info "/data/jwql" "jw86600008001_02101_00007_guider2" false) tt))
  = [].
Proof.
  apply (get_image_info_reads_only "/data/jwql" full_disk). intros path w'. reflexivity.
Defined.

End ImageFacts.

(* ================================================================= *)
(** * data_containers.py: [get_proposal_info] *)

Module ProposalInfoFacts.

Import Python Glob DataContainers ProposalInfo.
Import StringFacts MirrorFacts RootnameFacts LookupFacts.

Local Open Scope string_scope.

(** *** The last two components of a path *)

Lemma split_char_snoc (a : ascii) (pre x : string) :
  contains (String a "") x = false ->
  split (pre ++ String a x) (String a "") = (split pre (String a "") ++ [x])%list.
Proof.
  intros Hx. unfold split. induction pre as [| c pre IH]; simpl append.
  - cbn [split_from]. rewrite prefix_cons, Ascii.eqb_refl, prefix_nil. cbn [andb].
    cbn [String.length Nat.sub].
    change (split_from (String a "") x 0) with (split x (String a "")).
    rewrite (split_no_occurrence _ _ Hx). reflexivity.
  - cbn [split_from]. cbn [String.length Nat.sub].
    rewrite !prefix_cons, !prefix_nil, IH.
    destruct (Ascii.eqb a c); cbn [andb]; [reflexivity |].
    pose proof (split_from_nonempty (String a "") pre 0) as Hne.
    destruct (split_from (String a "") pre 0) as [| h t]; [contradiction | reflexivity].
Qed.

Lemma last_two_snoc (l : list string) (d n : string) :
  last_two ((l ++ [d]) ++ [n])%list = [d; n].
Proof.
  unfold last_two. rewrite <- app_assoc, length_app. cbn [List.length app].
  replace (List.length l + 2 - 2) with (List.length l) by lia.
  rewrite skipn_app, skipn_all, Nat.sub_diag. reflexivity.
Qed.

(** The text kept of a path two levels below a directory: the name of
    the directory the file is in and the name of the file. *)
Lemma last_two_components (base dirname name : string) :
  base <> "" -> ends_with_sep base = false ->
  dirname <> "" -> contains "/" dirname = false -> contains "/" name = false ->
  join "/" (last_two (split (path_join (path_join base dirname) name) "/"))
  = dirname ++ "/" ++ name.
Proof.
  intros Hb1 Hb2 Hne Hd Hn.
  rewrite (path_in_tree base Hb1 Hb2 dirname name Hne Hd Hn).
  rewrite append_assoc. simpl append at 1.
  rewrite (split_char_snoc "/" _ name Hn).
  simpl append at 2.
  rewrite (split_char_snoc "/" base dirname Hd).
  rewrite last_two_snoc. reflexivity.
Qed.

(** *** One pass of the loop *)

Lemma magic_thumbnail_pattern (proposal tail : string) :
  contains "*" tail = true -> has_magic ("jw" ++ proposal ++ tail) = true.
Proof.
  intros H. unfold has_magic. rewrite !contains_char_append, H.
  rewrite !orb_true_r. reflexivity.
Qed.

Lemma modelled_proposal_pattern (proposal tail : string) :
  contains "/" proposal = false -> contains "[" proposal = false ->
  contains "/" tail = false -> contains "[" tail = false ->
  modelled ("jw" ++ proposal ++ tail) = true.
Proof.
  intros H1 H2 H3 H4. unfold modelled.
  rewrite !contains_char_append, H1, H2, H3, H4. reflexivity.
Qed.

Section Trees.

Variable jwql_dir : string.
Variable fs thumbs : filesystem.
Variable set_iter : list string -> list string.

Hypothesis thumbs_names :
  forall dirname, Forall (fun name => slash_free name = true) (listdir thumbs dirname).

(** The thumbnail entry and the file count of a proposal, read off the
    two directories of the proposal. *)
Local Abbreviation thumbnail_of proposal :=
  (match glob1 (listdir thumbs ("jw" ++ proposal)) ("jw" ++ proposal ++ "*rate*.thumb") with
   | name :: _ => ThumbnailPath (("jw" ++ proposal) ++ "/" ++ name)
   | [] => EmptyList
   end).
Local Abbreviation count_of proposal :=
  (List.length (glob1 (listdir fs ("jw" ++ proposal)) ("jw" ++ proposal ++ "*.fits"))).

Lemma proposal_step_literal (proposal : string) :
  glob_literal proposal = true ->
  proposal_step jwql_dir fs thumbs (path_join jwql_dir "thumbnails") proposal
  = Some (thumbnail_of proposal, count_of proposal).
Proof.
  intros Hlit. apply glob_literal_parts in Hlit. destruct Hlit as [H1 [H2 [H3 H4]]].
  unfold proposal_step.
  rewrite (modelled_directory proposal H1 H4).
  rewrite !modelled_proposal_pattern by (assumption || reflexivity).
  cbn [andb].
  rewrite !(glob_in_literal_directory _ _ _ _ (literal_directory proposal H2 H3 H4)).
  unfold glob_in_dir. rewrite !magic_thumbnail_pattern by reflexivity.
  rewrite length_map. f_equal. f_equal.
  pose proof (Forall_filter _
                (fun name => (ishidden ("jw" ++ proposal ++ "*rate*.thumb")
                              || negb (ishidden name))
                             && fnmatch ("jw" ++ proposal ++ "*rate*.thumb") name)
                _ (thumbs_names ("jw" ++ proposal))) as Hnames.
  fold (glob1 (listdir thumbs ("jw" ++ proposal)) ("jw" ++ proposal ++ "*rate*.thumb"))
    in Hnames.
  destruct (glob1 (listdir thumbs ("jw" ++ proposal)) ("jw" ++ proposal ++ "*rate*.thumb"))
    as [| name names]; [reflexivity |].
  cbn [map]. f_equal.
  destruct (tree_root jwql_dir "thumbnails") as [Hb1 Hb2]; [discriminate | reflexivity |].
  apply last_two_components; try assumption.
  - discriminate.
  - apply Forall_inv in Hnames. unfold slash_free in Hnames.
    apply negb_true_iff. exact Hnames.
Qed.

Lemma proposal_loop_lengths (thumbnail_dir : string) (proposals : list string) :
  forall thumbnail_paths num_files thumbnail_paths' num_files',
    proposal_loop jwql_dir fs thumbs thumbnail_dir proposals thumbnail_paths num_files
    = Some (thumbnail_paths', num_files') ->
    List.length thumbnail_paths' = List.length thumbnail_paths + List.length proposals /\
    List.length num_files' = List.length num_files + List.length proposals.
Proof.
  induction proposals as [| proposal rest IH]; intros tp nf tp' nf' H.
  - cbn in H. injection H as <- <-. cbn. lia.
  - cbn [proposal_loop] in H.
    destruct (proposal_step jwql_dir fs thumbs thumbnail_dir proposal) as [[t n] |];
      [| discriminate].
    apply IH in H. rewrite !length_app in H. cbn [List.length] in *. lia.
Qed.

Lemma proposal_loop_literal (proposals : list string) :
  Forall (fun proposal => glob_literal proposal = true) proposals ->
  forall thumbnail_paths num_files,
    proposal_loop jwql_dir fs thumbs (path_join jwql_dir "thumbnails")
                  proposals thumbnail_paths num_files
    = Some ((thumbnail_paths ++ map (fun proposal => thumbnail_of proposal) proposals)%list,
            (num_files ++ map (fun proposal => count_of proposal) proposals)%list).
Proof.
  induction 1 as [| proposal rest Hp _ IH]; intros tp nf.
  - cbn. rewrite !app_nil_r. reflexivity.
  - cbn [proposal_loop]. rewrite (proposal_step_literal proposal Hp).
    rewrite IH. cbn [map]. rewrite <- !app_assoc. reflexivity.
Qed.

End Trees.

(** *** [get_proposal_info] *)

(** X18.  The four entries of the dictionary go together: [proposals] holds
    the characters 2 to 6 of the base name of each path, as the set
    enumerates them, [num_proposals] is its length, and
    [thumbnail_paths] and [num_files] have one entry for each
    proposal. *)
Theorem get_proposal_info_parallel
        (jwql_dir : string) (fs thumbs : filesystem) (set_iter : list string -> list string)
        (filepaths : list string) (proposal_info : proposal_info) :
  get_proposal_info jwql_dir fs thumbs set_iter filepaths = Some proposal_info ->
  info_proposals proposal_info = set_iter (map proposal_of_filepath filepaths) /\
  num_proposals proposal_info = List.length (info_proposals proposal_info) /\
  List.length (thumbnail_paths proposal_info) = num_proposals proposal_info /\
  List.length (num_files proposal_info) = num_proposals proposal_info.
Proof.
  unfold get_proposal_info.
  destruct (proposal_loop _ _ _ _ _ _ _) as [[tp nf] |] eqn:E; [| discriminate].
  intros H. injection H as <-. cbn.
  apply proposal_loop_lengths in E. cbn in E. tauto.
Qed.


Lemma get_proposal_info_parallel_witness :
  let proposal_info :=
    mkProposalInfo 2 ["86600"; "00327"]
                   [ThumbnailPath "jw86600/jw86600008001_02101_00007_guider2_rate_integ0.thumb";
                    EmptyList]
                   [3; 2] in
  info_proposals proposal_info = ["86600"; "00327"] /\
  num_proposals proposal_info = List.length (info_proposals proposal_info) /\
  List.length (thumbnail_paths proposal_info) = num_proposals proposal_info /\
  List.length (num_files proposal_info) = num_proposals proposal_info.
Proof.
  cbv zeta.
  apply (get_proposal_info_parallel
           Examples.jwql_dir Examples.mirror example_thumbnails Examples.in_list_order
           example_filepaths).
  reflexivity.
Defined.


End ProposalInfoFacts.

(* ================================================================= *)
(** * data_containers.py: [thumbnails_ajax] *)

Module AjaxFacts.

Import EngineeringDatabase GetMnemonicsSpec EngineeringDatabaseFacts DictionaryFacts.
Import Python Glob DataContainers ThumbnailsAjax.

Local Open Scope string_scope.

(** *** Programs that call nothing *)

Section Quiet.

Context {W : Type}.
Variable h : handler call answer W.

Lemma run_lift {A : Type} (m : Exc A) (w : W) : run h (lift m) w = mkOutcome m w [].
Proof. destruct m; reflexivity. Qed.

Lemma run_bind_lift {A B : Type} (m : Exc A) (f : A -> Web B) (w : W) :
  run h (bind (lift m) f) w
  = match m with
    | inl e => mkOutcome (inl e) w []
    | inr a => run h (f a) w
    end.
Proof. destruct m; reflexivity. Qed.

(** A program that issues no call and leaves the world as it is. *)
Local Abbreviation quiet m :=
  (forall w : W, trace (run h m w) = [] /\ world (run h m w) = w).

Lemma quiet_Ret {A : Type} (a : A) : quiet (Ret a).
Proof. intros w. split; reflexivity. Qed.

Lemma quiet_lift {A : Type} (m : Exc A) : quiet (lift m).
Proof. intros w. rewrite run_lift. split; reflexivity. Qed.

Lemma quiet_bind {A B : Type} (m : Web A) (f : A -> Web B) :
  quiet m -> (forall a, quiet (f a)) -> quiet (bind m f).
Proof.
  intros Hm Hf w. rewrite run_bind. destruct (Hm w) as [Ht Hw].
  destruct (result (run h m w)) as [e | a]; cbn [trace world].
  - split; assumption.
  - cbv zeta. cbn [trace world]. rewrite Ht, Hw. apply Hf.
Qed.

End Quiet.

(** *** The parts of the loop body *)

Lemma get_length (s : string) (i : nat) (c : ascii) :
  String.get i s = Some c -> i < String.length s.
Proof.
  revert i. induction s as [| d s IH]; intros i H; [discriminate |].
  destruct i as [| i]; cbn [String.length]; [lia |].
  cbn [String.get] in H. apply IH in H. lia.
Qed.

Lemma workaround_length (rootname : string) (filename_dict : list (string * string)) :
  workaround rootname = inr filename_dict -> 17 <= String.length rootname.
Proof.
  unfold workaround, str_index.
  destruct (String.get 16 rootname) as [c |] eqn:E; [| discriminate].
  intros _. apply get_length in E. lia.
Qed.

Section Mirror.

Variable jwql_dir : string.
Variable fs : filesystem.
Variable Monitors : Type.
Variable MONITORS : Monitors.
Variable filename_parser : string -> Exc (list (string * string)).
Variable int : string -> Exc Z.
Variable set_iter : list string -> list string.

Local Abbreviation parse_rootname := (ThumbnailsAjax.parse_rootname filename_parser).
Local Abbreviation suffixes_of := (ThumbnailsAjax.suffixes_of filename_parser).
Local Abbreviation rootname_loop :=
  (ThumbnailsAjax.rootname_loop jwql_dir fs filename_parser).
Local Abbreviation thumbnails_ajax :=
  (ThumbnailsAjax.thumbnails_ajax jwql_dir fs Monitors MONITORS filename_parser int set_iter).

Lemma parse_rootname_cases (rootname : string) (filename_dict : list (string * string)) :
  parse_rootname rootname = inr filename_dict ->
  filename_parser rootname = inr filename_dict \/
  ((exists msg, filename_parser rootname = inl (ValueError msg)) /\
   17 <= String.length rootname /\
   workaround rootname = inr filename_dict).
Proof.
  unfold ThumbnailsAjax.parse_rootname.
  destruct (filename_parser rootname) as [e | d]; [| intros H; left; exact H].
  destruct e; try discriminate.
  intros H. right. split; [eexists; reflexivity |].
  split; [exact (workaround_length _ _ H) | exact H].
Qed.

Lemma suffixes_of_Forall2 (files : list string) :
  forall found,
    suffixes_of files = inr found ->
    Forall2 (fun filename suffix =>
               exists parsed, filename_parser filename = inr parsed /\
                              dict_get parsed "suffix" = inr suffix)
            files found.
Proof.
  induction files as [| filename files IH]; intros found H.
  - cbn in H. injection H as <-. constructor.
  - cbn [ThumbnailsAjax.suffixes_of] in H.
    destruct (filename_parser filename) as [e | parsed] eqn:Ep; [discriminate |].
    cbn [exc_bind] in H.
    destruct (dict_get parsed "suffix") as [e | suffix] eqn:Es; [discriminate |].
    cbn [exc_bind] in H.
    destruct (suffixes_of files) as [e | others]; [discriminate |].
    cbn [exc_bind] in H. injection H as <-.
    constructor; [exists parsed; split; assumption | apply IH; reflexivity].
Qed.

Lemma menu_Forall2 (key : string) (entries : OrderedDict file_entry) :
  forall values,
    menu key entries = inr values ->
    Forall2 (fun item value => dict_get (filename_dict (snd item)) key = inr value)
            entries values.
Proof.
  induction entries as [| [rootname entry] entries IH]; intros values H.
  - cbn in H. injection H as <-. constructor.
  - cbn [menu] in H.
    destruct (dict_get (filename_dict entry) key) as [e | value] eqn:Ev; [discriminate |].
    cbn [exc_bind] in H.
    destruct (menu key entries) as [e | others]; [discriminate |].
    cbn [exc_bind] in H. injection H as <-.
    constructor; [exact Ev | apply IH; reflexivity].
Qed.

(** What the loop stores under a rootname. *)
Local Abbreviation stored item :=
  (parse_rootname (fst item) = inr (filename_dict (snd item)) /\
   get_filenames_by_rootname jwql_dir fs (fst item) = Some (available_files (snd item)) /\
   expstart (snd item) = 5000%float /\
   suffixes_of (available_files (snd item)) = inr (suffixes (snd item))).

Section Run.

Context {W : Type}.
Variable h : handler call answer W.

Lemma run_rootname_loop (rootnames : list string) :
  forall (entries : OrderedDict file_entry) (w : W),
    let o := run h (rootname_loop rootnames entries) w in
    trace o = [] /\ world o = w /\
    forall entries',
      result o = inr (Some entries') ->
      keys entries' = fold_left add_key rootnames (keys entries) /\
      (Forall (fun item => stored item) entries ->
       Forall (fun item => stored item) entries').
Proof.
  induction rootnames as [| rootname rest IH]; intros entries w; cbv zeta.
  - cbn. split; [reflexivity |]. split; [reflexivity |].
    intros entries' H. injection H as <-. split; [reflexivity | tauto].
  - cbn [ThumbnailsAjax.rootname_loop]. rewrite run_bind_lift.
    destruct (parse_rootname rootname) as [e | parsed] eqn:Ep.
    + cbn. split; [reflexivity |]. split; [reflexivity | discriminate].
    + destruct (get_filenames_by_rootname jwql_dir fs rootname) as [files |] eqn:Ef.
      * unfold get_expstart. cbn [bind]. rewrite run_bind_lift.
        destruct (suffixes_of files) as [e | found] eqn:Es.
        -- cbn. split; [reflexivity |]. split; [reflexivity | discriminate].
        -- specialize (IH (setitem entries rootname
                                   (mkFileEntry parsed files 5000%float found)) w).
           cbv zeta in IH. destruct IH as [Ht [Hw IH]].
           split; [exact Ht |]. split; [exact Hw |].
           intros entries' H. apply IH in H. destruct H as [Hk Hs].
           split; [rewrite Hk, keys_setitem; reflexivity |].
           intros Hall. apply Hs. apply setitem_Forall; [exact Hall |].
           cbn [fst snd filename_dict available_files expstart suffixes].
           repeat split; assumption.
      * cbn. split; [reflexivity |]. split; [reflexivity | discriminate].
Qed.

(** The run of [thumbnails_ajax], up to the loop and after it. *)
Lemma run_thumbnails_ajax (inst : string) (proposal : option string) (w : W)
      (data : data_dict Monitors) :
  result (run h (thumbnails_ajax inst proposal) w) = inr (Some data) ->
  exists filepaths rootnames detectors proposals,
    get_filenames_by_instrument jwql_dir fs inst = inr filepaths /\
    match proposal with
    | Some p =>
        exists n, int p = inr n /\
                  rootnames = filter (fun rootname =>
                                        String.eqb (slice rootname 2 7) (format_05d n))
                                     (set_iter (map file_id_of filepaths))
    | None => rootnames = set_iter (map file_id_of filepaths)
    end /\
    result (run h (rootname_loop rootnames []) w) = inr (Some (file_data data)) /\
    menu "detector" (file_data data) = inr detectors /\
    menu "program_id" (file_data data) = inr proposals /\
    data = mkDataDict inst (file_data data) MONITORS
                      match proposal with
                      | Some _ => [("detector", detectors)]
                      | None => [("detector", detectors); ("proposal", proposals)]
                      end
                      proposal.
Proof.
  unfold ThumbnailsAjax.thumbnails_ajax. rewrite run_bind_lift.
  destruct (get_filenames_by_instrument jwql_dir fs inst) as [e | filepaths];
    [discriminate |].
  assert (Hrest :
            forall rootnames,
              result
                (run h
                   (bind (rootname_loop rootnames [])
                      (fun entries : option (OrderedDict file_entry) =>
                         match entries with
                         | None => Ret None
                         | Some file_data =>
                             bind (lift (menu "detector" file_data))
                               (fun detectors =>
                                  bind (lift (menu "program_id" file_data))
                                    (fun proposals =>
                                       Ret (Some (mkDataDict inst file_data MONITORS
                                                    match proposal with
                                                    | Some _ => [("detector", detectors)]
                                                    | None => [("detector", detectors);
                                                               ("proposal", proposals)]
                                                    end proposal))))
                         end)) w)
              = inr (Some data) ->
              exists detectors proposals,
                result (run h (rootname_loop rootnames []) w) = inr (Some (file_data data)) /\
                menu "detector" (file_data data) = inr detectors /\
                menu "program_id" (file_data data) = inr proposals /\
                data = mkDataDict inst (file_data data) MONITORS
                                  match proposal with
                                  | Some _ => [("detector", detectors)]
                                  | None => [("detector", detectors); ("proposal", proposals)]
                                  end
                                  proposal).
  { intros rootnames H. rewrite run_bind in H.
    destruct (run_rootname_loop rootnames [] w) as [_ [Hw _]]. cbv zeta in Hw.
    destruct (result (run h (rootname_loop rootnames []) w)) as [e | [entries |]];
      [discriminate | | discriminate].
    cbv zeta in H. cbn [result] in H. rewrite Hw in H.
    rewrite run_bind_lift in H.
    destruct (menu "detector" entries) as [e | detectors] eqn:Ed; [discriminate |].
    rewrite run_bind_lift in H.
    destruct (menu "program_id" entries) as [e | proposals] eqn:Epr; [discriminate |].
    cbn in H. injection H as <-. cbn [file_data].
    exists detectors, proposals. repeat split; assumption. }
  destruct proposal as [p |].
  - rewrite run_bind. rewrite run_bind_lift.
    destruct (int p) as [e | n]; [discriminate |].
    cbn [run result world trace]. cbv zeta. cbn [result].
    intros H.
    match type of H with
    | result (run h ?m w) = _ =>
        destruct (Hrest (filter (fun rootname =>
                                   String.eqb (slice rootname 2 7) (format_05d n))
                                (set_iter (map file_id_of filepaths))))
          as [detectors [proposals Hd]]
    end.
    + exact H.
    + exists filepaths,
        (filter (fun rootname => String.eqb (slice rootname 2 7) (format_05d n))
                (set_iter (map file_id_of filepaths))),
        detectors, proposals.
      split; [reflexivity |]. split; [exists n; split; reflexivity | exact Hd].
  - cbn [bind]. intros H.
    destruct (Hrest (set_iter (map file_id_of filepaths)) H) as [detectors [proposals Hd]].
    exists filepaths, (set_iter (map file_id_of filepaths)), detectors, proposals.
    split; [reflexivity |]. split; [reflexivity | exact Hd].
Qed.

(** X20.  When [thumbnails_ajax] returns, [file_data] has one entry for each
    rootname of the files of the instrument (of the given proposal, if
    one is given), under distinct keys.  The entry of a rootname holds
    the parts [filename_parser] found, or, for a rootname the parser
    rejects, the parts cut out by position from a rootname of at least
    17 characters; the files [get_filenames_by_rootname] finds; the
    exposure start 5000.0; and the suffix the parser finds in each of
    those files, in order. *)
Theorem thumbnails_ajax_file_data (inst : string) (proposal : option string) (w : W)
        (data : data_dict Monitors) :
  result (run h (thumbnails_ajax inst proposal) w) = inr (Some data) ->
  (exists filepaths,
      get_filenames_by_instrument jwql_dir fs inst = inr filepaths /\
      keys (file_data data)
      = first_occurrences
          match proposal with
          | None => set_iter (map file_id_of filepaths)
          | Some p =>
              match int p with
              | inr n => filter (fun rootname =>
                                   String.eqb (slice rootname 2 7) (format_05d n))
                                (set_iter (map file_id_of filepaths))
              | inl _ => []
              end
          end) /\
  NoDup (keys (file_data data)) /\
  Forall (fun item =>
            (filename_parser (fst item) = inr (filename_dict (snd item)) \/
             ((exists msg, filename_parser (fst item) = inl (ValueError msg)) /\
              17 <= String.length (fst item) /\
              workaround (fst item) = inr (filename_dict (snd item)))) /\
            get_filenames_by_rootname jwql_dir fs (fst item)
            = Some (available_files (snd item)) /\
            expstart (snd item) = 5000%float /\
            Forall2 (fun filename suffix =>
                       exists parsed, filename_parser filename = inr parsed /\
                                      dict_get parsed "suffix" = inr suffix)
                    (available_files (snd item)) (suffixes (snd item)))
         (file_data data).
Proof.
  intros H. apply run_thumbnails_ajax in H.
  destruct H as [filepaths [rootnames [detectors [proposals [Hf [Hr [Hloop _]]]]]]].
  destruct (run_rootname_loop rootnames [] w) as [_ [_ Hl]]. cbv zeta in Hl.
  destruct (Hl _ Hloop) as [Hk Hs]. clear Hl. cbn [keys map] in Hk.
  fold (first_occurrences rootnames) in Hk.
  split; [| split].
  - exists filepaths. split; [exact Hf |]. rewrite Hk. f_equal.
    destruct proposal as [p |]; [| exact Hr].
    destruct Hr as [n [-> ->]]. reflexivity.
  - rewrite Hk. apply first_occurrences_NoDup.
  - specialize (Hs (Forall_nil _)). revert Hs. apply Forall_impl.
    intros item [Hp [Ha [He Hsu]]].
    split; [apply parse_rootname_cases; exact Hp |].
    split; [exact Ha |]. split; [exact He |].
    apply suffixes_of_Forall2. exact Hsu.
Qed.

(** X21.  When [thumbnails_ajax] returns, [inst], [prop] and [tools] are the
    arguments and [MONITORS]; the detector menu holds the detector of
    every entry of [file_data], one for each rootname in the order of
    the entries, repeated values included, and so does the proposal
    menu with the program id; the proposal menu is present exactly when
    no proposal was given. *)
Theorem thumbnails_ajax_menus (inst : string) (proposal : option string) (w : W)
        (data : data_dict Monitors) :
  result (run h (thumbnails_ajax inst proposal) w) = inr (Some data) ->
  data_inst data = inst /\ data_prop data = proposal /\ data_tools data = MONITORS /\
  exists detectors proposals,
    Forall2 (fun item value => dict_get (filename_dict (snd item)) "detector" = inr value)
            (file_data data) detectors /\
    Forall2 (fun item value => dict_get (filename_dict (snd item)) "program_id" = inr value)
            (file_data data) proposals /\
    data_dropdown_menus data
    = match proposal with
      | Some _ => [("detector", detectors)]
      | None => [("detector", detectors); ("proposal", proposals)]
      end.
Proof.
  intros H. apply run_thumbnails_ajax in H.
  destruct H as [filepaths [rootnames [detectors [proposals [_ [_ [_ [Hd [Hp Hdata]]]]]]]]].
  rewrite Hdata. cbn [data_inst data_prop data_tools data_dropdown_menus file_data].
  split; [reflexivity |]. split; [reflexivity |]. split; [reflexivity |].
  exists detectors, proposals.
  split; [apply menu_Forall2; exact Hd |].
  split; [apply menu_Forall2; exact Hp | reflexivity].
Qed.

(** X22.  [thumbnails_ajax] issues no call to the MAST session, whether it
    returns or raises, and leaves the session as it was. *)
Theorem thumbnails_ajax_offline (inst : string) (proposal : option string) (w : W) :
  trace (run h (thumbnails_ajax inst proposal) w) = [] /\
  world (run h (thumbnails_ajax inst proposal) w) = w.
Proof.
  revert w. unfold ThumbnailsAjax.thumbnails_ajax.
  apply quiet_bind; [apply quiet_lift | intros filepaths].
  apply quiet_bind.
  - destruct proposal as [p |]; [| apply quiet_Ret].
    apply quiet_bind; [apply quiet_lift | intros n; apply quiet_Ret].
  - intros rootnames. apply quiet_bind.
    + intros w. destruct (run_rootname_loop rootnames [] w) as [Ht [Hw _]].
      split; assumption.
    + intros [entries |]; [| apply quiet_Ret].
      apply quiet_bind; [apply quiet_lift | intros detectors].
      apply quiet_bind; [apply quiet_lift | intros proposals; apply quiet_Ret].
Qed.

End Run.

End Mirror.

(** The guider files of [Examples.mirror]: two rootnames, each with its
    files and their suffixes. *)
Example thumbnails_ajax_guider :
  result (run MastSession.session
              (ThumbnailsAjax.thumbnails_ajax
                 Examples.jwql_dir Examples.mirror unit tt example_parser Examples.no_int
                 Examples.in_list_order "FGS" None)
              false)
  = inr (Some (mkDataDict "FGS"
                 [("jw86600008001_02101_00007_guider2",
                   mkFileEntry [("program_id", "86600"); ("detector", "guider2");
                                ("suffix", "guider2")]
                               ["jw86600008001_02101_00007_guider2_rate.fits";
                                "jw86600008001_02101_00007_guider2_uncal.fits"]
                               5000%float ["rate"; "uncal"]);
                  ("jw86600008001_02101_00007_guider1",
                   mkFileEntry [("program_id", "86600"); ("detector", "guider1");
                                ("suffix", "guider1")]
                               ["jw86600008001_02101_00007_guider1_uncal.fits"]
                               5000%float ["uncal"])]
                 tt
                 [("detector", ["guider2"; "guider1"]); ("proposal", ["86600"; "86600"])]
                 None)).
Proof. vm_compute. reflexivity. Qed.

(** A file outside the naming convention with a short name: the
    workaround indexes past the end of the rootname. *)
Example thumbnails_ajax_stray :
  result (run MastSession.session
              (ThumbnailsAjax.thumbnails_ajax
                 Examples.jwql_dir Examples.stray_mirror unit tt example_parser
                 Examples.no_int Examples.in_list_order "NIRCam" None)
              false)
  = inl (IndexError 16).
Proof. vm_compute. reflexivity. Qed.

Lemma thumbnails_ajax_file_data_witness :
  exists data,
    result (run MastSession.session
                (ThumbnailsAjax.thumbnails_ajax
                   Examples.jwql_dir Examples.mirror unit tt example_parser Examples.no_int
                   Examples.in_list_order "FGS" None)
                false)
    = inr (Some data) /\
    NoDup (keys (file_data data)).
Proof.
  eexists. split; [vm_compute; reflexivity |].
  apply (thumbnails_ajax_file_data
           Examples.jwql_dir Examples.mirror unit tt example_parser Examples.no_int
           Examples.in_list_order MastSession.session "FGS" None false).
  vm_compute. reflexivity.
Defined.

Lemma thumbnails_ajax_menus_witness :
  exists data,
    result (run MastSession.session
                (ThumbnailsAjax.thumbnails_ajax
                   Examples.jwql_dir Examples.mirror unit tt example_parser Examples.no_int
                   Examples.in_list_order "FGS" None)
                false)
    = inr (Some data) /\
    data_inst data = "FGS".
Proof.
  eexists. split; [vm_compute; reflexivity |].
  apply (thumbnails_ajax_menus
           Examples.jwql_dir Examples.mirror unit tt example_parser Examples.no_int
           Examples.in_list_order MastSession.session "FGS" None false).
  vm_compute. reflexivity.
Defined.

End AjaxFacts.

(* ================================================================= *)
(** * data_containers.py: [get_preview_images_by_instrument] and
      [get_thumbnails_by_instrument] *)

Module ByInstrumentFacts.

Import Python Glob DataContainers Lookups ThumbnailsAjax ByInstrument.
Import StringFacts MirrorFacts RootnameFacts AjaxFacts.

Local Open Scope string_scope.

(** *** Letter case *)

Lemma upper_lower_char (c : ascii) : upper_char (lower_char c) = upper_char c.
Proof. destruct c as [[] [] [] [] [] [] [] []]; reflexivity. Qed.

Lemma capitalised (first1 first2 : ascii) (rest1 rest2 : string) :
  lower (String first1 rest1) = lower (String first2 rest2) ->
  upper (String first1 "") ++ lower rest1 = upper (String first2 "") ++ lower rest2.
Proof.
  cbn [lower upper]. intros H. injection H as Hc Hr.
  rewrite <- (upper_lower_char first1), Hc, upper_lower_char, Hr. reflexivity.
Qed.

(** *** Base names of the paths of [glob] *)

Lemma ends_with_sep_split (a : string) :
  ends_with_sep a = true -> exists a', a = a' ++ "/".
Proof.
  induction a as [| c a IH]; [discriminate |].
  rewrite ends_with_sep_cons. destruct a as [| d a].
  - intros H. apply Ascii.eqb_eq in H. subst c. exists "". reflexivity.
  - intros H. destruct (IH H) as [a' ->]. exists (String c a'). reflexivity.
Qed.

Lemma basename_path_join (a name : string) :
  contains "/" name = false -> basename (path_join a name) = name.
Proof.
  intros Hn. unfold path_join. rewrite (slash_free_no_prefix _ Hn).
  destruct (String.eqb a "") eqn:Ea.
  - apply String.eqb_eq in Ea. subst a. cbn [orb append].
    unfold basename. rewrite (split_no_occurrence _ _ Hn). reflexivity.
  - cbn [orb]. destruct (ends_with_sep a) eqn:Es.
    + destruct (ends_with_sep_split a Es) as [a' ->].
      rewrite append_assoc. apply basename_in_directory. exact Hn.
    + apply basename_in_directory. exact Hn.
Qed.

Lemma map_filter_comm {A B : Type} (f : A -> B) (p : B -> bool) (l : list A) :
  map f (filter (fun x => p (f x)) l) = filter p (map f l).
Proof.
  induction l as [| x l IH]; [reflexivity |].
  cbn [filter map]. destruct (p (f x)); cbn [map]; rewrite IH; reflexivity.
Qed.

(** The names [glob] finds two levels below a directory, for a pattern
    with a star in both places: the names that match in the visible
    directories, directory by directory. *)
Lemma two_level_names (base : string) (tree : filesystem) (pattern : string) :
  (forall dirname, Forall (fun name => slash_free name = true) (listdir tree dirname)) ->
  has_magic pattern = true ->
  map basename (glob_two_levels base tree "*" pattern)
  = flat_map (fun dirname => glob1 (listdir tree dirname) pattern)
             (glob1 (map entry_name (filter is_dir tree)) "*").
Proof.
  intros Hnames Hp. unfold glob_two_levels, glob_in_dir. rewrite Hp.
  change (has_magic "*") with true. cbv iota.
  induction (glob1 (map entry_name (filter is_dir tree)) "*") as [| dirname dirs IH];
    [reflexivity |].
  cbn [flat_map]. rewrite map_app, IH. f_equal.
  rewrite map_map. rewrite <- (map_id (glob1 (listdir tree dirname) pattern)) at 2.
  apply map_ext_in. intros name Hin. apply basename_path_join.
  unfold glob1 in Hin. apply filter_In in Hin. destruct Hin as [Hin _].
  specialize (Hnames dirname). rewrite Forall_forall in Hnames.
  specialize (Hnames name Hin). unfold slash_free in Hnames.
  apply negb_true_iff. exact Hnames.
Qed.

Section Trees.

Variable jwql_dir : string.
Variable previews : filesystem.
Variable thumbs : filesystem.
Context {W : Type}.
Variable h : handler call answer W.

Local Abbreviation request first rest :=
  (Mast_service_request_async
     ("Mast.Jwst.Filtered." ++ upper (String first "") ++ lower rest) "filename").



(** X25.  Both functions raise [IndexError] for the empty instrument name,
    before any request is sent.  For an ASCII name they send exactly
    one request, for the column [filename] of the service named after
    the instrument with its first letter in upper case and the others
    in lower case. *)
Theorem by_instrument_request (inst : string) (w : W) :
  let preview := run h (get_preview_images_by_instrument jwql_dir previews inst) w in
  let thumb := run h (get_thumbnails_by_instrument jwql_dir thumbs inst) w in
  (inst = "" ->
   preview = mkOutcome (inl (IndexError 0)) w [] /\
   thumb = mkOutcome (inl (IndexError 0)) w []) /\
  (forall first rest,
      inst = String first rest -> is_ascii inst = true ->
      trace preview = [request first rest] /\ trace thumb = [request first rest]).
Proof.
  cbv zeta. split.
  - intros ->. split; reflexivity.
  - intros first rest -> Ha.
    unfold get_preview_images_by_instrument, get_thumbnails_by_instrument.
    rewrite Ha. cbn [bind perform run].
    destruct (h (request first rest) w) as [results w1].
    rewrite !run_bind_lift. cbn [trace].
    destruct (rootnames_of results); split; reflexivity.
Qed.

(** X26.  The instrument name is read without regard to letter case: two
    ASCII names that agree up to case give the same program. *)
Theorem by_instrument_case_insensitive (inst1 inst2 : string) :
  is_ascii inst1 = true -> is_ascii inst2 = true ->
  lower inst1 = lower inst2 ->
  get_preview_images_by_instrument jwql_dir previews inst1
  = get_preview_images_by_instrument jwql_dir previews inst2 /\
  get_thumbnails_by_instrument jwql_dir thumbs inst1
  = get_thumbnails_by_instrument jwql_dir thumbs inst2.
Proof.
  intros H1 H2 Hl.
  destruct inst1 as [| first1 rest1], inst2 as [| first2 rest2];
    try discriminate; [split; reflexivity |].
  unfold get_preview_images_by_instrument, get_thumbnails_by_instrument.
  rewrite H1, H2, (capitalised _ _ _ _ Hl). split; reflexivity.
Qed.

End Trees.



Lemma by_instrument_request_witness :
  trace (run archive
             (get_preview_images_by_instrument Examples.jwql_dir example_previews "nirCAM")
             tt)
  = [Mast_service_request_async "Mast.Jwst.Filtered.Nircam" "filename"].
Proof.
  apply (proj2 (by_instrument_request
                  Examples.jwql_dir example_previews example_previews archive "nirCAM" tt)
               "n"%char "irCAM" eq_refl eq_refl).
Defined.

Lemma by_instrument_case_insensitive_witness :
  get_preview_images_by_instrument Examples.jwql_dir example_previews "NIRCAM"
  = get_preview_images_by_instrument Examples.jwql_dir example_previews "nircam".
Proof.
  apply (by_instrument_case_insensitive
           Examples.jwql_dir example_previews example_previews "NIRCAM" "nircam");
    reflexivity.
Defined.

End ByInstrumentFacts.
